(** * ConnectedApp: the book search application

    A shallow embedding of the shared store ([CommonObject.h]), of the
    catalog client ([DownloadThread.cpp]), of the handlers of the
    presentation loop that write to the shared store ([DrawThread.cpp]) and
    of the persistence code of [main] ([ConnectedApp.cpp]), followed by the
    properties of the specification that were checked against them.

    Modelling conventions.
    - [std::string] is [string]: a sequence of 8-bit characters.
    - [int] is [Z]; a value converted to [int] is wrapped to 32 bits.
    - [std::vector] is [list]; [std::unordered_map<std::string, T>] is
      [gmap string T].
    - An exception is an explicit outcome ([None], or a constructor saying
      which handler catches it).
    - The store has no lock. [step] takes each handler of the presentation
      loop and each fetch attempt of the catalog client as one step on the
      store, which describes the runs in which a fetch attempt is not
      interrupted; [thread_step] lets the download thread and [main]
      advance by one access to the store at a time, in any interleaving
      with the handlers. An access is taken to be indivisible. *)

From Stdlib Require Import ZArith String Ascii DecimalString List Bool Lia Sorted.
From Stdlib Require Import SpecFloat.
From stdpp Require Import gmap strings list fin_maps relations sorting.

Open Scope string_scope.
Open Scope Z_scope.
Open Scope list_scope.

(** ** Pieces of the C++ standard library *)

Module Std.

(** [isalnum] in the "C" locale: ASCII letters and digits. A character
    above 127 is not alphanumeric. *)
Definition isalnum (c : ascii) : bool :=
  let n := nat_of_ascii c in
  ((48 <=? n) && (n <=? 57) || (65 <=? n) && (n <=? 90)
   || (97 <=? n) && (n <=? 122))%nat.

(** [std::to_string(int)]. *)
Definition to_string (z : Z) : string := NilZero.string_of_int (Z.to_int z).

(** [static_cast<int>] of an integer of a wider type. *)
Definition to_int (z : Z) : Z := (z + 2 ^ 31) mod 2 ^ 32 - 2 ^ 31.

(** [double]: the binary64 numbers, as [spec_float] with 53 bits of
    precision. [strtod] on the decimal numeral [m * 10 ^ e10] with the sign
    [neg] ([m] is not negative): the nearest [double], ties to even, an
    infinity when the numeral is too large. For a negative [e10] the
    quotient by the power of ten is taken with 60 bits more than the power
    has and one sticky bit for its remainder, and then rounded. *)
Definition double := spec_float.

Definition strtod (neg : bool) (m e10 : Z) : double :=
  let signed (n : Z) := if neg then - n else n in
  if m =? 0 then S754_zero neg
  else if 0 <=? e10 then binary_normalize 53 1024 (signed (m * 10 ^ e10)) 0 neg
  else
    let d := 10 ^ (- e10) in
    let s := Z.log2 d + 60 in
    let q := (m * 2 ^ s) / d in
    let sticky := if (m * 2 ^ s) mod d =? 0 then 0 else 1 in
    binary_normalize 53 1024 (signed (2 * q + sticky)) (- s - 1) neg.

(** [std::isfinite]. *)
Definition isfinite (x : double) : bool :=
  match x with
  | S754_zero _ | S754_finite _ _ _ => true
  | _ => false
  end.

(** [static_cast<int>(x)] for a [double]: the fraction is discarded. When
    the result does not fit [int] the conversion is undefined in C++; the
    conversion instruction of the x86 processors, for which the program is
    built, gives [INT_MIN] then, and so does this function. *)
Definition double_to_int (x : double) : Z :=
  match x with
  | S754_zero _ => 0
  | S754_finite s m e =>
      let t := if 0 <=? e then Zpos m * 2 ^ e else Zpos m / 2 ^ (- e) in
      let v := if s then - t else t in
      if (- 2 ^ 31 <=? v) && (v <? 2 ^ 31) then v else - 2 ^ 31
  | _ => - 2 ^ 31
  end.

(** [std::find(v.begin(), v.end(), x) != v.end()]. *)
Definition contains (x : string) (v : list string) : bool :=
  bool_decide (x ∈ v).

(** [it = std::find(v.begin(), v.end(), x); if (it != v.end()) v.erase(it)]:
    the first occurrence is erased. *)
Fixpoint erase_first (x : string) (v : list string) : list string :=
  match v with
  | [] => []
  | y :: v' => if decide (y = x) then v' else y :: erase_first x v'
  end.

(** [std::getline(in, line)] on the unread part of a stream: [None] when
    no character could be extracted (the stream fails), otherwise the line
    without its terminator and the rest of the stream. *)
Fixpoint until_newline (s : string) : string * string :=
  match s with
  | "" => ("", "")
  | String c s' =>
      if decide (c = "010"%char) then ("", s')
      else let '(l, r) := until_newline s' in (String c l, r)
  end.

Definition getline (s : string) : option (string * string) :=
  match s with
  | "" => None
  | _ => Some (until_newline s)
  end.

End Std.

(** ** The JSON library (nlohmann::json), as far as the program uses it

    The library is not part of the repository. The model follows its
    documented behaviour: values, the accessors the program calls, the
    serializer [dump] and the reader [parse]. The integers that fit 64
    bits are [JInt] (number_integer and number_unsigned), every other
    number is [JFloat] (number_float). *)

Module Json.

(** *** Values *)

Unset Elimination Schemes.
Inductive json :=
| JNull
| JBool (b : bool)
| JInt (z : Z)
| JFloat (x : Std.double)
| JString (s : string)
| JArray (l : list json)
| JObject (m : list (string * json)).
Set Elimination Schemes.

(** [object_t] is [std::map<std::string, json>]: the members are kept in
    the order of their names and a name occurs once. [obj_insert] is
    [object[k] = v]. *)
Fixpoint obj_insert (k : string) (v : json) (m : list (string * json))
  : list (string * json) :=
  match m with
  | [] => [(k, v)]
  | (k', v') :: m' =>
      match String.compare k k' with
      | Lt => (k, v) :: m
      | Eq => (k, v) :: m'
      | Gt => (k', v') :: obj_insert k v m'
      end
  end.

Fixpoint obj_find (k : string) (m : list (string * json)) : option json :=
  match m with
  | [] => None
  | (k', v) :: m' => if decide (k' = k) then Some v else obj_find k m'
  end.

(** [j.contains(k)]: false on anything but an object. *)
Definition contains (j : json) (k : string) : bool :=
  match j with
  | JObject m => bool_decide (is_Some (obj_find k m))
  | _ => false
  end.

(** [j[k]] for a name the object has; the program reads it only after
    [contains]. *)
Definition subscript (j : json) (k : string) : json :=
  match j with
  | JObject m => default JNull (obj_find k m)
  | _ => JNull
  end.

Definition is_array (j : json) : bool :=
  match j with JArray _ => true | _ => false end.

(** [for (const auto& x : j)]: the elements of an array, the values of an
    object, nothing for null, and the value itself otherwise. *)
Definition elements (j : json) : list json :=
  match j with
  | JNull => []
  | JArray l => l
  | JObject m => m.*2
  | _ => [j]
  end.

(** [j.items()]: an object gives its members, an array its elements under
    their indices, a primitive value itself under the empty name. *)
Definition items (j : json) : list (string * json) :=
  match j with
  | JNull => []
  | JObject m => m
  | JArray l => imap (λ i x, (Std.to_string (Z.of_nat i), x)) l
  | _ => [("", j)]
  end.

(** The conversions [get<T>()]; [None] stands for the [type_error]
    exception. *)
Definition get_string (j : json) : option string :=
  match j with JString s => Some s | _ => None end.

Definition get_int (j : json) : option Z :=
  match j with
  | JInt z => Some (Std.to_int z)
  | JFloat x => Some (Std.double_to_int x)
  | JBool b => Some (if b then 1 else 0)
  | _ => None
  end.

Definition get_string_vector (j : json) : option (list string) :=
  match j with
  | JArray l => mapM get_string l
  | _ => None
  end.

(** [j.value(k, d)] with a string default: the member converted to a
    string when present, the default when absent; an exception when [j] is
    not an object. *)
Definition value (j : json) (k : string) (d : string) : option string :=
  match j with
  | JObject m =>
      match obj_find k m with
      | Some v => get_string v
      | None => Some d
      end
  | _ => None
  end.

(** [j[k] = v] on a value that is null or an object; an exception
    otherwise. *)
Definition assign (j : json) (k : string) (v : json) : option json :=
  match j with
  | JNull => Some (JObject [(k, v)])
  | JObject m => Some (JObject (obj_insert k v m))
  | _ => None
  end.

(** *** Writing *)

Definition code (c : ascii) : Z := Z.of_nat (nat_of_ascii c).
Definition between (lo hi : Z) (c : ascii) : bool :=
  (lo <=? code c) && (code c <=? hi).

(** The well-formed UTF-8 byte sequences (Unicode, table 3-7): the class
    of the sequence that starts at [c], by its length. *)
Inductive utf8_class := One | Two | Three | Four | IllFormed.

Definition classify (c : ascii) (r : string) : utf8_class :=
  let n := code c in
  if n <? 128 then One
  else if between 194 223 c then
    match r with
    | String c1 _ => if between 128 191 c1 then Two else IllFormed
    | _ => IllFormed
    end
  else if between 224 239 c then
    match r with
    | String c1 (String c2 _) =>
        if (if n =? 224 then between 160 191 c1
            else if n =? 237 then between 128 159 c1
            else between 128 191 c1)
           && between 128 191 c2
        then Three else IllFormed
    | _ => IllFormed
    end
  else if between 240 244 c then
    match r with
    | String c1 (String c2 (String c3 _)) =>
        if (if n =? 240 then between 144 191 c1
            else if n =? 244 then between 128 143 c1
            else between 128 191 c1)
           && between 128 191 c2 && between 128 191 c3
        then Four else IllFormed
    | _ => IllFormed
    end
  else IllFormed.

Definition hex_char (n : Z) : ascii :=
  ascii_of_nat (Z.to_nat (if n <? 10 then 48 + n else 87 + n)).

(** [dump_escaped], without [ensure_ascii]: the short escapes, [\u00xx]
    for the other control characters, every other code point copied. A
    byte sequence that is not well-formed UTF-8 raises [type_error] 316
    under the default (strict) error handler: [None]. *)
Definition escape (c : ascii) : string :=
  let n := code c in
  if n =? 8 then "\b"
  else if n =? 9 then "\t"
  else if n =? 10 then "\n"
  else if n =? 12 then "\f"
  else if n =? 13 then "\r"
  else if n =? 34 then String "\" (String "034" "")
  else if n =? 92 then "\\"
  else if n <=? 31 then
    "\u00" +:+ String (hex_char (n / 16)) (String (hex_char (n mod 16)) "")
  else String c "".

Fixpoint dump_escaped (s : string) : option string :=
  match s with
  | "" => Some ""
  | String c r =>
      match classify c r with
      | One => e ← dump_escaped r; Some (escape c +:+ e)
      | Two =>
          match r with
          | String c1 r1 => e ← dump_escaped r1; Some (String c (String c1 e))
          | _ => None
          end
      | Three =>
          match r with
          | String c1 (String c2 r2) =>
              e ← dump_escaped r2; Some (String c (String c1 (String c2 e)))
          | _ => None
          end
      | Four =>
          match r with
          | String c1 (String c2 (String c3 r3)) =>
              e ← dump_escaped r3;
              Some (String c (String c1 (String c2 (String c3 e))))
          | _ => None
          end
      | IllFormed => None
      end
  end.

Definition indent_string (n : nat) : string :=
  string_of_list_ascii (replicate n " "%char).

Definition nl : string := String "010" "".
Definition quote : string := String "034" "".

(** The elements of a non-empty array, one per line at indentation
    [new], a comma after each but the last. *)
Definition dump_elements (dump_value : json → option string) (new : nat)
  : list json → option string :=
  fix go (l : list json) : option string :=
    match l with
    | [] => Some ""
    | x :: l' =>
        d ← dump_value x;
        r ← go l';
        Some (indent_string new +:+ d
              +:+ (match l' with [] => nl | _ => "," +:+ nl end) +:+ r)
    end.

(** The members of a non-empty object, likewise, each as its escaped
    name between quotes, a colon, a space and the value. *)
Definition dump_members (dump_value : json → option string) (new : nat)
  : list (string * json) → option string :=
  fix go (m : list (string * json)) : option string :=
    match m with
    | [] => Some ""
    | (k, x) :: m' =>
        e ← dump_escaped k;
        d ← dump_value x;
        r ← go m';
        Some (indent_string new +:+ quote +:+ e +:+ quote +:+ ": " +:+ d
              +:+ (match m' with [] => nl | _ => "," +:+ nl end) +:+ r)
    end.

(** [serializer::dump] with [pretty_print]: [step] is the indentation
    step, [cur] the current indentation. The digits the serializer prints
    for a number_float are left out of the model, which gives no text for
    a value that holds one; the one value the program serializes,
    [notes_json], is made of objects and strings. *)
Fixpoint dump_aux (step cur : nat) (j : json) : option string :=
  match j with
  | JNull => Some "null"
  | JBool b => Some (if b then "true" else "false")
  | JInt z => Some (Std.to_string z)
  | JFloat _ => None
  | JString s => e ← dump_escaped s; Some (quote +:+ e +:+ quote)
  | JArray [] => Some "[]"
  | JArray l =>
      body ← dump_elements (dump_aux step (cur + step)) (cur + step) l;
      Some ("[" +:+ nl +:+ body +:+ indent_string cur +:+ "]")
  | JObject [] => Some "{}"
  | JObject m =>
      body ← dump_members (dump_aux step (cur + step)) (cur + step) m;
      Some ("{" +:+ nl +:+ body +:+ indent_string cur +:+ "}")
  end.

(** The strings [dump] accepts: well-formed UTF-8. *)
Fixpoint utf8 (s : string) : bool :=
  match s with
  | "" => true
  | String c r =>
      match classify c r with
      | One => utf8 r
      | Two => match r with String _ r1 => utf8 r1 | _ => false end
      | Three =>
          match r with String _ (String _ r2) => utf8 r2 | _ => false end
      | Four =>
          match r with
          | String _ (String _ (String _ r3)) => utf8 r3
          | _ => false
          end
      | IllFormed => false
      end
  end.

(** *** Reading *)

Definition is_ws (c : ascii) : bool :=
  let n := code c in (n =? 32) || (n =? 9) || (n =? 10) || (n =? 13).

Fixpoint skip_ws (s : string) : string :=
  match s with
  | String c r => if is_ws c then skip_ws r else s
  | "" => ""
  end.

Definition is_digit (c : ascii) : bool := between 48 57 c.
Definition digit (c : ascii) : Z := code c - 48.

Definition hex_value (c : ascii) : option Z :=
  let n := code c in
  if between 48 57 c then Some (n - 48)
  else if between 65 70 c then Some (n - 55)
  else if between 97 102 c then Some (n - 87)
  else None.

(** [get_codepoint]: the four hexadecimal digits after [\u]. *)
Definition hex4 (h1 h2 h3 h4 : ascii) : option Z :=
  a ← hex_value h1; b ← hex_value h2; c ← hex_value h3; d ← hex_value h4;
  Some (a * 4096 + b * 256 + c * 16 + d).

Definition chr (n : Z) : ascii := ascii_of_nat (Z.to_nat n).

(** The UTF-8 encoding of a code point, as the lexer appends it. *)
Definition utf8_encode (cp : Z) : string :=
  if cp <? 128 then String (chr cp) ""
  else if cp <=? 2047 then
    String (chr (192 + cp / 64)) (String (chr (128 + cp mod 64)) "")
  else if cp <=? 65535 then
    String (chr (224 + cp / 4096))
      (String (chr (128 + (cp / 64) mod 64))
         (String (chr (128 + cp mod 64)) ""))
  else
    String (chr (240 + cp / 262144))
      (String (chr (128 + (cp / 4096) mod 64))
         (String (chr (128 + (cp / 64) mod 64))
            (String (chr (128 + cp mod 64)) ""))).

Definition simple_escape (e : ascii) : option ascii :=
  let n := code e in
  if n =? 34 then Some (chr 34)
  else if n =? 92 then Some (chr 92)
  else if n =? 47 then Some (chr 47)
  else if n =? 98 then Some (chr 8)
  else if n =? 102 then Some (chr 12)
  else if n =? 110 then Some (chr 10)
  else if n =? 114 then Some (chr 13)
  else if n =? 116 then Some (chr 9)
  else None.

(** [scan_string], entered after the opening quote: the decoded string
    and the input after the closing quote. *)
Fixpoint scan_string (s : string) : option (string * string) :=
  match s with
  | "" => None
  | String c r =>
      if code c =? 34 then Some ("", r)
      else if code c =? 92 then
        match r with
        | "" => None
        | String e r1 =>
            match simple_escape e with
            | Some ch => '(t, rest) ← scan_string r1; Some (String ch t, rest)
            | None =>
                if code e =? 117 then
                  match r1 with
                  | String h1 (String h2 (String h3 (String h4 r5))) =>
                      cp ← hex4 h1 h2 h3 h4;
                      if (55296 <=? cp) && (cp <=? 56319) then
                        match r5 with
                        | String b (String u (String l1 (String l2
                            (String l3 (String l4 r11))))) =>
                            if (code b =? 92) && (code u =? 117) then
                              cp2 ← hex4 l1 l2 l3 l4;
                              if (56320 <=? cp2) && (cp2 <=? 57343) then
                                '(t, rest) ← scan_string r11;
                                Some (utf8_encode
                                        (cp * 1024 + cp2 - 56613888)
                                      +:+ t, rest)
                              else None
                            else None
                        | _ => None
                        end
                      else if (56320 <=? cp) && (cp <=? 57343) then None
                      else '(t, rest) ← scan_string r5;
                           Some (utf8_encode cp +:+ t, rest)
                  | _ => None
                  end
                else None
            end
        end
      else
        match classify c r with
        | One =>
            if code c <? 32 then None
            else '(t, rest) ← scan_string r; Some (String c t, rest)
        | Two =>
            match r with
            | String c1 r1 =>
                '(t, rest) ← scan_string r1;
                Some (String c (String c1 t), rest)
            | _ => None
            end
        | Three =>
            match r with
            | String c1 (String c2 r2) =>
                '(t, rest) ← scan_string r2;
                Some (String c (String c1 (String c2 t)), rest)
            | _ => None
            end
        | Four =>
            match r with
            | String c1 (String c2 (String c3 r3)) =>
                '(t, rest) ← scan_string r3;
                Some (String c (String c1 (String c2 (String c3 t))), rest)
            | _ => None
            end
        | IllFormed => None
        end
  end.

Fixpoint scan_digits (s : string) (acc : Z) : Z * string :=
  match s with
  | String c r =>
      if is_digit c then scan_digits r (10 * acc + digit c) else (acc, s)
  | "" => (acc, "")
  end.

(** The digits of a fraction: they go on the digits read so far, and are
    counted. *)
Fixpoint scan_fraction_digits (s : string) (acc count : Z) : Z * Z * string :=
  match s with
  | String c r =>
      if is_digit c then scan_fraction_digits r (10 * acc + digit c) (count + 1)
      else (acc, count, s)
  | "" => (acc, count, "")
  end.

(** After the digits of the integer part, of value [v]: a point must be
    followed by a digit. The result is the value of all the digits, the
    number of those of the fraction, and whether there is a fraction. *)
Definition scan_fraction (v : Z) (s : string) : option (Z * Z * bool * string) :=
  match s with
  | String c r =>
      if code c =? 46 then
        match r with
        | String d _ =>
            if is_digit d then
              let '(m, count, r') := scan_fraction_digits r v 0 in
              Some (m, count, true, r')
            else None
        | "" => None
        end
      else Some (v, 0, false, s)
  | "" => Some (v, 0, false, s)
  end.

(** After the mantissa: [e] or [E], an optional sign, and at least one
    digit. The result is the exponent and whether there is one. *)
Definition scan_exponent_digits (minus : bool) (s : string)
  : option (Z * bool * string) :=
  match s with
  | String d _ =>
      if is_digit d then
        let '(e, r) := scan_digits s 0 in
        Some (if minus then - e else e, true, r)
      else None
  | "" => None
  end.

Definition scan_exponent (s : string) : option (Z * bool * string) :=
  match s with
  | String c r =>
      if (code c =? 101) || (code c =? 69) then
        match r with
        | String g r' =>
            if code g =? 43 then scan_exponent_digits false r'
            else if code g =? 45 then scan_exponent_digits true r'
            else scan_exponent_digits false r
        | "" => None
        end
      else Some (0, false, s)
  | "" => Some (0, false, s)
  end.

(** The end of a numeral whose integer part has the value [v]. A numeral
    without fraction and exponent that fits [std::uint64_t], or
    [std::int64_t] when it has a minus sign, is an integer; any other
    numeral is read by [strtod], and the parser throws [out_of_range] when
    the result is not finite. *)
Definition finish_number (neg : bool) (v : Z) (r : string)
  : option (json * string) :=
  '(m, count, fraction, r1) ← scan_fraction v r;
  '(e, exponent, r2) ← scan_exponent r1;
  if negb (fraction || exponent)
     && (if neg then v <=? 2 ^ 63 else v <? 2 ^ 64)
  then Some (JInt (if neg then - v else v), r2)
  else
    let x := Std.strtod neg m (e - count) in
    if Std.isfinite x then Some (JFloat x, r2) else None.

Definition scan_unsigned (neg : bool) (s : string) : option (json * string) :=
  match s with
  | String c r =>
      if code c =? 48 then finish_number neg 0 r
      else if is_digit c then
        let '(v, r') := scan_digits r (digit c) in finish_number neg v r'
      else None
  | "" => None
  end.

Definition scan_number (s : string) : option (json * string) :=
  match s with
  | String c r =>
      if code c =? 45 then scan_unsigned true r else scan_unsigned false s
  | "" => None
  end.

(** [scan_literal]: the input must go on with the text of the literal. *)
Fixpoint strip_prefix (lit s : string) : option string :=
  match lit with
  | "" => Some s
  | String c lit' =>
      match s with
      | String c' s' => if decide (c = c') then strip_prefix lit' s' else None
      | "" => None
      end
  end.

Definition scan_literal (lit : string) (v : json) (s : string)
  : option (json * string) :=
  r ← strip_prefix lit s; Some (v, r).

(** A member name followed by its colon. *)
Definition parse_key (s : string) : option (string * string) :=
  match skip_ws s with
  | String c r =>
      if code c =? 34 then
        '(k, r1) ← scan_string r;
        match skip_ws r1 with
        | String c' r2 => if code c' =? 58 then Some (k, r2) else None
        | "" => None
        end
      else None
  | "" => None
  end.

(** The recursive-descent reading of a value. The first argument bounds
    the number of nested or consecutive values still to be read; every
    unit of it is spent after at least one character was consumed. *)
Fixpoint parse_value (n : nat) (s : string) : option (json * string) :=
  match n with
  | O => None
  | S n =>
      match skip_ws s with
      | "" => None
      | String c r =>
          if code c =? 91 then
            match skip_ws r with
            | String c' r' =>
                if code c' =? 93 then Some (JArray [], r')
                else
                  '(v, r1) ← parse_value n r;
                  parse_elements n r1 [v]
            | "" => None
            end
          else if code c =? 123 then
            match skip_ws r with
            | String c' r' =>
                if code c' =? 125 then Some (JObject [], r')
                else
                  '(k, r1) ← parse_key r;
                  '(v, r2) ← parse_value n r1;
                  parse_members n r2 (obj_insert k v [])
            | "" => None
            end
          else if code c =? 34 then
            '(t, r1) ← scan_string r; Some (JString t, r1)
          else if code c =? 116 then scan_literal "true" (JBool true) (String c r)
          else if code c =? 102 then scan_literal "false" (JBool false) (String c r)
          else if code c =? 110 then scan_literal "null" JNull (String c r)
          else if (code c =? 45) || is_digit c then scan_number (String c r)
          else None
      end
  end
with parse_elements (n : nat) (s : string) (acc : list json)
  : option (json * string) :=
  match n with
  | O => None
  | S n =>
      match skip_ws s with
      | String c r =>
          if code c =? 44 then
            '(v, r1) ← parse_value n r;
            parse_elements n r1 (acc ++ [v])
          else if code c =? 93 then Some (JArray acc, r)
          else None
      | "" => None
      end
  end
with parse_members (n : nat) (s : string) (acc : list (string * json))
  : option (json * string) :=
  match n with
  | O => None
  | S n =>
      match skip_ws s with
      | String c r =>
          if code c =? 44 then
            '(k, r1) ← parse_key r;
            '(v, r2) ← parse_value n r1;
            parse_members n r2 (obj_insert k v acc)
          else if code c =? 125 then Some (JObject acc, r)
          else None
      | "" => None
      end
  end.

(** A byte-order mark at the start of the input is skipped; a lone first
    byte of one is an error. *)
Definition skip_bom (s : string) : option string :=
  match s with
  | String c r =>
      if code c =? 239 then
        match r with
        | String c1 (String c2 r') =>
            if (code c1 =? 187) && (code c2 =? 191) then Some r' else None
        | _ => None
        end
      else Some s
  | "" => Some s
  end.

Definition parse_prefix (s : string) : option (json * string) :=
  s0 ← skip_bom s; parse_value (S (String.length s0)) s0.

(** [nlohmann::json::parse(text)]: the whole text must be one value.
    [None] stands for the [parse_error] exception. *)
Definition parse (text : string) : option json :=
  '(j, r) ← parse_prefix text;
  if decide (skip_ws r = "") then Some j else None.

(** [stream >> j]: one value is read from the stream, what follows it is
    left unread. *)
Definition parse_stream (text : string) : option json :=
  fst <$> parse_prefix text.

(** The values [dump] and [parse] are compared on: no number, and in
    every object the members in the strict order of their names, as
    [std::map] keeps them. *)
Definition name_lt (a b : string * json) : Prop :=
  String.compare a.1 b.1 = Lt.

Unset Elimination Schemes.
Inductive canonical : json → Prop :=
| canonical_null : canonical JNull
| canonical_bool b : canonical (JBool b)
| canonical_string s : canonical (JString s)
| canonical_array l : Forall canonical l → canonical (JArray l)
| canonical_object m :
    Forall (λ kv, canonical kv.2) m → StronglySorted name_lt m →
    canonical (JObject m).
Set Elimination Schemes.

(** The number of values in a value, each counted with its place in the
    array or object that holds it. *)
Fixpoint size (j : json) : nat :=
  match j with
  | JArray l => S (list_sum (map (λ x, S (size x)) l))
  | JObject m => S (list_sum (map (λ kv, S (size kv.2)) m))
  | _ => 1
  end.

(** [j] is read back from its text: with enough of the bound, the reader
    gives [j] and stops right after the text. *)
Definition reads_back (j : json) : Prop :=
  ∀ step cur text n rest,
    dump_aux step cur j = Some text → (size j ≤ n)%nat →
    parse_value n (text +:+ rest) = Some (j, rest).

(** [j.dump(indent)] for a non-negative [indent]. *)
Definition dump (indent : nat) (j : json) : option string :=
  dump_aux indent 0 j.

End Json.

(** ** The shared store ([CommonObject.h]) *)

Record BookNote := mkBookNote {
  note : string;
  date : string
}.

Record Book := mkBook {
  key : string;
  title : string;
  author_names : list string;
  first_publish_year : Z;
  edition_count : Z;
  is_favorite : bool;
  language : string;
  subject : string;
  want_to_read_count : Z;
  currently_reading_count : Z;
  already_read_count : Z;
  notes : gmap string BookNote
}.

(** [Book book;]: the default member initialisers. *)
Definition Book_default : Book :=
  mkBook "" "" [] 0 0 false "" "" 0 0 0 ∅.

Record CommonObjects := mkCommon {
  exit_flag : bool;
  start_download : bool;
  data_ready : bool;
  search_query : string;
  search_type : string;
  results_per_page : Z;
  current_page : Z;
  books : list Book;
  favorite_books : list string;
  saved_notes : gmap string BookNote
}.

(** [CommonObjects common;] *)
Definition CommonObjects_default : CommonObjects :=
  mkCommon false false false "" "title" 10 1 [] [] ∅.

(** ** The catalog client ([DownloadThread.cpp]) *)

(** [url_encode]: an unreserved character is copied; for any other
    character the code appends ['%' + std::string(2, '0') + c], that is the
    three characters [%00] followed by the character itself. *)
Fixpoint url_encode (value : string) : string :=
  match value with
  | "" => ""
  | String c rest =>
      (if Std.isalnum c || bool_decide (c = "-"%char)
          || bool_decide (c = "_"%char) || bool_decide (c = "."%char)
          || bool_decide (c = "~"%char)
       then String c ""
       else "%" +:+ "00" +:+ String c "")
      +:+ url_encode rest
  end.

Definition fields_parameter : string :=
  "&fields=key,title,author_name,first_publish_year,edition_count,cover_i,language,subject,want_to_read_count,currently_reading_count,already_read_count".

(** The request path built from the search parameters of the store. *)
Definition request_path (common : CommonObjects) : string :=
  let query := url_encode (search_query common) in
  "/search.json?"
  +:+ (if decide (search_type common = "title") then "title=" else "author=")
  +:+ query
  +:+ "&limit=" +:+ Std.to_string (results_per_page common)
  +:+ "&page=" +:+ Std.to_string (current_page common)
  +:+ fields_parameter.

(** Percent-encoding as the specification words it: a character outside the
    unreserved set is replaced by [%] and the two hexadecimal digits of its
    code. Used only to compare [url_encode] with. *)
Definition hex_digit (n : nat) : ascii :=
  ascii_of_nat (if (n <? 10)%nat then 48 + n else 55 + n).

Definition percent_encoded (c : ascii) : string :=
  let n := nat_of_ascii c in
  String "%" (String (hex_digit (n / 16)) (String (hex_digit (n mod 16)) "")).

Fixpoint url_encode_spec (value : string) : string :=
  match value with
  | "" => ""
  | String c rest =>
      (if Std.isalnum c || bool_decide (c = "-"%char)
          || bool_decide (c = "_"%char) || bool_decide (c = "."%char)
          || bool_decide (c = "~"%char)
       then String c ""
       else percent_encoded c)
      +:+ url_encode_spec rest
  end.


(** Field updates of the store. *)
Definition set_books (bs : list Book) (c : CommonObjects) : CommonObjects :=
  mkCommon (exit_flag c) (start_download c) (data_ready c) (search_query c)
    (search_type c) (results_per_page c) (current_page c) bs
    (favorite_books c) (saved_notes c).

Definition set_data_ready (b : bool) (c : CommonObjects) : CommonObjects :=
  mkCommon (exit_flag c) (start_download c) b (search_query c)
    (search_type c) (results_per_page c) (current_page c) (books c)
    (favorite_books c) (saved_notes c).

Definition set_start_download (b : bool) (c : CommonObjects) : CommonObjects :=
  mkCommon (exit_flag c) b (data_ready c) (search_query c)
    (search_type c) (results_per_page c) (current_page c) (books c)
    (favorite_books c) (saved_notes c).

Definition set_exit_flag (b : bool) (c : CommonObjects) : CommonObjects :=
  mkCommon b (start_download c) (data_ready c) (search_query c)
    (search_type c) (results_per_page c) (current_page c) (books c)
    (favorite_books c) (saved_notes c).

Definition set_search_query (q : string) (c : CommonObjects) : CommonObjects :=
  mkCommon (exit_flag c) (start_download c) (data_ready c) q
    (search_type c) (results_per_page c) (current_page c) (books c)
    (favorite_books c) (saved_notes c).

Definition set_search_type (t : string) (c : CommonObjects) : CommonObjects :=
  mkCommon (exit_flag c) (start_download c) (data_ready c) (search_query c)
    t (results_per_page c) (current_page c) (books c)
    (favorite_books c) (saved_notes c).

Definition set_results_per_page (n : Z) (c : CommonObjects) : CommonObjects :=
  mkCommon (exit_flag c) (start_download c) (data_ready c) (search_query c)
    (search_type c) n (current_page c) (books c)
    (favorite_books c) (saved_notes c).

Definition set_current_page (n : Z) (c : CommonObjects) : CommonObjects :=
  mkCommon (exit_flag c) (start_download c) (data_ready c) (search_query c)
    (search_type c) (results_per_page c) n (books c)
    (favorite_books c) (saved_notes c).

Definition set_favorite_books (f : list string) (c : CommonObjects)
  : CommonObjects :=
  mkCommon (exit_flag c) (start_download c) (data_ready c) (search_query c)
    (search_type c) (results_per_page c) (current_page c) (books c)
    f (saved_notes c).

Definition set_saved_notes (n : gmap string BookNote) (c : CommonObjects)
  : CommonObjects :=
  mkCommon (exit_flag c) (start_download c) (data_ready c) (search_query c)
    (search_type c) (results_per_page c) (current_page c) (books c)
    (favorite_books c) n.

Definition set_is_favorite (f : bool) (b : Book) : Book :=
  mkBook (key b) (title b) (author_names b) (first_publish_year b)
    (edition_count b) f (language b) (subject b) (want_to_read_count b)
    (currently_reading_count b) (already_read_count b) (notes b).

Definition set_notes (n : gmap string BookNote) (b : Book) : Book :=
  mkBook (key b) (title b) (author_names b) (first_publish_year b)
    (edition_count b) (is_favorite b) (language b) (subject b)
    (want_to_read_count b) (currently_reading_count b) (already_read_count b)
    n.

(** The unreserved characters, and the strings made of characters of one
    kind. *)
Definition unreserved (c : ascii) : bool :=
  Std.isalnum c || bool_decide (c = "-"%char) || bool_decide (c = "_"%char)
  || bool_decide (c = "."%char) || bool_decide (c = "~"%char).

Fixpoint all_chars (p : ascii → bool) (s : string) : bool :=
  match s with
  | "" => true
  | String c r => p c && all_chars p r
  end.

(** What [cli.Get(path)] gives back: no response, a response with its
    status and body, or an exception (caught by the outer handler). *)
Inductive HttpResult :=
| NoResponse
| Response (status : Z) (body : string)
| TransportException.

(** The loops over [doc["language"]] and [doc["subject"]]: the entries are
    joined with a comma and a space, the separator being added only when the
    text gathered so far is not empty. [None]: an entry is not a string. *)
Fixpoint join_strings (acc : string) (l : list Json.json) : option string :=
  match l with
  | [] => Some acc
  | x :: l' =>
      s ← Json.get_string x;
      join_strings ((if decide (acc = "") then acc else acc +:+ ", ") +:+ s) l'
  end.

Definition optional_int (doc : Json.json) (field : string) : option Z :=
  if Json.contains doc field then Json.get_int (Json.subscript doc field)
  else Some 0.

Definition optional_joined (doc : Json.json) (field : string) : option string :=
  if Json.contains doc field && Json.is_array (Json.subscript doc field)
  then join_strings "" (Json.elements (Json.subscript doc field))
  else Some "".

(** The outcome of the loop body for one element of [docs]. *)
Inductive DocResult :=
| Skipped
| Accepted (book : Book)
| Thrown.

(** The body of the loop over [docs], up to [push_back]: the element is
    skipped when it has no [key] or no [title] member; a conversion that
    fails throws [nlohmann::json::exception]. *)
Definition convert_doc (common : CommonObjects) (doc : Json.json) : DocResult :=
  if Json.contains doc "key" && Json.contains doc "title" then
    match
      k ← Json.get_string (Json.subscript doc "key");
      t ← Json.get_string (Json.subscript doc "title");
      authors ← (if Json.contains doc "author_name"
                 then Json.get_string_vector (Json.subscript doc "author_name")
                 else Some []);
      year ← optional_int doc "first_publish_year";
      editions ← optional_int doc "edition_count";
      lang ← optional_joined doc "language";
      subj ← optional_joined doc "subject";
      want ← optional_int doc "want_to_read_count";
      current ← optional_int doc "currently_reading_count";
      already ← optional_int doc "already_read_count";
      Some (mkBook k t authors year editions
              (Std.contains k (favorite_books common))
              lang subj want current already
              (match saved_notes common !! k with
               | Some n => {[ k := n ]}
               | None => ∅
               end))
    with
    | Some book => Accepted book
    | None => Thrown
    end
  else Skipped.

(** The loop over [docs]: every accepted book is pushed onto
    [common.books] at once, so an exception leaves there the books pushed
    before it. The result is the list and whether the loop completed. *)
Fixpoint push_docs (common : CommonObjects) (docs : list Json.json)
    (pushed : list Book) : list Book * bool :=
  match docs with
  | [] => (pushed, true)
  | doc :: docs' =>
      match convert_doc common doc with
      | Skipped => push_docs common docs' pushed
      | Accepted book => push_docs common docs' (pushed ++ [book])
      | Thrown => (pushed, false)
      end
  end.

(** [if (json_result.contains("docs")) for (doc : json_result["docs"])]:
    the elements the loop visits. *)
Definition response_docs (json_result : Json.json) : list Json.json :=
  if Json.contains json_result "docs"
  then Json.elements (Json.subscript json_result "docs")
  else [].

(** The book an element contributes to the result list, if any. *)
Definition accepted_book (common : CommonObjects) (doc : Json.json)
  : option Book :=
  match convert_doc common doc with
  | Accepted book => Some book
  | _ => None
  end.

(** [doc] is an object whose member [name] is the string [s]. *)
Definition member_string (doc : Json.json) (name s : string) : Prop :=
  ∃ m, doc = Json.JObject m ∧ Json.obj_find name m = Some (Json.JString s).

(** The body of [if (common.start_download)] without its last statement:
    one request and the handling of its answer. [Get] is the HTTPS client. *)
Definition fetch (Get : string → HttpResult) (common : CommonObjects)
  : CommonObjects :=
  match Get (request_path common) with
  | Response status body =>
      if decide (status = 200) then
        match Json.parse body with
        | Some json_result =>
            (* common.books.clear() *)
            match push_docs common (response_docs json_result) [] with
            | (pushed, true) => set_data_ready true (set_books pushed common)
            | (pushed, false) => set_books pushed common
            end
        | None => common
        end
      else common
  | NoResponse => common
  | TransportException => common
  end.

(** One fetch attempt: [fetch], then [common.start_download = false]. *)
Definition download_attempt (Get : string → HttpResult) (common : CommonObjects)
  : CommonObjects :=
  set_start_download false (fetch Get common).

(** One turn of the loop [while (!common.exit_flag)]. *)
Definition poll (Get : string → HttpResult) (common : CommonObjects)
  : CommonObjects :=
  if exit_flag common then common
  else if start_download common then download_attempt Get common
  else common.

(** How a fetch attempt ended. *)
Inductive FetchOutcome :=
| FetchOk
| FetchNoResponse
| FetchBadStatus
| FetchParseError
| FetchRecordError
| FetchTransportException.

Definition fetch_outcome (Get : string → HttpResult) (common : CommonObjects)
  : FetchOutcome :=
  match Get (request_path common) with
  | Response status body =>
      if decide (status = 200) then
        match Json.parse body with
        | Some json_result =>
            if (push_docs common (response_docs json_result) []).2
            then FetchOk else FetchRecordError
        | None => FetchParseError
        end
      else FetchBadStatus
  | NoResponse => FetchNoResponse
  | TransportException => FetchTransportException
  end.

(** ** The presentation loop ([DrawThread.cpp])

    [DrawAppWindow] runs once per frame. What is modelled is every write it
    makes to the shared store, one handler per widget, together with the
    function-local statics those handlers use. *)

Record State := mkState {
  common : CommonObjects;
  favorite_books_list : list Book;        (* static, favorites popup *)
  needs_refresh : bool;                   (* static, favorites popup *)
  note_buffers : gmap string string       (* static, one buffer per key *)
}.

Definition set_common (c : CommonObjects) (s : State) : State :=
  mkState c (favorite_books_list s) (needs_refresh s) (note_buffers s).

(** The search field (Enter) and the Search button. *)
Definition submit_search (search_buffer : string) (c : CommonObjects)
  : CommonObjects :=
  set_start_download true (set_search_query search_buffer c).

(** The combo box of the search type. *)
Definition select_search_type (selection : Z) (c : CommonObjects)
  : CommonObjects :=
  set_search_type (if decide (selection = 0) then "title" else "author") c.

(** The slider, which keeps its value between 5 and 50. *)
Definition slide_results_per_page (v : Z) (c : CommonObjects) : CommonObjects :=
  set_results_per_page (Z.max 5 (Z.min 50 v)) c.

(** The refresh of the favorites popup: the list is seeded with the books
    of the result list whose flag is set; [fetched] stands for the entries
    the detail requests add for the other favorite keys. *)
Definition refresh_favorites (fetched : list Book) (s : State) : State :=
  if needs_refresh s then
    mkState (common s)
      (filter (λ b, is_favorite b = true) (books (common s)) ++ fetched)
      false (note_buffers s)
  else s.

(** [for (auto& book : common->books) if (book.key == k)
    { book.is_favorite = false; break; }] *)
Fixpoint clear_favorite (k : string) (bs : list Book) : list Book :=
  match bs with
  | [] => []
  | b :: bs' =>
      if decide (key b = k) then set_is_favorite false b :: bs'
      else b :: clear_favorite k bs'
  end.

(** The Remove button of row [i] of the favorites popup. *)
Definition remove_favorite (i : nat) (s : State) : State :=
  match favorite_books_list s !! i with
  | None => s
  | Some entry =>
      let c := common s in
      if Std.contains (key entry) (favorite_books c) then
        mkState
          (set_books (clear_favorite (key entry) (books c))
             (set_favorite_books
                (Std.erase_first (key entry) (favorite_books c)) c))
          (delete i (favorite_books_list s))
          (needs_refresh s) (note_buffers s)
      else s
  end.

(** The Close button of the favorites popup. *)
Definition close_favorites (s : State) : State :=
  mkState (common s) (favorite_books_list s) true (note_buffers s).

(** The check box of row [i] of the results table. The table is drawn only
    when [data_ready] is set and the list is not empty. *)
Definition toggle_favorite (i : nat) (c : CommonObjects) : CommonObjects :=
  if data_ready c then
    match books c !! i with
    | None => c
    | Some book =>
        let book' := set_is_favorite (negb (is_favorite book)) book in
        set_favorite_books
          (if is_favorite book' then favorite_books c ++ [key book]
           else Std.erase_first (key book) (favorite_books c))
          (set_books (<[i := book']> (books c)) c)
    end
  else c.

(** The Notes button of row [i]: a buffer is created for the key when there
    is none yet, from the overlay of the book, else from the saved note
    (which is then copied into the overlay), else empty. *)
Definition open_notes (i : nat) (s : State) : State :=
  let c := common s in
  if data_ready c then
    match books c !! i with
    | None => s
    | Some book =>
        let k := key book in
        match note_buffers s !! k with
        | Some _ => s
        | None =>
            match notes book !! k with
            | Some n =>
                mkState c (favorite_books_list s) (needs_refresh s)
                  (<[k := note n]> (note_buffers s))
            | None =>
                match saved_notes c !! k with
                | Some n =>
                    mkState
                      (set_books
                         (<[i := set_notes (<[k := n]> (notes book)) book]>
                            (books c)) c)
                      (favorite_books_list s) (needs_refresh s)
                      (<[k := note n]> (note_buffers s))
                | None =>
                    mkState c (favorite_books_list s) (needs_refresh s)
                      (<[k := ""]> (note_buffers s))
                end
            end
        end
    end
  else s.

(** An edit in the note field of row [i]: [text] is the buffer after the
    edit, [now] the text [std::ctime] gives for the current time. *)
Definition edit_note (i : nat) (text now : string) (s : State) : State :=
  let c := common s in
  if data_ready c then
    match books c !! i with
    | None => s
    | Some book =>
        let k := key book in
        let n := mkBookNote text now in
        mkState
          (set_saved_notes (<[k := n]> (saved_notes c))
             (set_books
                (<[i := set_notes (<[k := n]> (notes book)) book]> (books c))
                c))
          (favorite_books_list s) (needs_refresh s)
          (<[k := text]> (note_buffers s))
    end
  else s.

(** [DrawThread::operator()]: when the window is closed. *)
Definition window_closed (c : CommonObjects) : CommonObjects :=
  set_exit_flag true c.

(** ** Persistence ([ConnectedApp.cpp]) *)

(** The two files under [data/]; [None] when a file cannot be opened for
    reading. *)
Record Files := mkFiles {
  favorites_txt : option string;
  notes_json : option string
}.

(** [while (std::getline(favorites_file, line)) if (!line.empty())
    push_back(line)]. The first argument bounds the number of lines. *)
Fixpoint read_favorites (n : nat) (stream : string) (favs : list string)
  : list string :=
  match n with
  | O => favs
  | S n =>
      match Std.getline stream with
      | None => favs
      | Some (line, rest) =>
          read_favorites n rest
            (if decide (line = "") then favs else favs ++ [line])
      end
  end.

Definition load_favorites (file : option string) (favs : list string)
  : list string :=
  match file with
  | Some text => read_favorites (S (String.length text)) text favs
  | None => favs
  end.

(** The loop over [notes_json.items()]; an exception ends it and keeps the
    notes stored so far. *)
Fixpoint read_notes (items : list (string * Json.json))
    (saved : gmap string BookNote) : gmap string BookNote :=
  match items with
  | [] => saved
  | (k, n) :: items' =>
      match Json.value n "note" "", Json.value n "date" "" with
      | Some a, Some b => read_notes items' (<[k := mkBookNote a b]> saved)
      | _, _ => saved
      end
  end.

Definition load_notes (file : option string) (saved : gmap string BookNote)
  : gmap string BookNote :=
  match file with
  | Some text =>
      match Json.parse_stream text with
      | Some j => read_notes (Json.items j) saved
      | None => saved
      end
  | None => saved
  end.

(** The store when [main] has loaded both files. *)
Definition main_startup (files : Files) : CommonObjects :=
  set_saved_notes (load_notes (notes_json files) ∅)
    (set_favorite_books (load_favorites (favorites_txt files) [])
       (set_current_page 1 (set_results_per_page 10 CommonObjects_default))).

(** [for (key : favorite_books) save_favorites << key << "\n"] into the
    truncated file. *)
Definition save_favorites (favs : list string) : string :=
  foldr (λ k text, k +:+ Json.nl +:+ text) "" favs.

(** [{{"note", note.note}, {"date", note.date}}] *)
Definition note_object (n : BookNote) : Json.json :=
  Json.JObject
    (Json.obj_insert "date" (Json.JString (date n))
       (Json.obj_insert "note" (Json.JString (note n)) [])).

(** [for ([key, note] : saved_notes) notes_json[key] = {...}], from a null
    [notes_json]. *)
Definition notes_to_json (saved : gmap string BookNote) : option Json.json :=
  foldr (λ '(k, n) oj, j ← oj; Json.assign j k (note_object n))
    (Some Json.JNull) (map_to_list saved).

(** The members of [notes_json] after the loop over a list of notes. *)
Definition notes_members (l : list (string * BookNote))
  : list (string * Json.json) :=
  foldr (λ '(k, n) acc, Json.obj_insert k (note_object n) acc) [] l.

(** A note whose key, text and date are well-formed UTF-8. *)
Definition utf8_note (k : string) (n : BookNote) : Prop :=
  Json.utf8 k = true ∧ Json.utf8 (note n) = true ∧ Json.utf8 (date n) = true.

(** [notes_json.dump(4)]; [None] when it throws. *)
Definition save_notes (saved : gmap string BookNote) : option string :=
  j ← notes_to_json saved; Json.dump 4 j.

(** The files when [main] returns or is terminated by the exception of
    [dump]: [notes.json] is opened, and so truncated, before [dump] runs. *)
Definition main_exit (c : CommonObjects) : Files :=
  mkFiles (Some (save_favorites (favorite_books c)))
    (Some (default "" (save_notes (saved_notes c)))).

(** ** The program as a transition system

    The runs in which no fetch attempt is interrupted: an event is a
    handler of the presentation loop or a whole turn of the download loop
    ([EvPoll]), and [initial_state] is the store once [main] has loaded
    both files, the other two threads not having acted before. The runs in
    which the threads are interleaved more finely are those of
    [thread_step], further down. *)

Inductive Event :=
| EvPoll (Get : string → HttpResult)
| EvSearch (search_buffer : string)
| EvSearchType (selection : Z)
| EvResultsPerPage (v : Z)
| EvRefreshFavorites (fetched : list Book)
| EvRemoveFavorite (i : nat)
| EvCloseFavorites
| EvCheckbox (i : nat)
| EvNotesButton (i : nat)
| EvNoteEdit (i : nat) (text now : string)
| EvWindowClosed.

Definition step (s : State) (e : Event) : State :=
  match e with
  | EvPoll Get => set_common (poll Get (common s)) s
  | EvSearch text => set_common (submit_search text (common s)) s
  | EvSearchType sel => set_common (select_search_type sel (common s)) s
  | EvResultsPerPage v => set_common (slide_results_per_page v (common s)) s
  | EvRefreshFavorites fetched => refresh_favorites fetched s
  | EvRemoveFavorite i => remove_favorite i s
  | EvCloseFavorites => close_favorites s
  | EvCheckbox i => set_common (toggle_favorite i (common s)) s
  | EvNotesButton i => open_notes i s
  | EvNoteEdit i text now => edit_note i text now s
  | EvWindowClosed => set_common (window_closed (common s)) s
  end.

Definition run (s : State) (events : list Event) : State :=
  foldl step s events.

Definition initial_state (files : Files) : State :=
  mkState (main_startup files) [] true ∅.


(** Invariant 1 of the data model: the flag of every book of the result
    list says whether its key is a favorite. *)
Definition favorites_in_sync (c : CommonObjects) : Prop :=
  ∀ b, b ∈ books c → (is_favorite b = true ↔ key b ∈ favorite_books c).

(** A key that fits on a line of [favorites.txt]: not empty, and without a
    line feed. *)
Definition line_key (k : string) : bool :=
  negb (bool_decide (k = ""))
  && all_chars (λ c, negb (bool_decide (c = "010"%char))) k.

(** The keys of the result list stay pairwise distinct along a run. *)
Fixpoint keys_stay_unique (s : State) (events : list Event) : Prop :=
  NoDup (key <$> books (common s))
  ∧ match events with
    | [] => True
    | e :: events' => keys_stay_unique (step s e) events'
    end.

(** ** The favorites popup: the detail requests ([DrawThread.cpp])

    The refresh of the popup in full: the requests it sends to the catalog,
    in order, and the list it builds from the answers. *)

(** How a piece of the refresh ends: with a value; with a failure that the
    code logs or ignores before it goes on ([Failed]: a response that is
    missing or not 200, an exception caught by the enclosing handler); or
    with the program not going on ([Aborted]: an exception no handler
    catches, or a [const] subscript with a name the object lacks). *)
Inductive Outcome (A : Type) :=
| Done (a : A)
| Failed
| Aborted.

Arguments Done {A} a.
Arguments Failed {A}.
Arguments Aborted {A}.

(** [s.starts_with(p)], and [s.substr(n)] for [n] within [s]. *)
Definition starts_with (s p : string) : bool := String.prefix p s.

Fixpoint substr_from (n : nat) (s : string) : string :=
  match n, s with
  | O, _ => s
  | S n', String _ r => substr_from n' r
  | S _, "" => ""
  end.

(** The path of the work detail request for a favorite key. *)
Definition work_path (key : string) : string :=
  let work_id :=
    if starts_with key "/works/" then substr_from 7 key else key in
  "/works/" +:+ work_id +:+ ".json".

(** [author["author"]["key"].get<std::string>()], where [v] is
    [author["author"]]: the subscript on a [const] value throws when [v] is
    not an object and is undefined when the object has no such member. *)
Definition author_key (v : Json.json) : Outcome string :=
  match v with
  | Json.JObject m =>
      match Json.obj_find "key" m with
      | Some x =>
          match Json.get_string x with
          | Some k => Done k
          | None => Failed
          end
      | None => Aborted
      end
  | _ => Failed
  end.

(** The name an author response adds to the book, if any: the body must
    parse, have a [name] member, and that member must be a string (the
    exceptions are caught around the author response alone). *)
Definition author_name (body : string) : option string :=
  match Json.parse body with
  | Some author_json =>
      if Json.contains author_json "name"
      then Json.get_string (Json.subscript author_json "name")
      else None
  | None => None
  end.

(** The loop over [json_result["authors"]]: the names gathered and the
    requests sent, appended to [log]. The loop runs inside the [try] of the
    work response, so an exception of an author request ends it with
    [Failed]; the work request itself is outside every [try]. *)
Fixpoint resolve_authors (Get : string → HttpResult) (authors : list Json.json)
    (names : list string) (log : list string)
  : Outcome (list string) * list string :=
  match authors with
  | [] => (Done names, log)
  | author :: authors' =>
      if Json.contains author "author" then
        match author_key (Json.subscript author "author") with
        | Done k =>
            let author_path := k +:+ ".json" in
            match Get author_path with
            | Response status body =>
                resolve_authors Get authors'
                  (if decide (status = 200) then
                     match author_name body with
                     | Some n => names ++ [n]
                     | None => names
                     end
                   else names)
                  (log ++ [author_path])
            | NoResponse =>
                resolve_authors Get authors' names (log ++ [author_path])
            | TransportException => (Failed, log ++ [author_path])
            end
        | Failed => (Failed, log)
        | Aborted => (Aborted, log)
        end
      else resolve_authors Get authors' names log
  end.

(** The body of the loop over the favorite keys for a key that is not in
    the list yet: the entry to push, if any. *)
Definition resolve_favorite (Get : string → HttpResult) (k : string)
    (log : list string) : Outcome Book * list string :=
  let path := work_path k in
  match Get path with
  | Response status body =>
      if decide (status = 200) then
        match Json.parse body with
        | Some json_result =>
            match Json.get_string (Json.subscript json_result "title") with
            | Some t =>
                match
                  resolve_authors Get
                    (if Json.contains json_result "authors"
                     then Json.elements (Json.subscript json_result "authors")
                     else [])
                    [] (log ++ [path])
                with
                | (Done names, log') =>
                    (Done (mkBook k t names 0 0 true "" "" 0 0 0 ∅), log')
                | (Failed, log') => (Failed, log')
                | (Aborted, log') => (Aborted, log')
                end
            | None => (Failed, log ++ [path])
            end
        | None => (Failed, log ++ [path])
        end
      else (Failed, log ++ [path])
  | NoResponse => (Failed, log ++ [path])
  | TransportException => (Aborted, log ++ [path])
  end.

(** The loop over [common->favorite_books]: a key that some entry of the
    list already has is passed over. *)
Fixpoint resolve_all (Get : string → HttpResult) (keys : list string)
    (entries : list Book) (log : list string)
  : Outcome (list Book) * list string :=
  match keys with
  | [] => (Done entries, log)
  | k :: keys' =>
      if bool_decide (k ∈ key <$> entries) then
        resolve_all Get keys' entries log
      else
        match resolve_favorite Get k log with
        | (Done book, log') => resolve_all Get keys' (entries ++ [book]) log'
        | (Failed, log') => resolve_all Get keys' entries log'
        | (Aborted, log') => (Aborted, log')
        end
  end.

(** The block [if (needs_refresh)] of the popup: the state after it and the
    requests it sent. *)
Definition refresh_view (Get : string → HttpResult) (s : State)
  : Outcome State * list string :=
  if needs_refresh s then
    match
      resolve_all Get (favorite_books (common s))
        (filter (λ b, is_favorite b = true) (books (common s))) []
    with
    | (Done entries, log) =>
        (Done (mkState (common s) entries false (note_buffers s)), log)
    | (Failed, log) => (Failed, log)
    | (Aborted, log) => (Aborted, log)
    end
  else (Done s, []).

(** ** Notions used in the properties below *)

(** The entries of a list joined with a comma and a space, and a list
    without its leading empty strings. *)
Fixpoint join_comma (l : list string) : string :=
  match l with
  | [] => ""
  | [s] => s
  | s :: l' => s +:+ ", " +:+ join_comma l'
  end.

Fixpoint skip_empty (l : list string) : list string :=
  match l with
  | [] => []
  | s :: l' => if decide (s = "") then skip_empty l' else l
  end.

(** The number of characters of a string that [url_encode] does not copy
    as they are. *)
Fixpoint count_reserved (s : string) : nat :=
  match s with
  | "" => O
  | String c r => ((if unreserved c then 0 else 1) + count_reserved r)%nat
  end.


(** A book without what the presentation loop writes into it. *)
Definition as_fetched (b : Book) : Book := set_notes ∅ (set_is_favorite false b).

Definition is_poll (e : Event) : bool :=
  match e with EvPoll _ => true | _ => false end.

(** A member of the notes file as [main] can read it: an object whose
    [note] and [date] members, where present, are strings. *)
Definition note_entry (v : Json.json) : Prop :=
  ∃ m, v = Json.JObject m
       ∧ (∀ x, Json.obj_find "note" m = Some x → ∃ t, x = Json.JString t)
       ∧ (∀ x, Json.obj_find "date" m = Some x → ∃ t, x = Json.JString t).

Definition entry_note (v : Json.json) : BookNote :=
  mkBookNote (default "" (Json.value v "note" ""))
             (default "" (Json.value v "date" "")).

(** An element of the [authors] array of a work detail that refers to the
    author [ak], and the name an author response contributes. *)
Definition author_reference (author : Json.json) (ak : string) : Prop :=
  ∃ m m', author = Json.JObject m
          ∧ Json.obj_find "author" m = Some (Json.JObject m')
          ∧ Json.obj_find "key" m' = Some (Json.JString ak).

Definition answered_name (r : HttpResult) : option string :=
  match r with
  | Response status body =>
      if decide (status = 200) then author_name body else None
  | _ => None
  end.

(** A response the refresh cannot use: none, or one whose status is not
    200. *)
Definition unusable (r : HttpResult) : Prop :=
  r = NoResponse ∨ ∃ status body, r = Response status body ∧ status ≠ 200.

(** ** The three threads on the one store

    [main] starts the presentation thread and the download thread
    ([ConnectedApp.cpp], lines 38-42) and only then sets the two
    parameters and loads the two files; the store has no lock. Below, the
    download thread and [main] advance by one access to the store at a time:
    a position of a thread names the line whose access comes next, and what
    the thread computes on its own between two accesses goes with the
    access after it. A handler of the presentation loop stays one step.
    [poll] and [main_startup] above are the runs of the download thread
    and of [main] that no other thread interrupts. *)

(** Lines 75 to 110 of the loop over [docs]: the fields of the book that
    come from the element. Nothing of the store is read; the flag and the
    note overlay are as [Book book;] leaves them. *)
Definition convert_fields (doc : Json.json) : DocResult :=
  if Json.contains doc "key" && Json.contains doc "title" then
    match
      k ← Json.get_string (Json.subscript doc "key");
      t ← Json.get_string (Json.subscript doc "title");
      authors ← (if Json.contains doc "author_name"
                 then Json.get_string_vector (Json.subscript doc "author_name")
                 else Some []);
      year ← optional_int doc "first_publish_year";
      editions ← optional_int doc "edition_count";
      lang ← optional_joined doc "language";
      subj ← optional_joined doc "subject";
      want ← optional_int doc "want_to_read_count";
      current ← optional_int doc "currently_reading_count";
      already ← optional_int doc "already_read_count";
      Some (mkBook k t authors year editions false lang subj want current
              already ∅)
    with
    | Some book => Accepted book
    | None => Thrown
    end
  else Skipped.

(** Where the download thread is ([DownloadThread.cpp]). *)
Inductive Download :=
| AtLoopHead                                   (* 44: reads exit_flag *)
| AtStartCheck                                 (* 45: reads start_download *)
| AtQuery                                      (* 49: reads search_query *)
| AtType (query : string)                      (* 50: reads search_type *)
| AtLimit (path : string)                      (* 60: reads results_per_page *)
| AtPage (path : string)                       (* 61: reads current_page *)
| AtGet (path : string)                        (* 65-70: the request; clears books *)
| AtDocs (docs : list Json.json)               (* 73-114, or 124 after the last *)
| AtNotesFind (book : Book) (docs : list Json.json)   (* 116: saved_notes.find *)
| AtNotesCopy (book : Book) (docs : list Json.json)   (* 117: saved_notes[key] *)
| AtPush (book : Book) (docs : list Json.json)        (* 120: books.push_back *)
| AtClear                                      (* 139: writes start_download *)
| Stopped.                                     (* the loop is left *)

(** One access of the download thread. From [AtDocs] the fields of the next
    element are converted and the favorites list is read (line 112); an
    element without [key] or [title] is passed over and an exception leads
    to line 139. [saved_notes[key]] inserts an empty note when the key is
    not there. *)
Definition download_step (Get : string → HttpResult) (c : CommonObjects)
    (d : Download) : CommonObjects * Download :=
  match d with
  | AtLoopHead => (c, if exit_flag c then Stopped else AtStartCheck)
  | AtStartCheck => (c, if start_download c then AtQuery else AtLoopHead)
  | AtQuery => (c, AtType (url_encode (search_query c)))
  | AtType query =>
      (c, AtLimit ("/search.json?"
                   +:+ (if decide (search_type c = "title")
                        then "title=" else "author=")
                   +:+ query))
  | AtLimit path =>
      (c, AtPage (path +:+ "&limit=" +:+ Std.to_string (results_per_page c)))
  | AtPage path =>
      (c, AtGet (path +:+ "&page=" +:+ Std.to_string (current_page c)
                 +:+ fields_parameter))
  | AtGet path =>
      match Get path with
      | Response status body =>
          if decide (status = 200) then
            match Json.parse body with
            | Some json_result =>
                (set_books [] c, AtDocs (response_docs json_result))
            | None => (c, AtClear)
            end
          else (c, AtClear)
      | NoResponse => (c, AtClear)
      | TransportException => (c, AtClear)
      end
  | AtDocs [] => (set_data_ready true c, AtClear)
  | AtDocs (doc :: docs) =>
      match convert_fields doc with
      | Skipped => (c, AtDocs docs)
      | Accepted book =>
          (c, AtNotesFind
                (set_is_favorite (Std.contains (key book) (favorite_books c))
                   book)
                docs)
      | Thrown => (c, AtClear)
      end
  | AtNotesFind book docs =>
      (c, match saved_notes c !! key book with
          | Some _ => AtNotesCopy book docs
          | None => AtPush book docs
          end)
  | AtNotesCopy book docs =>
      match saved_notes c !! key book with
      | Some n => (c, AtPush (set_notes (<[key book := n]> (notes book)) book) docs)
      | None =>
          let n := mkBookNote "" "" in
          (set_saved_notes (<[key book := n]> (saved_notes c)) c,
           AtPush (set_notes (<[key book := n]> (notes book)) book) docs)
      end
  | AtPush book docs => (set_books (books c ++ [book]) c, AtDocs docs)
  | AtClear => (set_start_download false c, AtLoopHead)
  | Stopped => (c, Stopped)
  end.

(** Where [main] is ([ConnectedApp.cpp]) once it has started the two
    threads. *)
Inductive Main :=
| AtResultsPerPage                             (* 45 *)
| AtCurrentPage                                (* 46 *)
| AtFavoritesFile                              (* 49-50: the file is opened *)
| AtFavoritesLine (stream : string)            (* 52-54: one line *)
| AtNotesFile                                  (* 64-68: opened and parsed *)
| AtNotesItem (items : list (string * Json.json))   (* 69-73: one member *)
| AtJoin.                                      (* 88: both files are loaded *)

Definition main_step (files : Files) (c : CommonObjects) (m : Main)
  : CommonObjects * Main :=
  match m with
  | AtResultsPerPage => (set_results_per_page 10 c, AtCurrentPage)
  | AtCurrentPage => (set_current_page 1 c, AtFavoritesFile)
  | AtFavoritesFile =>
      (c, match favorites_txt files with
          | Some text => AtFavoritesLine text
          | None => AtNotesFile
          end)
  | AtFavoritesLine stream =>
      match Std.getline stream with
      | Some (line, rest) =>
          (if decide (line = "") then c
           else set_favorite_books (favorite_books c ++ [line]) c,
           AtFavoritesLine rest)
      | None => (c, AtNotesFile)
      end
  | AtNotesFile =>
      (c, match notes_json files with
          | Some text =>
              match Json.parse_stream text with
              | Some j => AtNotesItem (Json.items j)
              | None => AtJoin
              end
          | None => AtJoin
          end)
  | AtNotesItem [] => (c, AtJoin)
  | AtNotesItem ((k, n) :: items) =>
      match Json.value n "note" "", Json.value n "date" "" with
      | Some a, Some b =>
          (set_saved_notes (<[k := mkBookNote a b]> (saved_notes c)) c,
           AtNotesItem items)
      | _, _ => (c, AtJoin)
      end
  | AtJoin => (c, AtJoin)
  end.

(** The store and the statics of the presentation loop, with the positions
    of the other two threads. *)
Record Threads := mkThreads {
  draw : State;
  download : Download;
  main : Main
}.

(** One step of one thread: a handler of the presentation loop (an
    [EvPoll] is no handler and does nothing here), one access of the
    download thread, or one access of [main]. *)
Inductive Action :=
| Draw (e : Event)
| Downloader (Get : string → HttpResult)
| MainThread.

Definition thread_step (files : Files) (t : Threads) (a : Action) : Threads :=
  match a with
  | Draw e =>
      if is_poll e then t
      else mkThreads (step (draw t) e) (download t) (main t)
  | Downloader Get =>
      let '(c, d) := download_step Get (common (draw t)) (download t) in
      mkThreads (set_common c (draw t)) d (main t)
  | MainThread =>
      let '(c, m) := main_step files (common (draw t)) (main t) in
      mkThreads (set_common c (draw t)) (download t) m
  end.

Definition threads_run (files : Files) (t : Threads) (actions : list Action)
  : Threads :=
  foldl (thread_step files) t actions.

(** The moment [main] has started the two threads. *)
Definition threads_start : Threads :=
  mkThreads (mkState CommonObjects_default [] true ∅) AtLoopHead
    AtResultsPerPage.

(** The book the download thread holds between reading the favorites list
    for it (line 112) and pushing it (line 120). *)
Definition in_flight (d : Download) : option Book :=
  match d with
  | AtNotesFind book _ | AtNotesCopy book _ | AtPush book _ => Some book
  | _ => None
  end.



(** The keys of the result list, with the key of the book the download
    thread is about to push, stay pairwise distinct. *)
Fixpoint keys_unique_along (files : Files) (t : Threads)
    (actions : list Action) : Prop :=
  NoDup (key <$> books (common (draw t)) ++ option_list (in_flight (download t)))
  ∧ match actions with
    | [] => True
    | a :: actions' => keys_unique_along files (thread_step files t a) actions'
    end.

(** The download thread is not inside a fetch attempt. *)
Definition at_rest (d : Download) : Prop := d = AtLoopHead ∨ d = Stopped.

(** [n] accesses in a row of the download thread, and of [main]. *)
Definition download_alone (Get : string → HttpResult) (n : nat)
    (c : CommonObjects) (d : Download) : CommonObjects * Download :=
  Nat.iter n (λ cd, download_step Get cd.1 cd.2) (c, d).



(** ** Concrete inputs used below *)

Module Scenario.

Definition quoted (s : string) : string := Json.quote +:+ s +:+ Json.quote.

Definition dune_path : string :=
  "/search.json?title=dune&limit=10&page=1" +:+ fields_parameter.

(** The element [{"key":"/works/OL1W","title":"Dune"}] and a body whose
    [docs] array holds exactly it. *)
Definition dune_doc_text : string :=
  "{" +:+ quoted "key" +:+ ":" +:+ quoted "/works/OL1W" +:+ ","
  +:+ quoted "title" +:+ ":" +:+ quoted "Dune" +:+ "}".

Definition dune_doc : Json.json :=
  Json.JObject [("key", Json.JString "/works/OL1W");
                ("title", Json.JString "Dune")].

Definition dune_body : string :=
  "{" +:+ quoted "docs" +:+ ":[" +:+ dune_doc_text +:+ "]}".

(** A catalog that answers the dune request with [dune_body]. *)
Definition dune_catalog (path : string) : HttpResult :=
  if decide (path = dune_path) then Response 200 dune_body else NoResponse.

(** The store after the user typed [dune] and pressed Search, with
    [/works/OL1W] among the favorites. *)
Definition dune_store : CommonObjects :=
  submit_search "dune"
    (set_favorite_books ["/works/OL1W"] CommonObjects_default).

Definition dune_book : Book :=
  mkBook "/works/OL1W" "Dune" [] 0 0 true "" "" 0 0 0 ∅.

(** A body whose second element has a null key:
    [{"docs":[<dune>,{"key":null,"title":"A"}]}]. *)
Definition null_key_body : string :=
  "{" +:+ quoted "docs" +:+ ":[" +:+ dune_doc_text +:+ ",{"
  +:+ quoted "key" +:+ ":null," +:+ quoted "title" +:+ ":" +:+ quoted "A"
  +:+ "}]}".


(** A store that already shows one book. *)
Definition old_book : Book :=
  mkBook "/works/OL2W" "Emma" [] 1815 0 false "" "" 0 0 0 ∅.

Definition showing_old_book : CommonObjects :=
  set_data_ready true (set_books [old_book] dune_store).

(** A work detail with one author reference,
    [{"title":"Emma","authors":[{"author":{"key":"/authors/OL21594A"}}]}],
    the detail of that author, and a catalog that serves both. *)
Definition emma_work_body : string :=
  "{" +:+ quoted "title" +:+ ":" +:+ quoted "Emma" +:+ ","
  +:+ quoted "authors" +:+ ":[{" +:+ quoted "author" +:+ ":{"
  +:+ quoted "key" +:+ ":" +:+ quoted "/authors/OL21594A" +:+ "}}]}".

Definition austen_body : string :=
  "{" +:+ quoted "name" +:+ ":" +:+ quoted "Jane Austen" +:+ "}".

Definition library (path : string) : HttpResult :=
  if decide (path = "/works/OL2W.json") then Response 200 emma_work_body
  else if decide (path = "/authors/OL21594A.json") then Response 200 austen_body
  else NoResponse.

Definition emma_entry : Book :=
  mkBook "/works/OL2W" "Emma" ["Jane Austen"] 0 0 true "" "" 0 0 0 ∅.

(** The favorites popup about to be drawn: [dune_book] is in the result
    list, and a second favorite is not. *)
Definition two_favorites : State :=
  mkState
    (set_favorite_books ["/works/OL1W"; "/works/OL2W"]
       (set_data_ready true (set_books [dune_book] CommonObjects_default)))
    [] true ∅.

(** A body whose first element has a null key:
    [{"docs":[{"key":null,"title":"A"},<dune>]}]. *)
Definition null_key_doc : Json.json :=
  Json.JObject [("key", Json.JNull); ("title", Json.JString "A")].

Definition null_key_first_body : string :=
  "{" +:+ quoted "docs" +:+ ":[{"
  +:+ quoted "key" +:+ ":null," +:+ quoted "title" +:+ ":" +:+ quoted "A"
  +:+ "}," +:+ dune_doc_text +:+ "]}".

(** A body whose second element has the number 1.5 for its key:
    [{"docs":[<dune>,{"key":1.5,"title":"A"}]}]. *)
Definition float_key_body : string :=
  "{" +:+ quoted "docs" +:+ ":[" +:+ dune_doc_text +:+ ",{"
  +:+ quoted "key" +:+ ":1.5," +:+ quoted "title" +:+ ":" +:+ quoted "A"
  +:+ "}]}".


(** A favorites file with the one key [/works/OL1W], and no notes file. *)
Definition dune_files : Files :=
  mkFiles (Some ("/works/OL1W" +:+ Json.nl)) None.

End Scenario.

(** * Properties *)

(** ** The model on small inputs *)

Example url_encode_plain : url_encode "dune" = "dune".
Proof. reflexivity. Qed.

Example url_encode_space : url_encode "the hobbit" = "the%00 hobbit".
Proof. reflexivity. Qed.

Example to_int_wraps : Std.to_int (2 ^ 31) = - 2 ^ 31.
Proof. reflexivity. Qed.

Example getline_two_lines :
  Std.getline ("ab" +:+ Json.nl +:+ "c") = Some ("ab", "c").
Proof. reflexivity. Qed.

Example parse_dune_body :
  Json.parse Scenario.dune_body
  = Some (Json.JObject [("docs", Json.JArray [Scenario.dune_doc])]).
Proof. reflexivity. Qed.

Example parse_sorts_members :
  Json.parse ("{" +:+ Scenario.quoted "b" +:+ ":1," +:+ Scenario.quoted "a"
              +:+ ":[true,null]}")
  = Some (Json.JObject
            [("a", Json.JArray [Json.JBool true; Json.JNull]);
             ("b", Json.JInt 1)]).
Proof. reflexivity. Qed.

Example parse_trailing_comma : Json.parse "[1,]" = None.
Proof. reflexivity. Qed.

Example parse_is_strict :
  Json.parse "true x" = None ∧ Json.parse_stream "true x" = Some (Json.JBool true).
Proof. split; reflexivity. Qed.

Example parse_unicode_escape :
  Json.parse (Scenario.quoted "é\n")
  = Some (Json.JString (String "195" (String "169" (String "010" "")))).
Proof. reflexivity. Qed.

Example dump_one_note :
  save_notes {[ "/works/OL1W" := mkBookNote "great book" "2024-01-01" ]}
  = Some ("{" +:+ Json.nl
          +:+ "    " +:+ Scenario.quoted "/works/OL1W" +:+ ": {" +:+ Json.nl
          +:+ "        " +:+ Scenario.quoted "date" +:+ ": "
          +:+ Scenario.quoted "2024-01-01" +:+ "," +:+ Json.nl
          +:+ "        " +:+ Scenario.quoted "note" +:+ ": "
          +:+ Scenario.quoted "great book" +:+ Json.nl
          +:+ "    }" +:+ Json.nl
          +:+ "}").
Proof. reflexivity. Qed.

Example dump_no_note : save_notes ∅ = Some "null".
Proof. reflexivity. Qed.

Example fetch_dune :
  books (download_attempt Scenario.dune_catalog Scenario.dune_store)
  = [Scenario.dune_book].
Proof. reflexivity. Qed.

Example null_key_throws :
  convert_doc Scenario.dune_store
    (Json.JObject [("key", Json.JNull); ("title", Json.JString "A")])
  = Thrown.
Proof. reflexivity. Qed.

Example fraction_in_key_is_a_record_error :
  let Get := λ _ : string, Response 200 Scenario.float_key_body in
  let c := Scenario.showing_old_book in
  (∃ j, Json.parse Scenario.float_key_body = Some j)
  ∧ fetch_outcome Get c = FetchRecordError
  ∧ books (download_attempt Get c) = [Scenario.dune_book]
  ∧ data_ready (download_attempt Get c) = data_ready c.
Proof. split; [by eexists|]. repeat split; reflexivity. Qed.

Example parse_fraction :
  Json.parse "[0.1, 1e2, -0.0, 18446744073709551616]"
  = Some (Json.JArray
            [Json.JFloat (S754_finite false 7205759403792794 (-56));
             Json.JFloat (S754_finite false 7036874417766400 (-46));
             Json.JFloat (S754_zero true);
             Json.JFloat (S754_finite false 4503599627370496 12)]).
Proof. reflexivity. Qed.

Example parse_number_errors :
  Json.parse "1." = None ∧ Json.parse "1e" = None ∧ Json.parse "-" = None
  ∧ Json.parse "01" = None ∧ Json.parse "1e400" = None.
Proof. repeat split; reflexivity. Qed.

Example fraction_as_year :
  convert_doc CommonObjects_default
    (Json.JObject [("first_publish_year",
                    Json.JFloat (S754_finite false 6755399441055744 (-52)));
                   ("key", Json.JString "k"); ("title", Json.JString "t")])
  = Accepted (mkBook "k" "t" [] 1 0 false "" "" 0 0 0 ∅).
Proof. reflexivity. Qed.

Example fraction_in_body_is_read :
  let body := "{" +:+ Scenario.quoted "docs" +:+ ":[],"
              +:+ Scenario.quoted "q" +:+ ":1.5}" in
  let Get := λ _ : string, Response 200 body in
  fetch_outcome Get Scenario.dune_store = FetchOk
  ∧ data_ready (download_attempt Get Scenario.dune_store) = true.
Proof. split; reflexivity. Qed.

(** ** The request path *)

(** Unreserved characters go through [url_encode] unchanged. *)
Lemma url_encode_unreserved value :
  all_chars unreserved value = true → url_encode value = value.
Proof.
  induction value as [|c r IH]; simpl; [done|].
  intros [Hc Hr]%andb_true_iff. unfold unreserved in Hc.
  rewrite Hc. simpl. by rewrite IH.
Qed.

(** Every other character is kept too, behind the three characters [%00]. *)
Lemma url_encode_reserved c rest :
  unreserved c = false →
  url_encode (String c rest) = "%00" +:+ String c (url_encode rest).
Proof. intros Hc. simpl. unfold unreserved in Hc. by rewrite Hc. Qed.

(** C2. The request path is [/search.json?], the parameter [title=] or
    [author=], the encoded search text, [&limit=], [&page=] and the fixed
    field list, in that order; but the encoding of the search text is not
    percent-encoding: for the search text [a b] the code produces
    [a%00 b], the space still in place, where percent-encoding gives
    [a%20b]. *)
Theorem url_encode_keeps_reserved_characters :
  url_encode "a b" = "a%00 b"
  ∧ url_encode_spec "a b" = "a%20b"
  ∧ request_path (set_search_query "a b" CommonObjects_default)
    = "/search.json?title=a%00 b&limit=10&page=1" +:+ fields_parameter.
Proof. repeat split; reflexivity. Qed.

(** ** Fetch attempts *)

Lemma start_download_set_start_download b c :
  start_download (set_start_download b c) = b.
Proof. done. Qed.

Lemma data_ready_fetch Get c :
  data_ready (fetch Get c)
  = match fetch_outcome Get c with
    | FetchOk => true
    | _ => data_ready c
    end.
Proof.
  unfold fetch, fetch_outcome.
  destruct (Get (request_path c)) as [|status body|]; try done.
  destruct (decide (status = 200)); [|done].
  destruct (Json.parse body) as [j|]; [|done].
  by destruct (push_docs c (response_docs j) []) as [pushed []].
Qed.

(** C8. A fetch attempt always ends with the start-download flag cleared,
    however the request went, and so does every turn of the polling loop
    that is not stopped by the exit flag; the data-ready flag is raised by
    the successful attempts and by no other. *)
Theorem start_download_cleared_data_ready_on_success Get c :
  start_download (download_attempt Get c) = false
  ∧ (exit_flag c = false → start_download (poll Get c) = false)
  ∧ (fetch_outcome Get c = FetchOk → data_ready (download_attempt Get c) = true)
  ∧ (fetch_outcome Get c ≠ FetchOk →
     data_ready (download_attempt Get c) = data_ready c).
Proof.
  split; [done|]. split.
  { intros Hexit. unfold poll. rewrite Hexit.
    by destruct (start_download c) eqn:Hs. }
  unfold download_attempt.
  change (data_ready (set_start_download false (fetch Get c)))
    with (data_ready (fetch Get c)).
  rewrite data_ready_fetch. split.
  - by intros ->.
  - by destruct (fetch_outcome Get c).
Qed.

Lemma start_download_cleared_witness :
  start_download (poll Scenario.dune_catalog Scenario.dune_store) = false
  ∧ data_ready (download_attempt Scenario.dune_catalog Scenario.dune_store)
    = true
  ∧ data_ready (download_attempt (λ _, NoResponse) Scenario.dune_store)
    = data_ready Scenario.dune_store.
Proof.
  pose proof (start_download_cleared_data_ready_on_success
                Scenario.dune_catalog Scenario.dune_store)
    as (_ & Hpoll & Hok & _).
  pose proof (start_download_cleared_data_ready_on_success
                (λ _, NoResponse) Scenario.dune_store)
    as (_ & _ & _ & Hfail).
  split; [apply Hpoll; reflexivity|].
  split; [apply Hok; reflexivity|].
  apply Hfail. discriminate.
Defined.

(** The loop over [docs]: what it has pushed when it completes, and when an
    element throws. *)
Lemma push_docs_completes c docs pushed :
  Forall (λ d, convert_doc c d ≠ Thrown) docs →
  push_docs c docs pushed = (pushed ++ omap (accepted_book c) docs, true).
Proof.
  intros Hall. revert pushed.
  induction Hall as [|d docs Hd _ IH]; intros pushed; simpl.
  - by rewrite app_nil_r.
  - unfold accepted_book. destruct (convert_doc c d) eqn:Hc; [| |done].
    + apply IH.
    + rewrite IH. by rewrite <- app_assoc.
Qed.

Lemma push_docs_throws c docs1 doc docs2 pushed :
  Forall (λ d, convert_doc c d ≠ Thrown) docs1 →
  convert_doc c doc = Thrown →
  push_docs c (docs1 ++ doc :: docs2) pushed
  = (pushed ++ omap (accepted_book c) docs1, false).
Proof.
  intros Hall Hdoc. revert pushed.
  induction Hall as [|d docs Hd _ IH]; intros pushed; simpl.
  - by rewrite Hdoc, app_nil_r.
  - unfold accepted_book. destruct (convert_doc c d) eqn:Hc; [| |done].
    + apply IH.
    + rewrite IH. by rewrite <- app_assoc.
Qed.

Lemma push_docs_incomplete c docs pushed :
  (push_docs c docs pushed).2 = false →
  ∃ docs1 doc docs2,
    docs = docs1 ++ doc :: docs2
    ∧ Forall (λ d, convert_doc c d ≠ Thrown) docs1
    ∧ convert_doc c doc = Thrown.
Proof.
  revert pushed. induction docs as [|d docs IH]; intros pushed; simpl; [done|].
  destruct (convert_doc c d) eqn:Hc.
  - intros (docs1 & doc & docs2 & -> & Hall & Hdoc)%IH.
    exists (d :: docs1), doc, docs2. split; [done|]. split; [|done].
    constructor; [congruence|done].
  - intros (docs1 & doc & docs2 & -> & Hall & Hdoc)%IH.
    exists (d :: docs1), doc, docs2. split; [done|]. split; [|done].
    constructor; [congruence|done].
  - intros _. by exists [], d, docs.
Qed.

Lemma push_docs_pushed c docs pushed b :
  b ∈ (push_docs c docs pushed).1 →
  b ∈ pushed ∨ ∃ doc, doc ∈ docs ∧ convert_doc c doc = Accepted b.
Proof.
  revert pushed. induction docs as [|d docs IH]; intros pushed; simpl.
  - by left.
  - destruct (convert_doc c d) eqn:Hc.
    + intros [?|(doc & Hin & Hdoc)]%IH; [by left|right].
      exists doc. split; [by right|done].
    + intros [Hb|(doc & Hin & Hdoc)]%IH.
      * apply elem_of_app in Hb as [?|Hb]; [by left|right].
        apply list_elem_of_singleton in Hb as ->.
        exists d. split; [by left|done].
      * right. exists doc. split; [by right|done].
    + by left.
Qed.

Lemma books_download_attempt Get c :
  books (download_attempt Get c) = books (fetch Get c).
Proof. done. Qed.

(** C1, as the code has it. A fetch that fails for want of a response, by
    its status, by a parse error of the body or by a transport exception
    leaves the result list as it was. A fetch that fails while an element of
    [docs] is converted does not: the list was cleared before the loop, and
    the books of the elements before the failing one are in it. *)
Theorem failed_fetch_result_list Get c :
  match fetch_outcome Get c with
  | FetchOk => True
  | FetchRecordError =>
      ∃ body j docs1 doc docs2,
        Get (request_path c) = Response 200 body
        ∧ Json.parse body = Some j
        ∧ response_docs j = docs1 ++ doc :: docs2
        ∧ Forall (λ d, convert_doc c d ≠ Thrown) docs1
        ∧ convert_doc c doc = Thrown
        ∧ books (download_attempt Get c) = omap (accepted_book c) docs1
        ∧ data_ready (download_attempt Get c) = data_ready c
  | _ => books (download_attempt Get c) = books c
  end.
Proof.
  pose proof (data_ready_fetch Get c) as Hready.
  rewrite books_download_attempt.
  change (data_ready (download_attempt Get c)) with (data_ready (fetch Get c)).
  unfold fetch_outcome, fetch in *.
  destruct (Get (request_path c)) as [|status body|]; try done.
  destruct (decide (status = 200)) as [->|]; [|done].
  destruct (Json.parse body) as [j|] eqn:Hparse; [|done].
  destruct (push_docs c (response_docs j) []) as [pushed ok] eqn:Hpush.
  destruct ok; simpl in *; [done|].
  destruct (push_docs_incomplete c (response_docs j) [])
    as (docs1 & doc & docs2 & Hdocs & Hall & Hdoc); [by rewrite Hpush|].
  exists body, j, docs1, doc, docs2. repeat split; try done.
  rewrite Hdocs, (push_docs_throws c docs1 doc docs2 [] Hall Hdoc) in Hpush.
  by injection Hpush as <-.
Qed.

(** C1 as stated fails: for a store that shows one book and a body whose
    second element has a null key, the fetch fails and the result list is
    left with the book of the first element. *)
Lemma record_failure_replaces_result_list :
  let Get := λ _, Response 200 Scenario.null_key_body in
  let c := Scenario.showing_old_book in
  fetch_outcome Get c = FetchRecordError
  ∧ books c = [Scenario.old_book]
  ∧ books (download_attempt Get c) = [Scenario.dune_book]
  ∧ books (download_attempt Get c) ≠ books c.
Proof. vm_compute. repeat split; congruence. Qed.

(** ** Accepted elements *)

Lemma contains_false_subscript doc name :
  Json.contains doc name = true →
  ∃ m v, doc = Json.JObject m ∧ Json.obj_find name m = Some v
         ∧ Json.subscript doc name = v.
Proof.
  destruct doc as [| | | | | |m]; simpl; try done.
  intros [v Hv]%bool_decide_eq_true. exists m, v. by rewrite Hv.
Qed.

Lemma get_string_Some j s : Json.get_string j = Some s → j = Json.JString s.
Proof. destruct j; simpl; congruence. Qed.

(** An accepted element has a [key] and a [title] that are strings, and
    they are the key and the title of the book. *)
Lemma convert_doc_accepted c doc b :
  convert_doc c doc = Accepted b →
  member_string doc "key" (key b) ∧ member_string doc "title" (title b)
  ∧ is_favorite b = Std.contains (key b) (favorite_books c).
Proof.
  unfold convert_doc.
  destruct (Json.contains doc "key") eqn:Hk; [|done].
  destruct (Json.contains doc "title") eqn:Ht; [|done]. simpl.
  apply contains_false_subscript in Hk as (m & vk & -> & Hfk & Hsk).
  apply contains_false_subscript in Ht as (m' & vt & [= <-] & Hft & Hst).
  rewrite Hsk, Hst.
  destruct (Json.get_string vk) as [k|] eqn:Hgk; [|done].
  destruct (Json.get_string vt) as [t|] eqn:Hgt; [|done].
  apply get_string_Some in Hgk as ->. apply get_string_Some in Hgt as ->.
  simpl.
  repeat (match goal with
          | |- context [mbind _ ?o] => destruct o; simpl; [|done]
          end).
  intros [= <-]. simpl. split; [by exists m|]. split; [by exists m|done].
Qed.

Lemma push_docs_skips c doc before : ∀ after pushed,
  convert_doc c doc = Skipped →
  push_docs c (before ++ doc :: after) pushed
  = push_docs c (before ++ after) pushed.
Proof.
  induction before as [|d before IH]; intros after pushed Hskip; simpl.
  - by rewrite Hskip.
  - destruct (convert_doc c d); [by apply IH|by apply IH|done].
Qed.

Lemma push_docs_stops c doc before : ∀ after pushed,
  convert_doc c doc = Thrown →
  push_docs c (before ++ doc :: after) pushed
  = ((push_docs c before pushed).1, false).
Proof.
  induction before as [|d before IH]; intros after pushed Hthrow; simpl.
  - by rewrite Hthrow.
  - destruct (convert_doc c d); [by apply IH|by apply IH|done].
Qed.

Lemma convert_doc_not_a_string c doc :
  Json.contains doc "key" = true → Json.contains doc "title" = true →
  Json.get_string (Json.subscript doc "key") = None
  ∨ Json.get_string (Json.subscript doc "title") = None →
  convert_doc c doc = Thrown.
Proof.
  intros Hk Ht Hnot. unfold convert_doc. rewrite Hk, Ht. simpl.
  destruct Hnot as [-> | Hnot]; [done|].
  destruct (Json.get_string (Json.subscript doc "key")); [|done].
  simpl. by rewrite Hnot.
Qed.

Lemma convert_doc_with_key_and_title c doc k t :
  member_string doc "key" k → member_string doc "title" t →
  convert_doc c doc ≠ Thrown →
  ∃ b, convert_doc c doc = Accepted b ∧ key b = k ∧ title b = t.
Proof.
  intros (m & -> & Hk) (m' & [= <-] & Ht) Hthrow.
  destruct (convert_doc c (Json.JObject m)) as [|b|] eqn:Hdoc; [ | |done].
  - unfold convert_doc in Hdoc. simpl in Hdoc. rewrite Hk, Ht in Hdoc.
    simpl in Hdoc. by destruct (mbind _ _).
  - exists b. split; [done|].
    destruct (convert_doc_accepted c _ b Hdoc)
      as ((m1 & [= <-] & Hk') & (m2 & [= <-] & Ht') & _).
    split; congruence.
Qed.

(** C4, as the code has it. An element of [docs] is accepted only if its
    key and its title are JSON strings. An element without a [key] member
    or without a [title] member is skipped, wherever it stands, and the
    loop goes on exactly as if it were not there. An element whose key or
    title is there but is not a string, null included, is not skipped: its
    conversion throws, the loop ends there and the elements after it are
    not processed. When no element throws, every element is processed: the
    result list is the books of the elements that have both members, in
    their order, each with the key and the title of its element, and the
    data-ready flag is raised. In every case a book of the result list
    comes from an element whose key and title are strings. *)
Theorem only_docs_with_key_and_title_are_accepted c :
  (∀ doc b, convert_doc c doc = Accepted b →
     member_string doc "key" (key b) ∧ member_string doc "title" (title b))
  ∧ (∀ doc,
       Json.contains doc "key" = false ∨ Json.contains doc "title" = false →
       convert_doc c doc = Skipped
       ∧ ∀ before after pushed,
           push_docs c (before ++ doc :: after) pushed
           = push_docs c (before ++ after) pushed)
  ∧ (∀ doc,
       Json.contains doc "key" = true → Json.contains doc "title" = true →
       Json.get_string (Json.subscript doc "key") = None
       ∨ Json.get_string (Json.subscript doc "title") = None →
       convert_doc c doc = Thrown
       ∧ ∀ before after pushed,
           push_docs c (before ++ doc :: after) pushed
           = ((push_docs c before pushed).1, false))
  ∧ (∀ doc k t,
       member_string doc "key" k → member_string doc "title" t →
       convert_doc c doc ≠ Thrown →
       ∃ b, convert_doc c doc = Accepted b ∧ key b = k ∧ title b = t)
  ∧ (∀ Get body j,
       Get (request_path c) = Response 200 body →
       Json.parse body = Some j →
       Forall (λ d, convert_doc c d ≠ Thrown) (response_docs j) →
       books (download_attempt Get c) = omap (accepted_book c) (response_docs j)
       ∧ data_ready (download_attempt Get c) = true)
  ∧ (∀ Get body j b,
       Get (request_path c) = Response 200 body →
       Json.parse body = Some j →
       b ∈ books (download_attempt Get c) →
       ∃ doc, doc ∈ response_docs j
              ∧ member_string doc "key" (key b)
              ∧ member_string doc "title" (title b)).
Proof.
  split; [|split; [|split; [|split; [|split]]]].
  - intros doc b Hacc. by destruct (convert_doc_accepted c doc b Hacc) as (?&?&?).
  - intros doc Hmiss.
    assert (convert_doc c doc = Skipped) as Hskip.
    { unfold convert_doc. destruct Hmiss as [-> | ->]; [done|].
      by rewrite andb_false_r. }
    split; [done|]. intros before after pushed. by apply push_docs_skips.
  - intros doc Hk Ht Hnot.
    pose proof (convert_doc_not_a_string c doc Hk Ht Hnot) as Hthrow.
    split; [done|]. intros before after pushed. by apply push_docs_stops.
  - apply convert_doc_with_key_and_title.
  - intros Get body j HGet Hparse Hall.
    unfold download_attempt, fetch. rewrite HGet, Hparse. simpl.
    by rewrite (push_docs_completes c _ [] Hall).
  - intros Get body j b HGet Hparse.
    rewrite books_download_attempt. unfold fetch. rewrite HGet, Hparse. simpl.
    destruct (push_docs c (response_docs j) []) as [pushed ok] eqn:Hpush.
    assert (b ∈ pushed →
            ∃ doc, doc ∈ response_docs j ∧ convert_doc c doc = Accepted b)
      as Hfrom.
    { intros Hb. destruct (push_docs_pushed c (response_docs j) [] b) as [Hnil|?].
      - by rewrite Hpush.
      - by apply elem_of_nil in Hnil.
      - done. }
    intros Hb. destruct Hfrom as (doc & Hin & Hacc); [by destruct ok|].
    exists doc. split; [done|].
    by destruct (convert_doc_accepted c doc b Hacc) as (?&?&?).
Qed.

Lemma only_docs_with_key_and_title_witness :
  let c := Scenario.dune_store in
  let no_title := Json.JObject [("key", Json.JString "/works/OL2W")] in
  convert_doc c no_title = Skipped
  ∧ push_docs c [Scenario.dune_doc; no_title; Scenario.dune_doc] []
    = push_docs c [Scenario.dune_doc; Scenario.dune_doc] []
  ∧ convert_doc c Scenario.null_key_doc = Thrown
  ∧ push_docs c [Scenario.dune_doc; Scenario.null_key_doc; Scenario.dune_doc] []
    = ([Scenario.dune_book], false)
  ∧ books (download_attempt Scenario.dune_catalog c) = [Scenario.dune_book]
  ∧ member_string Scenario.dune_doc "key" (key Scenario.dune_book).
Proof.
  intros c no_title.
  destruct (only_docs_with_key_and_title_are_accepted c)
    as (Hacc & Hskip & Hthrow & _ & Hall & _).
  destruct (Hskip no_title) as [Hs Hrest]; [right; reflexivity|].
  destruct (Hthrow Scenario.null_key_doc) as [Ht Hstop];
    [reflexivity|reflexivity|left; reflexivity|].
  destruct (Hall Scenario.dune_catalog Scenario.dune_body
              (Json.JObject [("docs", Json.JArray [Scenario.dune_doc])]))
    as [Hbooks _]; [reflexivity|reflexivity| |].
  { repeat constructor. discriminate. }
  split; [exact Hs|].
  split; [apply (Hrest [Scenario.dune_doc] [Scenario.dune_doc] [])|].
  split; [exact Ht|].
  split; [apply (Hstop [Scenario.dune_doc] [Scenario.dune_doc] [])|].
  split; [exact Hbooks|].
  apply (Hacc Scenario.dune_doc Scenario.dune_book). reflexivity.
Defined.

(** C4 as stated fails. The first element of [docs] has a null key, the
    second is the dune element. The first is not skipped: its conversion
    throws, the dune element after it is not processed, the result list
    stays empty and the data-ready flag is not raised; answered alone, the
    dune element gives its book. *)
Lemma null_key_is_not_skipped :
  let c := Scenario.dune_store in
  let Get := λ _ : string, Response 200 Scenario.null_key_first_body in
  Json.parse Scenario.null_key_first_body
  = Some (Json.JObject
            [("docs", Json.JArray [Scenario.null_key_doc; Scenario.dune_doc])])
  ∧ convert_doc c Scenario.null_key_doc = Thrown
  ∧ fetch_outcome Get c = FetchRecordError
  ∧ books (download_attempt Get c) = []
  ∧ data_ready (download_attempt Get c) = false
  ∧ books (download_attempt Scenario.dune_catalog c) = [Scenario.dune_book].
Proof. repeat split; reflexivity. Qed.

(** ** The dune scenario *)

(** C9. For the query [dune] of type [title] with limit 10 and page 1 the
    request path is [/search.json?title=dune&limit=10&page=1] followed by
    the field list; and when the catalog answers that request with status
    200 and a body whose [docs] array holds exactly
    [{"key":"/works/OL1W","title":"Dune"}], and [/works/OL1W] is a favorite,
    the result list is one book with that key and title, the favorite flag
    set, the year 0 and no author, every other optional field at its zero
    value. *)
Theorem dune_scenario Get c body j :
  search_query c = "dune" → search_type c = "title" →
  results_per_page c = 10 → current_page c = 1 →
  "/works/OL1W" ∈ favorite_books c →
  Get Scenario.dune_path = Response 200 body →
  Json.parse body = Some j →
  Json.contains j "docs" = true →
  Json.subscript j "docs" = Json.JArray [Scenario.dune_doc] →
  request_path c = Scenario.dune_path
  ∧ ∃ b, books (download_attempt Get c) = [b]
         ∧ key b = "/works/OL1W" ∧ title b = "Dune"
         ∧ is_favorite b = true ∧ first_publish_year b = 0
         ∧ author_names b = [] ∧ edition_count b = 0
         ∧ language b = "" ∧ subject b = ""
         ∧ want_to_read_count b = 0 ∧ currently_reading_count b = 0
         ∧ already_read_count b = 0.
Proof.
  intros Hq Ht Hl Hp Hfav HGet Hparse Hdocs Harr.
  assert (request_path c = Scenario.dune_path) as Hpath.
  { unfold request_path. by rewrite Hq, Ht, Hl, Hp. }
  split; [done|].
  rewrite books_download_attempt. unfold fetch.
  rewrite Hpath, HGet, Hparse. simpl.
  unfold response_docs. rewrite Hdocs, Harr. simpl.
  unfold convert_doc. simpl. unfold Std.contains.
  rewrite (bool_decide_eq_true_2 _ Hfav). simpl.
  eexists. split; [done|]. by repeat split.
Qed.

Lemma dune_scenario_witness :
  request_path Scenario.dune_store = Scenario.dune_path
  ∧ ∃ b, books (download_attempt Scenario.dune_catalog Scenario.dune_store) = [b]
         ∧ key b = "/works/OL1W" ∧ title b = "Dune"
         ∧ is_favorite b = true ∧ first_publish_year b = 0
         ∧ author_names b = [] ∧ edition_count b = 0
         ∧ language b = "" ∧ subject b = ""
         ∧ want_to_read_count b = 0 ∧ currently_reading_count b = 0
         ∧ already_read_count b = 0.
Proof.
  apply (dune_scenario Scenario.dune_catalog Scenario.dune_store
           Scenario.dune_body
           (Json.JObject [("docs", Json.JArray [Scenario.dune_doc])]));
    try reflexivity.
  - apply list_elem_of_singleton. reflexivity.
Defined.

(** ** The data-ready flag *)

Lemma data_ready_poll Get c :
  data_ready c = true → data_ready (poll Get c) = true.
Proof.
  intros Hready. unfold poll.
  destruct (exit_flag c); [done|]. destruct (start_download c); [|done].
  change (data_ready (download_attempt Get c)) with (data_ready (fetch Get c)).
  rewrite data_ready_fetch, Hready. by destruct (fetch_outcome Get c).
Qed.

Lemma data_ready_step s e :
  data_ready (common s) = true → data_ready (common (step s e)) = true.
Proof.
  intros Hready. destruct e; simpl; try done.
  - by apply data_ready_poll.
  - unfold refresh_favorites. by destruct (needs_refresh s).
  - unfold remove_favorite.
    destruct (favorite_books_list s !! i); [|done].
    by destruct (Std.contains _ _).
  - unfold toggle_favorite. rewrite Hready.
    by destruct (books (common s) !! i).
  - unfold open_notes. rewrite Hready.
    destruct (books (common s) !! i) as [book|]; [|done].
    destruct (note_buffers s !! key book); [done|].
    destruct (notes book !! key book); [done|].
    by destruct (saved_notes (common s) !! key book).
  - unfold edit_note. rewrite Hready.
    by destruct (books (common s) !! i).
Qed.

(** C10. No step of the program resets the data-ready flag: once it is
    set it stays set along every sequence of events, and it is set from the
    first successful fetch on. *)
Theorem data_ready_is_monotone s events :
  (data_ready (common s) = true →
   data_ready (common (run s events)) = true)
  ∧ (∀ Get, exit_flag (common s) = false →
       start_download (common s) = true →
       fetch_outcome Get (common s) = FetchOk →
       data_ready (common (run s (EvPoll Get :: events))) = true).
Proof.
  assert (∀ s', data_ready (common s') = true →
                data_ready (common (run s' events)) = true) as Hrun.
  { unfold run. induction events as [|e events IH]; intros s' Hs'; simpl.
    - done.
    - apply IH. by apply data_ready_step. }
  split; [apply Hrun|].
  intros Get Hexit Hstart Hok. apply Hrun. simpl. unfold poll.
  rewrite Hexit, Hstart.
  change (data_ready (download_attempt Get (common s)))
    with (data_ready (fetch Get (common s))).
  by rewrite data_ready_fetch, Hok.
Qed.

Lemma data_ready_is_monotone_witness :
  let s := mkState Scenario.dune_store [] true ∅ in
  let events := [EvSearch "emma"; EvPoll (λ _, NoResponse); EvCheckbox 0;
                 EvWindowClosed] in
  data_ready (common (run s (EvPoll Scenario.dune_catalog :: events))) = true.
Proof.
  intros s events.
  apply (proj2 (data_ready_is_monotone s events) Scenario.dune_catalog);
    reflexivity.
Defined.

(** ** Removing a favorite from the favorites view *)


Lemma erase_first_NoDup k favs :
  NoDup favs → NoDup (Std.erase_first k favs) ∧ k ∉ Std.erase_first k favs.
Proof.
  induction 1 as [|y favs Hy Hnd IH]; simpl.
  - split; [constructor|apply not_elem_of_nil].
  - destruct (decide (y = k)) as [->|Hne]; [done|].
    destruct IH as [IH1 IH2].
    assert (∀ x, x ∈ Std.erase_first k favs → x ∈ favs) as Hsub.
    { clear. induction favs as [|z favs IH]; simpl; [done|].
      destruct (decide (z = k)); intros x Hx.
      - by right.
      - apply elem_of_cons in Hx as [->|Hx]; [by left|right; by apply IH]. }
    split.
    + constructor; [|done]. intros Hin. by apply Hy, Hsub.
    + intros [?|?]%elem_of_cons; [congruence|done].
Qed.

Lemma erase_first_not_elem k favs : k ∉ favs → Std.erase_first k favs = favs.
Proof.
  induction favs as [|y favs IH]; simpl; [done|].
  intros [Hne Hnin]%not_elem_of_cons.
  destruct (decide (y = k)); [congruence|]. by rewrite IH.
Qed.




Lemma clear_favorite_elem k bs x :
  NoDup (key <$> bs) → x ∈ clear_favorite k bs →
  (key x = k ∧ is_favorite x = false) ∨ (key x ≠ k ∧ x ∈ bs).
Proof.
  induction bs as [|y bs IH]; simpl; [by intros _ ?%elem_of_nil|].
  intros [Hy Hnd]%NoDup_cons.
  destruct (decide (key y = k)) as [Hk|Hk].
  - intros [->|Hx]%elem_of_cons; [by left|right].
    split; [|by right]. intros Hxk. apply Hy. rewrite Hk, <- Hxk.
    by apply list_elem_of_fmap_2.
  - intros [->|Hx]%elem_of_cons.
    + right. split; [done|by left].
    + destruct (IH Hnd Hx) as [?|[? ?]]; [by left|right].
      split; [done|by right].
Qed.




(** ** The favorite flags and the favorites list *)

Lemma erase_first_elem_ne k x favs :
  x ≠ k → x ∈ Std.erase_first k favs ↔ x ∈ favs.
Proof.
  intros Hne. induction favs as [|y favs IH]; simpl; [done|].
  destruct (decide (y = k)) as [->|Hy].
  - rewrite elem_of_cons. split; [by right|]. by intros [?|?].
  - rewrite !elem_of_cons, IH. done.
Qed.

(** After a fetch, whatever its outcome, the flag of every book it put in
    the result list is the membership of its key in the favorites list. *)
Lemma fetch_flags Get c b :
  b ∈ books (fetch Get c) →
  b ∈ books c ∨ is_favorite b = Std.contains (key b) (favorite_books c).
Proof.
  unfold fetch.
  destruct (Get (request_path c)) as [|status body|]; try by left.
  destruct (decide (status = 200)); [|by left].
  destruct (Json.parse body) as [j|]; [|by left].
  destruct (push_docs c (response_docs j) []) as [pushed ok] eqn:Hpush.
  intros Hb. right.
  assert (b ∈ pushed) as Hin by (by destruct ok).
  destruct (push_docs_pushed c (response_docs j) [] b) as [Hnil|(doc&_&Hacc)].
  - by rewrite Hpush.
  - by apply elem_of_nil in Hnil.
  - by destruct (convert_doc_accepted c doc b Hacc) as (_&_&?).
Qed.


Lemma favorite_books_fetch Get c :
  favorite_books (fetch Get c) = favorite_books c.
Proof.
  unfold fetch.
  destruct (Get (request_path c)) as [|status body|]; try done.
  destruct (decide (status = 200)); [|done].
  destruct (Json.parse body) as [j|]; [|done].
  by destruct (push_docs c (response_docs j) []) as [pushed []].
Qed.

Lemma contains_true_iff k favs : Std.contains k favs = true ↔ k ∈ favs.
Proof. apply bool_decide_eq_true. Qed.

Lemma sync_poll Get c :
  favorites_in_sync c →
  favorites_in_sync (poll Get c)
  ∧ favorite_books (poll Get c) = favorite_books c.
Proof.
  intros Hsync. unfold poll.
  destruct (exit_flag c); [done|]. destruct (start_download c); [|done].
  split; [|apply favorite_books_fetch].
  intros b Hb.
  change (favorite_books (download_attempt Get c))
    with (favorite_books (fetch Get c)).
  rewrite favorite_books_fetch.
  destruct (fetch_flags Get c b Hb) as [Hold| ->]; [by apply Hsync|].
  apply contains_true_iff.
Qed.

Lemma insert_elem_unique (bs : list Book) i b b' x :
  NoDup (key <$> bs) → bs !! i = Some b → key b' = key b →
  x ∈ <[i := b']> bs → x = b' ∨ (x ∈ bs ∧ key x ≠ key b).
Proof.
  intros Hnd Hi Hkey [j Hj]%list_elem_of_lookup_1.
  destruct (decide (i = j)) as [<-|Hij].
  - rewrite list_lookup_insert_eq in Hj by (by eapply lookup_lt_Some).
    left. congruence.
  - rewrite list_lookup_insert_ne in Hj by done. right.
    split; [by eapply list_elem_of_lookup_2|].
    intros Hk. apply Hij.
    apply (NoDup_lookup (key <$> bs) i j (key b)); [done|..].
    + by rewrite list_lookup_fmap, Hi.
    + by rewrite list_lookup_fmap, Hj, <- Hk.
Qed.

Lemma sync_toggle i c :
  favorites_in_sync c → NoDup (favorite_books c) → NoDup (key <$> books c) →
  favorites_in_sync (toggle_favorite i c)
  ∧ NoDup (favorite_books (toggle_favorite i c)).
Proof.
  intros Hsync Hfavs Hkeys. unfold toggle_favorite.
  destruct (data_ready c); [|done].
  destruct (books c !! i) as [book|] eqn:Hi; [|done].
  assert (book ∈ books c) as Hbook by (by eapply list_elem_of_lookup_2).
  pose proof (Hsync book Hbook) as Hflag.
  unfold favorites_in_sync. simpl.
  destruct (is_favorite book) eqn:Hf; simpl.
  - (* the box is unticked: the key is erased *)
    assert (key book ∈ favorite_books c) as Hin by (by apply Hflag).
    destruct (erase_first_NoDup (key book) _ Hfavs) as [Hnd Hgone].
    split; [|done]. intros x Hx.
    destruct (insert_elem_unique _ i book (set_is_favorite false book) x
                Hkeys Hi eq_refl Hx) as [->|[Hold Hne]]; simpl.
    + split; [done|]. intros ?. by destruct Hgone.
    + rewrite erase_first_elem_ne by done. by apply Hsync.
  - (* the box is ticked: the key is appended *)
    assert (key book ∉ favorite_books c) as Hnin.
    { intros Hin. apply Hflag in Hin. done. }
    split.
    + intros x Hx.
      destruct (insert_elem_unique _ i book (set_is_favorite true book) x
                  Hkeys Hi eq_refl Hx) as [->|[Hold Hne]]; simpl.
      * split; [|done]. intros _. apply elem_of_app. right. by left.
      * rewrite elem_of_app, list_elem_of_singleton.
        rewrite (Hsync x Hold). split; [by left|]. by intros [?|?].
    + apply NoDup_app. split; [done|]. split; [|apply NoDup_singleton].
      intros x Hx ->%list_elem_of_singleton. done.
Qed.

Lemma sync_remove_favorite i s :
  favorites_in_sync (common s) → NoDup (favorite_books (common s)) →
  NoDup (key <$> books (common s)) →
  favorites_in_sync (common (remove_favorite i s))
  ∧ NoDup (favorite_books (common (remove_favorite i s))).
Proof.
  intros Hsync Hfavs Hkeys. unfold remove_favorite.
  destruct (favorite_books_list s !! i) as [entry|]; [|done].
  destruct (Std.contains _ _); [|done].
  destruct (erase_first_NoDup (key entry) _ Hfavs) as [Hnd Hgone].
  split; [|done]. intros x Hx. simpl in *.
  destruct (clear_favorite_elem _ _ x Hkeys Hx) as [[Hk ->]|[Hk Hold]].
  - split; [done|]. rewrite Hk. intros ?. by destruct Hgone.
  - rewrite erase_first_elem_ne by done. by apply Hsync.
Qed.

Lemma sync_set_notes (bs : list Book) i book n (favs : list string) :
  bs !! i = Some book →
  (∀ b, b ∈ bs → (is_favorite b = true ↔ key b ∈ favs)) →
  ∀ b, b ∈ <[i := set_notes n book]> bs →
       (is_favorite b = true ↔ key b ∈ favs).
Proof.
  intros Hi Hsync b [j Hj]%list_elem_of_lookup_1.
  destruct (decide (i = j)) as [<-|Hij].
  - rewrite list_lookup_insert_eq in Hj by (by eapply lookup_lt_Some).
    injection Hj as <-. simpl. apply (Hsync book).
    by eapply list_elem_of_lookup_2.
  - rewrite list_lookup_insert_ne in Hj by done.
    apply Hsync. by eapply list_elem_of_lookup_2.
Qed.

Lemma sync_step s e :
  favorites_in_sync (common s) → NoDup (favorite_books (common s)) →
  NoDup (key <$> books (common s)) →
  favorites_in_sync (common (step s e))
  ∧ NoDup (favorite_books (common (step s e))).
Proof.
  intros Hsync Hfavs Hkeys. destruct e; simpl; try done.
  - destruct (sync_poll Get _ Hsync) as [? ->]. done.
  - unfold refresh_favorites. by destruct (needs_refresh s).
  - by apply sync_remove_favorite.
  - by apply sync_toggle.
  - unfold open_notes. destruct (data_ready (common s)); [|done].
    destruct (books (common s) !! i) as [book|] eqn:Hi; [|done].
    destruct (note_buffers s !! key book); [done|].
    destruct (notes book !! key book); [done|].
    destruct (saved_notes (common s) !! key book); [|done].
    split; [|done]. unfold favorites_in_sync. simpl.
    by apply sync_set_notes.
  - unfold edit_note. destruct (data_ready (common s)); [|done].
    destruct (books (common s) !! i) as [book|] eqn:Hi; [|done].
    split; [|done]. unfold favorites_in_sync. simpl.
    by apply sync_set_notes.
Qed.

Lemma sync_run s events :
  favorites_in_sync (common s) → NoDup (favorite_books (common s)) →
  keys_stay_unique s events →
  favorites_in_sync (common (run s events)).
Proof.
  revert s. induction events as [|e events IH]; intros s Hsync Hfavs Hkeys.
  - done.
  - destruct Hkeys as [Hkeys Hrest].
    destruct (sync_step s e Hsync Hfavs Hkeys) as [Hsync' Hfavs'].
    simpl. by apply IH.
Qed.



(** ** The favorites file *)

Lemma until_newline_line k rest :
  all_chars (λ c, negb (bool_decide (c = "010"%char))) k = true →
  Std.until_newline (k +:+ Json.nl +:+ rest) = (k, rest).
Proof.
  induction k as [|c k IH]; simpl; [done|].
  intros [Hc Hk]%andb_true_iff.
  apply negb_true_iff, bool_decide_eq_false in Hc.
  rewrite decide_False by done. by rewrite (IH Hk).
Qed.

Lemma getline_line k rest :
  line_key k = true → Std.getline (k +:+ Json.nl +:+ rest) = Some (k, rest).
Proof.
  intros [Hne Hk]%andb_true_iff.
  apply negb_true_iff, bool_decide_eq_false in Hne.
  unfold Std.getline. rewrite until_newline_line by done.
  by destruct k.
Qed.




Lemma read_favorites_saved n favs acc :
  Forall (λ k, line_key k = true) favs → (length favs < n)%nat →
  read_favorites n (save_favorites favs) acc = acc ++ favs.
Proof.
  intros Hall. revert n acc.
  induction Hall as [|k favs Hk _ IH]; intros n acc Hn.
  - destruct n; [simpl in Hn; lia|]. simpl. by rewrite app_nil_r.
  - destruct n as [|n]; [simpl in Hn; lia|]. simpl in *.
    rewrite (getline_line k _ Hk).
    apply andb_true_iff in Hk as [Hne _].
    apply negb_true_iff, bool_decide_eq_false in Hne.
    rewrite decide_False by done.
    rewrite IH by lia. by rewrite <- app_assoc.
Qed.

Lemma length_append s t :
  String.length (s +:+ t) = (String.length s + String.length t)%nat.
Proof. induction s as [|c s IH]; simpl; [done|]. by rewrite IH. Qed.

Lemma length_save_favorites favs :
  (length favs ≤ String.length (save_favorites favs))%nat.
Proof.
  induction favs as [|k favs IH]; simpl; [done|].
  rewrite !length_append. simpl. lia.
Qed.

(** C6, as the code has it. When every key of the favorites list is not
    empty and has no line feed in it, writing the list at exit and reading
    the file at the next start gives the same keys in the same order. *)
Theorem favorites_round_trip c :
  Forall (λ k, line_key k = true) (favorite_books c) →
  load_favorites (Some (save_favorites (favorite_books c))) []
  = favorite_books c
  ∧ favorite_books (main_startup (main_exit c)) = favorite_books c.
Proof.
  intros Hkeys.
  assert (load_favorites (Some (save_favorites (favorite_books c))) []
          = favorite_books c) as Hload.
  { unfold load_favorites. rewrite read_favorites_saved; [done..|].
    pose proof (length_save_favorites (favorite_books c)). lia. }
  split; [done|]. exact Hload.
Qed.

Lemma favorites_round_trip_witness :
  let c := set_favorite_books ["/works/OL1W"; "/works/OL2W"]
             CommonObjects_default in
  favorite_books (main_startup (main_exit c)) = favorite_books c.
Proof.
  intros c. apply (favorites_round_trip c).
  repeat constructor.
Defined.

(** C6 as stated fails: an empty key is dropped by the reader, and a key
    with a line feed in it comes back as two keys. *)
Lemma favorites_round_trip_fails :
  load_favorites (Some (save_favorites ["/works/OL1W"; ""])) []
  = ["/works/OL1W"]
  ∧ load_favorites (Some (save_favorites ["a" +:+ Json.nl +:+ "b"])) []
    = ["a"; "b"]
  ∧ load_favorites (Some (save_favorites [""])) [] ≠ [""].
Proof. repeat split; [reflexivity..|]. vm_compute. congruence. Qed.

(** ** The JSON text: what [dump] writes, [parse] reads back *)

Section RoundTrip.

Import Json.

Lemma append_String c (s t : string) : String c s +:+ t = String c (s +:+ t).
Proof. done. Qed.

Lemma append_assoc (a b c : string) : (a +:+ b) +:+ c = a +:+ b +:+ c.
Proof. induction a as [|x a IH]; [done|]. rewrite !append_String. by f_equal. Qed.

Lemma strip_prefix_append lit rest : strip_prefix lit (lit +:+ rest) = Some rest.
Proof.
  induction lit as [|c lit IH]; [done|].
  rewrite append_String. simpl. by rewrite decide_True.
Qed.

(** A character below 128, written by [escape], is read back. *)
Lemma scan_string_escape c t :
  (code c <? 128) = true →
  scan_string (escape c +:+ t)
  = '(t', rest) ← scan_string t; Some (String c t', rest).
Proof.
  destruct c as [[] [] [] [] [] [] [] []]; intros Hc;
    try discriminate Hc; reflexivity.
Qed.

Lemma classify_One c r : classify c r = One → (code c <? 128) = true.
Proof.
  unfold classify. destruct (code c <? 128); [done|].
  repeat case_match; done.
Qed.

Lemma classify_high c r :
  classify c r ≠ One → classify c r ≠ IllFormed →
  (code c =? 34) = false ∧ (code c =? 92) = false.
Proof.
  unfold classify, between.
  destruct (code c <? 128) eqn:Hlow; [done|].
  apply Z.ltb_ge in Hlow. intros _ _. split; apply Z.eqb_neq; lia.
Qed.

(** The class of a sequence depends on the bytes of the sequence only. *)
Lemma classify_Two c c1 r r' :
  classify c (String c1 r) = Two → classify c (String c1 r') = Two.
Proof. unfold classify. repeat case_match; done. Qed.

Lemma classify_Three c c1 c2 r r' :
  classify c (String c1 (String c2 r)) = Three →
  classify c (String c1 (String c2 r')) = Three.
Proof. unfold classify. repeat case_match; done. Qed.

Lemma classify_Four c c1 c2 c3 r r' :
  classify c (String c1 (String c2 (String c3 r))) = Four →
  classify c (String c1 (String c2 (String c3 r'))) = Four.
Proof. unfold classify. repeat case_match; done. Qed.

Lemma scan_string_plain c r :
  (code c =? 34) = false → (code c =? 92) = false →
  scan_string (String c r)
  = match classify c r with
    | One =>
        if code c <? 32 then None
        else '(t, rest) ← scan_string r; Some (String c t, rest)
    | Two =>
        match r with
        | String c1 r1 =>
            '(t, rest) ← scan_string r1; Some (String c (String c1 t), rest)
        | _ => None
        end
    | Three =>
        match r with
        | String c1 (String c2 r2) =>
            '(t, rest) ← scan_string r2;
            Some (String c (String c1 (String c2 t)), rest)
        | _ => None
        end
    | Four =>
        match r with
        | String c1 (String c2 (String c3 r3)) =>
            '(t, rest) ← scan_string r3;
            Some (String c (String c1 (String c2 (String c3 t))), rest)
        | _ => None
        end
    | IllFormed => None
    end.
Proof. intros H34 H92. simpl. by rewrite H34, H92. Qed.

(** What [dump_escaped] writes, [scan_string] reads back. *)
Lemma scan_string_dump_escaped n s e rest :
  (String.length s < n)%nat →
  dump_escaped s = Some e →
  scan_string (e +:+ quote +:+ rest) = Some (s, rest).
Proof.
  revert s e. induction n as [|n IH]; intros s e Hn; [lia|].
  destruct s as [|c r]; [by intros [= <-]|]. simpl in Hn.
  cbn [dump_escaped]. destruct (classify c r) eqn:Hclass.
  - destruct (dump_escaped r) as [e'|] eqn:He'; [|done]. intros [= <-].
    rewrite append_assoc, scan_string_escape by (by eapply classify_One).
    rewrite (IH r e') by (done || lia). done.
  - destruct r as [|c1 r1]; [done|].
    destruct (dump_escaped r1) as [e'|] eqn:He'; [|done]. intros [= <-].
    destruct (classify_high c (String c1 r1)) as [H34 H92]; [congruence..|].
    rewrite !append_String, scan_string_plain by done.
    rewrite (classify_Two _ _ _ _ Hclass).
    simpl in Hn. rewrite (IH r1 e') by (done || lia). done.
  - destruct r as [|c1 [|c2 r2]]; [done..|].
    destruct (dump_escaped r2) as [e'|] eqn:He'; [|done]. intros [= <-].
    destruct (classify_high c (String c1 (String c2 r2))) as [H34 H92];
      [congruence..|].
    rewrite !append_String, scan_string_plain by done.
    rewrite (classify_Three _ _ _ _ _ Hclass).
    simpl in Hn. rewrite (IH r2 e') by (done || lia). done.
  - destruct r as [|c1 [|c2 [|c3 r3]]]; [done..|].
    destruct (dump_escaped r3) as [e'|] eqn:He'; [|done]. intros [= <-].
    destruct (classify_high c (String c1 (String c2 (String c3 r3))))
      as [H34 H92]; [congruence..|].
    rewrite !append_String, scan_string_plain by done.
    rewrite (classify_Four _ _ _ _ _ _ Hclass).
    simpl in Hn. rewrite (IH r3 e') by (done || lia). done.
  - done.
Qed.

Lemma utf8_dump_escaped n s :
  (String.length s < n)%nat → utf8 s = true → is_Some (dump_escaped s).
Proof.
  revert s. induction n as [|n IH]; intros s Hn; [lia|].
  destruct s as [|c r]; [by eexists|]. simpl in Hn.
  cbn [dump_escaped utf8]. destruct (classify c r) eqn:Hclass.
  - intros [e ->]%IH; [|lia]. by eexists.
  - destruct r as [|c1 r1]; [done|]. simpl in Hn.
    intros [e ->]%IH; [|lia]. by eexists.
  - destruct r as [|c1 [|c2 r2]]; [done..|]. simpl in Hn.
    intros [e ->]%IH; [|lia]. by eexists.
  - destruct r as [|c1 [|c2 [|c3 r3]]]; [done..|]. simpl in Hn.
    intros [e ->]%IH; [|lia]. by eexists.
  - done.
Qed.

(** *** Values *)

Lemma json_ind (P : json → Prop) :
  P JNull → (∀ b, P (JBool b)) → (∀ z, P (JInt z)) → (∀ x, P (JFloat x)) →
  (∀ s, P (JString s)) →
  (∀ l, Forall P l → P (JArray l)) →
  (∀ m, Forall (λ kv, P kv.2) m → P (JObject m)) →
  ∀ j, P j.
Proof.
  intros Hnull Hbool Hint Hfloat Hstr Harr Hobj.
  refine (fix go (j : json) : P j :=
            match j with
            | JNull => Hnull
            | JBool b => Hbool b
            | JInt z => Hint z
            | JFloat x => Hfloat x
            | JString s => Hstr s
            | JArray l =>
                Harr l ((fix all (l : list json) : Forall P l :=
                           match l with
                           | [] => List.Forall_nil _
                           | x :: l' => @List.Forall_cons _ P x l' (go x) (all l')
                           end) l)
            | JObject m =>
                Hobj m ((fix all (m : list (string * json))
                           : Forall (λ kv, P kv.2) m :=
                           match m with
                           | [] => List.Forall_nil _
                           | (k, x) :: m' =>
                               @List.Forall_cons _ (λ kv, P kv.2) (k, x) m'
                                 (go x) (all m')
                           end) m)
            end).
Qed.

(** *** White space *)

Lemma skip_ws_nl s : skip_ws (nl +:+ s) = skip_ws s.
Proof. done. Qed.

Lemma skip_ws_space s : skip_ws (" " +:+ s) = skip_ws s.
Proof. done. Qed.

Lemma skip_ws_indent n s : skip_ws (indent_string n +:+ s) = skip_ws s.
Proof. induction n as [|n IH]; [done|]. exact IH. Qed.

Lemma skip_ws_idemp s : skip_ws (skip_ws s) = skip_ws s.
Proof.
  induction s as [|c s IH]; [done|]. simpl.
  destruct (is_ws c) eqn:Hc; [done|]. simpl. by rewrite Hc.
Qed.

Lemma skip_ws_start c s : is_ws c = false → skip_ws (String c s) = String c s.
Proof. intros Hc. simpl. by rewrite Hc. Qed.

(** *** One step of the reader *)

Lemma parse_value_S n s :
  parse_value (S n) s
  = match skip_ws s with
    | "" => None
    | String c r =>
        if code c =? 91 then
          match skip_ws r with
          | String c' r' =>
              if code c' =? 93 then Some (JArray [], r')
              else '(v, r1) ← parse_value n r; parse_elements n r1 [v]
          | "" => None
          end
        else if code c =? 123 then
          match skip_ws r with
          | String c' r' =>
              if code c' =? 125 then Some (JObject [], r')
              else
                '(k, r1) ← parse_key r;
                '(v, r2) ← parse_value n r1;
                parse_members n r2 (obj_insert k v [])
          | "" => None
          end
        else if code c =? 34 then
          '(t, r1) ← scan_string r; Some (JString t, r1)
        else if code c =? 116 then scan_literal "true" (JBool true) (String c r)
        else if code c =? 102 then scan_literal "false" (JBool false) (String c r)
        else if code c =? 110 then scan_literal "null" JNull (String c r)
        else if (code c =? 45) || is_digit c then scan_number (String c r)
        else None
    end.
Proof. done. Qed.

Lemma parse_elements_S n s acc :
  parse_elements (S n) s acc
  = match skip_ws s with
    | String c r =>
        if code c =? 44 then
          '(v, r1) ← parse_value n r; parse_elements n r1 (acc ++ [v])
        else if code c =? 93 then Some (JArray acc, r)
        else None
    | "" => None
    end.
Proof. done. Qed.

Lemma parse_members_S n s acc :
  parse_members (S n) s acc
  = match skip_ws s with
    | String c r =>
        if code c =? 44 then
          '(k, r1) ← parse_key r;
          '(v, r2) ← parse_value n r1;
          parse_members n r2 (obj_insert k v acc)
        else if code c =? 125 then Some (JObject acc, r)
        else None
    | "" => None
    end.
Proof. done. Qed.

Lemma parse_value_skip_ws n s : parse_value n (skip_ws s) = parse_value n s.
Proof. destruct n; [done|]. by rewrite !parse_value_S, skip_ws_idemp. Qed.

Lemma parse_key_skip_ws s : parse_key (skip_ws s) = parse_key s.
Proof. unfold parse_key. by rewrite skip_ws_idemp. Qed.

Lemma parse_key_dump k e t :
  dump_escaped k = Some e →
  parse_key (quote +:+ e +:+ quote +:+ ": " +:+ t) = Some (k, " " +:+ t).
Proof.
  intros He. unfold parse_key.
  change (skip_ws (quote +:+ e +:+ quote +:+ ": " +:+ t))
    with (String "034" (e +:+ quote +:+ ": " +:+ t)).
  cbn [code nat_of_ascii Z.eqb]. simpl (code "034" =? 34).
  cbv iota.
  rewrite (scan_string_dump_escaped (S (String.length k)) k e) by (done || lia).
  done.
Qed.

Ltac starts := eexists _, _; split; [reflexivity|]; repeat split; reflexivity.

(** The text of a value starts with a character that is neither white
    space nor a closing bracket. *)
Lemma dump_starts step cur j text :
  canonical j → dump_aux step cur j = Some text →
  ∃ c t, text = String c t ∧ is_ws c = false
         ∧ (code c =? 93) = false ∧ (code c =? 125) = false
         ∧ (code c =? 239) = false.
Proof.
  intros Hj. destruct j as [|[]| | |s|[|x l]|[|[k x] m]]; simpl.
  - intros [= <-]. starts.
  - intros [= <-]. starts.
  - intros [= <-]. starts.
  - inversion Hj.
  - inversion Hj.
  - destruct (dump_escaped s); [|done]. intros [= <-]. starts.
  - intros [= <-]. starts.
  - intros (body & _ & [= <-])%bind_Some. starts.
  - intros [= <-]. starts.
  - intros (body & _ & [= <-])%bind_Some. starts.
Qed.

Lemma skip_ws_dump step cur j text rest :
  canonical j → dump_aux step cur j = Some text →
  skip_ws (text +:+ rest) = text +:+ rest.
Proof.
  intros Hj Hd.
  destruct (dump_starts step cur j text Hj Hd) as (c & t & -> & Hc & _).
  rewrite append_String. by apply skip_ws_start.
Qed.

Lemma empty_append (s : string) : "" +:+ s = s.
Proof. done. Qed.

Lemma char_append c (s : string) : String c "" +:+ s = String c s.
Proof. done. Qed.

Lemma parse_elements_dump step new cur rest l :
  Forall reads_back l → Forall canonical l →
  ∀ acc n body,
    dump_elements (dump_aux step new) new l = Some body →
    (S (list_sum (map (λ x, S (size x)) l)) ≤ n)%nat →
    parse_elements n
      ((match l with [] => nl | _ => "," +:+ nl end)
       +:+ body +:+ indent_string cur +:+ "]" +:+ rest) acc
    = Some (JArray (acc ++ l), rest).
Proof.
  intros Hback Hcanon. induction Hback as [|x l Hx _ IH];
    intros acc n body Hbody Hn.
  - injection Hbody as <-. destruct n as [|n]; [lia|].
    rewrite parse_elements_S, skip_ws_nl, empty_append, skip_ws_indent.
    by rewrite app_nil_r.
  - apply Forall_cons in Hcanon as [Hcx Hcl].
    cbn [dump_elements] in Hbody. fold (dump_elements (dump_aux step new) new) in Hbody.
    destruct (dump_aux step new x) as [d|] eqn:Hd; [|done].
    destruct (dump_elements (dump_aux step new) new l) as [r|] eqn:Hr; [|done].
    injection Hbody as <-. destruct n as [|n]; [lia|]. simpl in Hn.
    rewrite parse_elements_S, !append_assoc, char_append.
    rewrite skip_ws_start by done.
    change (code "," =? 44) with true. cbv iota.
    rewrite <- parse_value_skip_ws, skip_ws_nl, skip_ws_indent.
    rewrite (skip_ws_dump step new x d) by done.
    rewrite (Hx step new d n) by (done || lia). simpl.
    rewrite (IH Hcl (acc ++ [x]) n r) by (done || lia).
    by rewrite <- app_assoc.
Qed.

Lemma obj_insert_last k v acc :
  Forall (λ kv, name_lt kv (k, v)) acc → obj_insert k v acc = acc ++ [(k, v)].
Proof.
  induction 1 as [|[k' v'] acc Hlt _ IH]; [done|]. simpl.
  unfold name_lt in Hlt. simpl in Hlt.
  rewrite String.compare_antisym, Hlt. simpl. by rewrite IH.
Qed.

Lemma sorted_before {A} (R : A → A → Prop) acc x m :
  StronglySorted R (acc ++ x :: m) → Forall (λ y, R y x) acc.
Proof.
  induction acc as [|y acc IH]; simpl; [by constructor|].
  intros [Hs Hy]%StronglySorted_inv. constructor; [|by apply IH].
  apply Forall_app in Hy as [_ Hy]. by apply Forall_cons in Hy as [? _].
Qed.

Lemma parse_members_dump step new cur rest m :
  Forall (λ kv, reads_back kv.2) m → Forall (λ kv, canonical kv.2) m →
  ∀ acc n body,
    StronglySorted name_lt (acc ++ m) →
    dump_members (dump_aux step new) new m = Some body →
    (S (list_sum (map (λ kv, S (size kv.2)) m)) ≤ n)%nat →
    parse_members n
      ((match m with [] => nl | _ => "," +:+ nl end)
       +:+ body +:+ indent_string cur +:+ "}" +:+ rest) acc
    = Some (JObject (acc ++ m), rest).
Proof.
  intros Hback Hcanon. induction Hback as [|[k x] m Hx _ IH];
    intros acc n body Hsorted Hbody Hn.
  - injection Hbody as <-. destruct n as [|n]; [lia|].
    rewrite parse_members_S, skip_ws_nl, empty_append, skip_ws_indent.
    by rewrite app_nil_r.
  - apply Forall_cons in Hcanon as [Hcx Hcl]. simpl in Hx, Hcx.
    cbn [dump_members] in Hbody.
    fold (dump_members (dump_aux step new) new) in Hbody.
    destruct (dump_escaped k) as [e|] eqn:He; [|done].
    destruct (dump_aux step new x) as [d|] eqn:Hd; [|done].
    destruct (dump_members (dump_aux step new) new m) as [r|] eqn:Hr; [|done].
    injection Hbody as <-. destruct n as [|n]; [lia|]. simpl in Hn.
    rewrite parse_members_S, !append_assoc, char_append.
    rewrite skip_ws_start by done.
    change (code "," =? 44) with true. cbv iota.
    rewrite <- parse_key_skip_ws, skip_ws_nl, skip_ws_indent, parse_key_skip_ws.
    rewrite (parse_key_dump k e) by done. simpl.
    rewrite <- parse_value_skip_ws, skip_ws_space.
    rewrite (skip_ws_dump step new x d) by done.
    rewrite (Hx step new d n) by (done || lia). simpl.
    rewrite obj_insert_last by (by eapply sorted_before).
    rewrite (IH Hcl (acc ++ [(k, x)]) n r); [by rewrite <- app_assoc|..].
    + by rewrite <- app_assoc.
    + done.
    + lia.
Qed.

(** *** Reading back what was written *)

Lemma parse_value_dump_aux j : canonical j → reads_back j.
Proof.
  induction j as [|b|z|fl|s|l IH|m IH] using json_ind;
    intros Hj step cur text n rest Hd Hn;
    (destruct n as [|n]; [destruct l || destruct m || idtac; simpl in Hn; lia|]).
  - injection Hd as <-. done.
  - injection Hd as <-. by destruct b.
  - inversion Hj.
  - inversion Hj.
  - simpl in Hd. destruct (dump_escaped s) as [e|] eqn:He; [|done].
    injection Hd as <-. rewrite parse_value_S, !append_assoc.
    change (skip_ws (quote +:+ e +:+ quote +:+ rest))
      with (String "034" (e +:+ quote +:+ rest)).
    change (code "034" =? 91) with false. change (code "034" =? 123) with false.
    change (code "034" =? 34) with true. cbv iota.
    by rewrite (scan_string_dump_escaped (S (String.length s)) s e)
      by (done || lia).
  - inversion Hj as [| | |l' Hl|]; subst.
    destruct l as [|x l]; [by injection Hd as <-|].
    cbn [dump_aux] in Hd.
    apply bind_Some in Hd as (body & Hbody & [= <-]).
    cbn [dump_elements] in Hbody.
    fold (dump_elements (dump_aux step (cur + step)) (cur + step)) in Hbody.
    destruct (dump_aux step (cur + step) x) as [d|] eqn:Hdx; [|done].
    destruct (dump_elements _ _ l) as [r|] eqn:Hr; [|done].
    injection Hbody as <-.
    apply Forall_cons in IH as [IHx IHl]. apply Forall_cons in Hl as [Hx Hl].
    destruct (dump_starts _ _ _ _ Hx Hdx) as (c & t & Hct & Hc & H93 & _).
    rewrite parse_value_S, !append_assoc, char_append.
    change (skip_ws (String "[" ?s)) with (String "[" s).
    change (code "[" =? 91) with true. cbv iota.
    rewrite skip_ws_nl, skip_ws_indent.
    rewrite (skip_ws_dump step (cur + step) x d) by done.
    rewrite Hct at 1. rewrite append_String, H93.
    rewrite <- parse_value_skip_ws, skip_ws_nl, skip_ws_indent.
    rewrite (skip_ws_dump step (cur + step) x d) by done.
    simpl in Hn.
    rewrite (IHx Hx step (cur + step)%nat d n) by (done || lia). simpl.
    apply (parse_elements_dump step (cur + step)%nat cur rest l); [|done..|lia].
    apply Forall_forall. intros y Hy.
    by apply (proj1 (Forall_forall _ _) IHl y Hy), (proj1 (Forall_forall _ _) Hl).
  - inversion Hj as [| | | |m' Hm Hsorted]; subst.
    destruct m as [|[k x] m]; [by injection Hd as <-|].
    cbn [dump_aux] in Hd.
    apply bind_Some in Hd as (body & Hbody & [= <-]).
    cbn [dump_members] in Hbody.
    fold (dump_members (dump_aux step (cur + step)) (cur + step)) in Hbody.
    destruct (dump_escaped k) as [e|] eqn:He; [|done].
    destruct (dump_aux step (cur + step) x) as [d|] eqn:Hdx; [|done].
    destruct (dump_members _ _ m) as [r|] eqn:Hr; [|done].
    injection Hbody as <-.
    apply Forall_cons in IH as [IHx IHm]. apply Forall_cons in Hm as [Hx Hm].
    simpl in IHx, Hx.
    rewrite parse_value_S, !append_assoc, char_append.
    change (skip_ws (String "{" ?s)) with (String "{" s).
    change (code "{" =? 91) with false. change (code "{" =? 123) with true.
    cbv iota.
    rewrite skip_ws_nl, skip_ws_indent.
    change (skip_ws (quote +:+ ?s)) with (String "034" s).
    change (code "034" =? 125) with false. cbv iota.
    rewrite <- parse_key_skip_ws, skip_ws_nl, skip_ws_indent, parse_key_skip_ws.
    rewrite (parse_key_dump k e) by done. simpl.
    rewrite <- parse_value_skip_ws, skip_ws_space.
    rewrite (skip_ws_dump step (cur + step) x d) by done.
    simpl in Hn.
    rewrite (IHx Hx step (cur + step)%nat d n) by (done || lia). simpl.
    apply (parse_members_dump step (cur + step)%nat cur rest m);
      [|done..|lia].
    apply Forall_forall. intros y Hy.
    by apply (proj1 (Forall_forall _ _) IHm y Hy), (proj1 (Forall_forall _ _) Hm).
Qed.

(** The text of a value is at least as long as the value is large, so the
    bound [parse] starts from is enough for it. *)
Lemma size_le_dump j :
  ∀ step cur text,
    dump_aux step cur j = Some text → (size j ≤ String.length text)%nat.
Proof.
  induction j as [|b|z|fl|s|l IH|m IH] using json_ind; intros step cur text Hd.
  - by injection Hd as <-; simpl; lia.
  - injection Hd as <-. destruct b; simpl; lia.
  - injection Hd as <-. simpl.
    unfold Std.to_string. destruct z as [|p|p]; simpl; [lia| |lia].
    destruct (Pos.to_uint p) eqn:Hp; simpl; lia.
  - done.
  - simpl in Hd. destruct (dump_escaped s) as [e|]; [|done].
    injection Hd as <-. rewrite !length_append. simpl. lia.
  - destruct l as [|x l]; [injection Hd as <-; simpl; lia|].
    cbn [dump_aux] in Hd. apply bind_Some in Hd as (body & Hbody & [= <-]).
    rewrite !length_append. cbn [size].
    enough (list_sum (map (λ x, S (size x)) (x :: l)) ≤ String.length body)%nat
      by (simpl String.length; lia).
    revert body Hbody. generalize (cur + step)%nat as new.
    induction IH as [|y l' Hy _ IHl]; intros new body Hbody.
    + simpl. lia.
    + cbn [dump_elements] in Hbody.
      fold (dump_elements (dump_aux step new) new) in Hbody.
      destruct (dump_aux step new y) as [d|] eqn:Hdy; [|done].
      destruct (dump_elements _ _ l') as [r|] eqn:Hr; [|done].
      injection Hbody as <-. rewrite !length_append.
      specialize (Hy _ _ _ Hdy). specialize (IHl new r Hr).
      simpl map. simpl list_sum.
      assert (1 ≤ String.length
                    match l' with [] => nl | _ :: _ => "," +:+ nl end)%nat
        by (by destruct l'; simpl; lia).
      lia.
  - destruct m as [|[k x] m]; [injection Hd as <-; simpl; lia|].
    cbn [dump_aux] in Hd. apply bind_Some in Hd as (body & Hbody & [= <-]).
    rewrite !length_append. cbn [size].
    enough (list_sum (map (λ kv, S (size kv.2)) ((k, x) :: m))
            ≤ String.length body)%nat
      by (simpl String.length; lia).
    revert body Hbody. generalize (cur + step)%nat as new.
    induction IH as [|[k' y] m' Hy _ IHm]; intros new body Hbody.
    + simpl. lia.
    + cbn [dump_members] in Hbody.
      fold (dump_members (dump_aux step new) new) in Hbody.
      destruct (dump_escaped k') as [e|]; [|done].
      destruct (dump_aux step new y) as [d|] eqn:Hdy; [|done].
      destruct (dump_members _ _ m') as [r|] eqn:Hr; [|done].
      injection Hbody as <-. rewrite !length_append.
      specialize (Hy _ _ _ Hdy). specialize (IHm new r Hr).
      simpl map. simpl list_sum. simpl in Hy.
      assert (1 ≤ String.length
                    match m' with [] => nl | _ :: _ => "," +:+ nl end)%nat
        by (by destruct m'; simpl; lia).
      lia.
Qed.

Lemma append_empty (s : string) : s +:+ "" = s.
Proof. induction s as [|c s IH]; [done|]. by rewrite append_String, IH. Qed.

(** [parse] and [stream >> j] give back the value [dump] wrote. *)
Lemma parse_dump indent j text :
  canonical j → dump indent j = Some text →
  parse text = Some j ∧ parse_stream text = Some j.
Proof.
  intros Hj Hd. unfold dump in Hd.
  assert (parse_prefix text = Some (j, "")) as Hprefix.
  { unfold parse_prefix.
    destruct (dump_starts _ _ _ _ Hj Hd) as (c & t & Hct & _ & _ & _ & Hbom).
    assert (skip_bom text = Some text) as ->.
    { rewrite Hct. simpl. by rewrite Hbom. }
    pose proof (size_le_dump j _ _ _ Hd) as Hsize.
    pose proof (parse_value_dump_aux j Hj indent 0%nat text
                  (S (String.length text)) "" Hd ltac:(lia)) as Hread.
    rewrite append_empty in Hread. exact Hread. }
  unfold parse, parse_stream. by rewrite Hprefix.
Qed.

(** *** The order of names *)

Lemma compare_refl s : String.compare s s = Eq.
Proof.
  induction s as [|c s IH]; [done|]. simpl.
  unfold Ascii.compare. by rewrite N.compare_refl.
Qed.

Lemma compare_Lt_le a b : String.compare a b = Lt → String.le a b.
Proof. unfold String.le, String.leb. by intros ->. Qed.

Lemma compare_Lt_trans a b c :
  String.compare a b = Lt → String.compare b c = Lt → String.compare a c = Lt.
Proof.
  intros Hab Hbc.
  assert (String.le a c) as Hac.
  { etrans; by apply compare_Lt_le. }
  unfold String.le, String.leb in Hac.
  destruct (String.compare a c) eqn:Hcmp; [|done|done].
  apply String.compare_eq_iff in Hcmp as ->.
  rewrite String.compare_antisym, Hbc in Hab. done.
Qed.

Lemma obj_find_insert k k' v m :
  obj_find k (obj_insert k' v m)
  = if decide (k' = k) then Some v else obj_find k m.
Proof.
  induction m as [|[k1 v1] m IH]; simpl; [done|].
  destruct (String.compare k' k1) eqn:Hcmp; simpl.
  - apply String.compare_eq_iff in Hcmp as <-.
    destruct (decide (k' = k)); done.
  - done.
  - rewrite IH. destruct (decide (k1 = k)) as [->|]; [|done].
    destruct (decide (k' = k)) as [->|]; [|done].
    by rewrite compare_refl in Hcmp.
Qed.

Lemma obj_insert_elem kv k v m :
  kv ∈ obj_insert k v m → kv = (k, v) ∨ kv ∈ m.
Proof.
  induction m as [|[k1 v1] m IH]; simpl.
  - intros ->%list_elem_of_singleton. by left.
  - destruct (String.compare k k1).
    + intros [->|?]%elem_of_cons; [by left|right; by right].
    + intros [->|?]%elem_of_cons; [by left|by right].
    + intros [->|[->|?]%IH]%elem_of_cons.
      * right; by left.
      * by left.
      * right; by right.
Qed.

Lemma obj_insert_sorted k v m :
  StronglySorted name_lt m → StronglySorted name_lt (obj_insert k v m).
Proof.
  induction 1 as [|[k1 v1] m Hsorted IH Hall]; simpl.
  - repeat constructor.
  - destruct (String.compare k k1) eqn:Hcmp.
    + apply String.compare_eq_iff in Hcmp as ->. by constructor.
    + constructor; [by constructor|]. constructor; [done|].
      eapply Forall_impl; [exact Hall|]. intros kv Hkv.
      by eapply compare_Lt_trans.
    + constructor; [done|]. apply Forall_forall. intros kv Hkv.
      apply obj_insert_elem in Hkv as [->|Hkv].
      * unfold name_lt. simpl. by rewrite String.compare_antisym, Hcmp.
      * by apply (proj1 (Forall_forall _ _) Hall).
Qed.

Lemma sorted_NoDup m : StronglySorted name_lt m → NoDup m.*1.
Proof.
  induction 1 as [|[k v] m _ IH Hall]; simpl; constructor; [|done].
  intros [[k' v'] [Hk Hin]]%list_elem_of_fmap. simpl in Hk. subst k'.
  pose proof (proj1 (Forall_forall _ _) Hall _ Hin) as Hlt.
  unfold name_lt in Hlt. simpl in Hlt. by rewrite compare_refl in Hlt.
Qed.

(** *** The notes file *)

Lemma note_object_members n :
  note_object n
  = JObject [("date", JString (date n)); ("note", JString (note n))].
Proof. done. Qed.

Lemma notes_to_json_members saved :
  notes_to_json saved
  = Some (if decide (map_to_list saved = []) then JNull
          else JObject (notes_members (map_to_list saved))).
Proof.
  unfold notes_to_json. induction (map_to_list saved) as [|[k n] l IH].
  - done.
  - cbn [foldr]. rewrite IH. simpl. by destruct l.
Qed.

Lemma notes_members_sorted l : StronglySorted name_lt (notes_members l).
Proof.
  induction l as [|[k n] l IH]; simpl; [constructor|].
  by apply obj_insert_sorted.
Qed.

Lemma notes_members_elem kv l :
  kv ∈ notes_members l → ∃ n, (kv.1, n) ∈ l ∧ kv.2 = note_object n.
Proof.
  induction l as [|[k n] l IH]; simpl; [by intros ?%elem_of_nil|].
  intros [->|Hin]%obj_insert_elem.
  - exists n. split; [by left|done].
  - destruct (IH Hin) as (n' & ? & ?). exists n'. split; [by right|done].
Qed.

Lemma obj_find_notes_members l k :
  NoDup l.*1 →
  obj_find k (notes_members l)
  = note_object <$> (list_to_map l : gmap string BookNote) !! k.
Proof.
  induction l as [|[k' n] l IH]; simpl; [done|].
  intros [Hk' Hl]%NoDup_cons. rewrite obj_find_insert.
  destruct (decide (k' = k)) as [->|Hne].
  - by rewrite lookup_insert_eq.
  - rewrite lookup_insert_ne by done. by apply IH.
Qed.

Lemma canonical_note_object n : canonical (note_object n).
Proof.
  rewrite note_object_members. constructor.
  - repeat constructor.
  - repeat constructor.
Qed.

Lemma canonical_notes_members l : canonical (JObject (notes_members l)).
Proof.
  constructor; [|apply notes_members_sorted].
  apply Forall_forall. intros kv (n & _ & ->)%notes_members_elem.
  apply canonical_note_object.
Qed.

(** Well-formed UTF-8 is what [dump] needs to succeed. *)
Lemma dump_note_object step cur n :
  utf8 (note n) = true → utf8 (date n) = true →
  is_Some (dump_aux step cur (note_object n)).
Proof.
  intros Hn Hd. rewrite note_object_members.
  destruct (utf8_dump_escaped (S (String.length (note n))) (note n))
    as [en Hen]; [lia|done|].
  destruct (utf8_dump_escaped (S (String.length (date n))) (date n))
    as [ed Hed]; [lia|done|].
  cbn. rewrite Hen, Hed. by eexists.
Qed.

Lemma dump_notes_members step cur l :
  Forall (λ kn, utf8_note kn.1 kn.2) l →
  is_Some (dump_aux step cur (JObject (notes_members l))).
Proof.
  intros Hutf8.
  assert (Forall (λ kv, utf8 kv.1 = true
                        ∧ ∀ new, is_Some (dump_aux step new kv.2))
            (notes_members l)) as Hall.
  { apply Forall_forall. intros kv (n & Hin & Hkv)%notes_members_elem.
    destruct (proj1 (Forall_forall _ _) Hutf8 _ Hin) as (Hk & Hn & Hd).
    split; [done|]. intros new. rewrite Hkv. by apply dump_note_object. }
  destruct (notes_members l) as [|kv m]; [by eexists|].
  cbn [dump_aux].
  enough (is_Some (dump_members (dump_aux step (cur + step)) (cur + step)
                     (kv :: m))) as [body ->] by (by eexists).
  generalize (cur + step)%nat as new. intros new.
  induction Hall as [|[k x] m' [Hk Hx] _ IH]; [by eexists|].
  cbn [dump_members]. fold (dump_members (dump_aux step new) new).
  destruct (utf8_dump_escaped (S (String.length k)) k) as [e ->]; [lia|done|].
  destruct (Hx new) as [d Hd]. simpl in Hd. rewrite Hd.
  destruct IH as [r ->]. by eexists.
Qed.

Lemma value_note_object n :
  value (note_object n) "note" "" = Some (note n)
  ∧ value (note_object n) "date" "" = Some (date n).
Proof. done. Qed.

Lemma read_notes_absent m saved k :
  k ∉ m.*1 → read_notes m saved !! k = saved !! k.
Proof.
  revert saved. induction m as [|[k' v] m IH]; intros saved Hk; [done|].
  simpl in Hk. apply not_elem_of_cons in Hk as [Hne Hk]. simpl.
  destruct (value v "note" ""); [|done].
  destruct (value v "date" ""); [|done].
  rewrite IH by done. by rewrite lookup_insert_ne.
Qed.

Lemma read_notes_present m saved k n :
  Forall (λ kv, ∃ n', kv.2 = note_object n') m → NoDup m.*1 →
  obj_find k m = Some (note_object n) →
  read_notes m saved !! k = Some n.
Proof.
  intros Hnotes. revert saved.
  induction Hnotes as [|[k' v] m [n' Hv] _ IH]; intros saved Hnd Hfind; [done|].
  simpl in *. subst v. apply NoDup_cons in Hnd as [Hk' Hnd].
  destruct (value_note_object n') as [-> ->].
  destruct (decide (k' = k)) as [->|Hne].
  - rewrite read_notes_absent by done. rewrite lookup_insert_eq.
    injection Hfind as Hd Hn. destruct n, n'. simpl in *. congruence.
  - by apply IH.
Qed.

Lemma read_notes_members saved :
  read_notes (notes_members (map_to_list saved)) ∅ = saved.
Proof.
  apply map_eq. intros k.
  pose proof (NoDup_fst_map_to_list saved) as Hnd.
  pose proof (obj_find_notes_members (map_to_list saved) k Hnd) as Hfind.
  rewrite list_to_map_to_list in Hfind.
  destruct (saved !! k) as [n|] eqn:Hk; simpl in Hfind.
  - apply read_notes_present; [|by apply sorted_NoDup, notes_members_sorted|done].
    apply Forall_forall. intros kv (n' & _ & ->)%notes_members_elem. by eexists.
  - rewrite read_notes_absent; [done|].
    intros [[k' v] [Hk' Hin]]%list_elem_of_fmap. simpl in Hk'. subst k'.
    assert (is_Some (obj_find k (notes_members (map_to_list saved)))) as [? ?];
      [|congruence].
    clear -Hin. induction (notes_members (map_to_list saved)) as [|[k1 v1] m IH].
    + by apply elem_of_nil in Hin.
    + simpl. destruct (decide (k1 = k)); [by eexists|].
      apply elem_of_cons in Hin as [[= -> ->]|Hin]; [done|by apply IH].
Qed.

Lemma obj_insert_Permutation k v m :
  k ∉ m.*1 → obj_insert k v m ≡ₚ (k, v) :: m.
Proof.
  induction m as [|[k1 v1] m IH]; simpl; [done|].
  intros [Hne Hk]%not_elem_of_cons.
  destruct (String.compare k k1) eqn:Hcmp.
  - by apply String.compare_eq_iff in Hcmp.
  - done.
  - rewrite (IH Hk). apply Permutation_swap.
Qed.

Lemma notes_members_Permutation l :
  NoDup l.*1 →
  notes_members l ≡ₚ (λ kn, (kn.1, note_object kn.2)) <$> l.
Proof.
  induction l as [|[k n] l IH]; simpl; [done|].
  intros [Hk Hl]%NoDup_cons. rewrite obj_insert_Permutation.
  - by rewrite (IH Hl).
  - intros [kv [-> Hin]]%list_elem_of_fmap.
    apply notes_members_elem in Hin as (n' & Hin & _).
    apply Hk. apply list_elem_of_fmap. by exists (kv.1, n').
Qed.

(** The object built from the notes does not depend on the order in which
    the unordered map is visited. *)
Lemma notes_members_order l l' :
  NoDup l.*1 → l ≡ₚ l' → notes_members l = notes_members l'.
Proof.
  intros Hnd Hperm.
  apply (StronglySorted_unique_strong name_lt);
    [|apply notes_members_sorted..|].
  - intros x1 x2 _ _ H12 H21. unfold name_lt in *.
    by rewrite String.compare_antisym, H21 in H12.
  - rewrite (notes_members_Permutation l Hnd).
    rewrite (notes_members_Permutation l') by (by rewrite <- Hperm).
    by rewrite Hperm.
Qed.

Lemma save_then_load_notes saved :
  map_Forall utf8_note saved →
  ∃ text, save_notes saved = Some text ∧ load_notes (Some text) ∅ = saved.
Proof.
  intros Hutf8. unfold save_notes. rewrite notes_to_json_members.
  destruct (decide (map_to_list saved = [])) as [Hlist|Hlist].
  - apply map_to_list_empty_iff in Hlist as ->. by exists "null".
  - simpl.
    assert (Forall (λ kn, utf8_note kn.1 kn.2) (map_to_list saved)) as Hall.
    { apply Forall_forall. intros [k n] Hin%elem_of_map_to_list.
      by apply (Hutf8 k n). }
    destruct (dump_notes_members 4 0 _ Hall) as [text Htext].
    exists text. split; [done|].
    destruct (parse_dump 4 _ text (canonical_notes_members _) Htext)
      as [_ Hstream].
    unfold load_notes. rewrite Hstream. simpl. apply read_notes_members.
Qed.

(** *** The bound of the reader *)

Lemma skip_ws_length s : (String.length (skip_ws s) ≤ String.length s)%nat.
Proof.
  induction s as [|c s IH]; simpl; [done|].
  destruct (is_ws c); simpl; lia.
Qed.

Lemma scan_string_shorter n s t r :
  (String.length s < n)%nat →
  scan_string s = Some (t, r) → (String.length r < String.length s)%nat.
Proof.
  revert s t r. induction n as [|n IH]; intros s t r Hn; [lia|].
  assert (∀ s' (f : string * string → option (string * string)),
            (String.length s' < String.length s)%nat →
            (∀ t' r', f (t', r') = Some (t, r) → r' = r) →
            scan_string s' ≫= f = Some (t, r) →
            (String.length r < String.length s)%nat) as Hrec.
  { intros s' f Hlt Hf Hs'.
    destruct (scan_string s') as [[t' r']|] eqn:E; [|done]. simpl in Hs'.
    apply Hf in Hs' as ->. apply IH in E; lia. }
  destruct s as [|c s]; [done|]. cbn [scan_string String.length] in *.
  destruct (code c =? 34); [intros [= _ <-]; lia|].
  destruct (code c =? 92).
  - destruct s as [|e r1]; [done|]. cbn [String.length] in *.
    destruct (simple_escape e).
    { apply Hrec; [lia|]. by intros ?? [= _ <-]. }
    destruct (code e =? 117); [|done].
    destruct r1 as [|h1 [|h2 [|h3 [|h4 r5]]]]; try done.
    cbn [String.length] in *.
    destruct (hex4 h1 h2 h3 h4) as [cp|]; [|done]. cbn [mbind option_bind].
    destruct ((55296 <=? cp) && (cp <=? 56319)).
    + destruct r5 as [|b [|u [|l1 [|l2 [|l3 [|l4 r11]]]]]]; try done.
      cbn [String.length] in *.
      destruct ((code b =? 92) && (code u =? 117)); [|done].
      destruct (hex4 l1 l2 l3 l4) as [cp2|]; [|done]. cbn [mbind option_bind].
      destruct ((56320 <=? cp2) && (cp2 <=? 57343)); [|done].
      apply Hrec; [lia|]. by intros ?? [= _ <-].
    + destruct ((56320 <=? cp) && (cp <=? 57343)); [done|].
      apply Hrec; [lia|]. by intros ?? [= _ <-].
  - destruct (classify c s).
    + destruct (code c <? 32); [done|].
      apply Hrec; [lia|]. by intros ?? [= _ <-].
    + destruct s as [|c1 r1]; [done|]. cbn [String.length] in *.
      apply Hrec; [lia|]. by intros ?? [= _ <-].
    + destruct s as [|c1 [|c2 r2]]; try done. cbn [String.length] in *.
      apply Hrec; [lia|]. by intros ?? [= _ <-].
    + destruct s as [|c1 [|c2 [|c3 r3]]]; try done. cbn [String.length] in *.
      apply Hrec; [lia|]. by intros ?? [= _ <-].
    + done.
Qed.

Lemma scan_digits_length s acc :
  (String.length (scan_digits s acc).2 ≤ String.length s)%nat.
Proof.
  revert acc. induction s as [|c s IH]; intros acc; simpl; [done|].
  destruct (is_digit c); simpl; [|lia]. specialize (IH (10 * acc + digit c)). lia.
Qed.

Lemma scan_fraction_digits_length s acc count :
  (String.length (scan_fraction_digits s acc count).2 ≤ String.length s)%nat.
Proof.
  revert acc count. induction s as [|c s IH]; intros acc count; simpl; [done|].
  destruct (is_digit c); simpl; [|lia].
  specialize (IH (10 * acc + digit c) (count + 1)). lia.
Qed.

Lemma scan_fraction_length v s m count fraction r :
  scan_fraction v s = Some (m, count, fraction, r) →
  (String.length r ≤ String.length s)%nat.
Proof.
  destruct s as [|c s]; [by intros [= _ _ _ <-]|]. cbn [scan_fraction].
  destruct (code c =? 46); [|by intros [= _ _ _ <-]].
  destruct s as [|d s]; [done|]. destruct (is_digit d); [|done].
  pose proof (scan_fraction_digits_length (String d s) v 0) as Hlen.
  destruct (scan_fraction_digits (String d s) v 0) as [[m' count'] r'].
  intros [= _ _ _ <-]. cbn [String.length] in *. simpl in Hlen. lia.
Qed.

Lemma scan_exponent_digits_length minus s e exponent r :
  scan_exponent_digits minus s = Some (e, exponent, r) →
  (String.length r ≤ String.length s)%nat.
Proof.
  destruct s as [|d s]; [done|]. cbn [scan_exponent_digits].
  destruct (is_digit d); [|done].
  pose proof (scan_digits_length (String d s) 0) as Hlen.
  destruct (scan_digits (String d s) 0) as [e' r']. simpl in Hlen.
  intros [= _ _ <-]. done.
Qed.

Lemma scan_exponent_length s e exponent r :
  scan_exponent s = Some (e, exponent, r) →
  (String.length r ≤ String.length s)%nat.
Proof.
  destruct s as [|c s]; [by intros [= _ _ <-]|]. cbn [scan_exponent].
  destruct ((code c =? 101) || (code c =? 69)); [|by intros [= _ _ <-]].
  destruct s as [|g s']; [done|].
  destruct (code g =? 43); [|destruct (code g =? 45)];
    intros Hlen%scan_exponent_digits_length; cbn [String.length] in *; lia.
Qed.

Lemma finish_number_length neg v r j r' :
  finish_number neg v r = Some (j, r') →
  (String.length r' ≤ String.length r)%nat.
Proof.
  unfold finish_number.
  destruct (scan_fraction v r) as [[[[m count] fraction] r1]|] eqn:Hf; [|done].
  apply scan_fraction_length in Hf. cbn [mbind option_bind].
  destruct (scan_exponent r1) as [[[e exponent] r2]|] eqn:He; [|done].
  apply scan_exponent_length in He. cbn [mbind option_bind].
  destruct (_ && _).
  - intros [= _ <-]. lia.
  - destruct (Std.isfinite _); [|done]. intros [= _ <-]. lia.
Qed.

Lemma scan_unsigned_shorter neg s j r :
  scan_unsigned neg s = Some (j, r) → (String.length r < String.length s)%nat.
Proof.
  destruct s as [|c s]; [done|]. cbn [scan_unsigned String.length].
  destruct (code c =? 48).
  - intros ?%finish_number_length. lia.
  - destruct (is_digit c); [|done].
    pose proof (scan_digits_length s (digit c)) as Hlen.
    destruct (scan_digits s (digit c)) as [v r0]. simpl in Hlen.
    intros ?%finish_number_length. lia.
Qed.

Lemma scan_number_shorter s j r :
  scan_number s = Some (j, r) → (String.length r < String.length s)%nat.
Proof.
  destruct s as [|c s]; [done|]. cbn [scan_number].
  destruct (code c =? 45); intros Hs%scan_unsigned_shorter;
    cbn [String.length] in *; lia.
Qed.

Lemma strip_prefix_length lit s r :
  strip_prefix lit s = Some r →
  (String.length r + String.length lit = String.length s)%nat.
Proof.
  revert s. induction lit as [|c lit IH]; intros s; simpl.
  - intros [= ->]. lia.
  - destruct s as [|c' s]; [done|]. destruct (decide (c = c')); [|done].
    intros ?%IH. simpl. lia.
Qed.

Lemma scan_literal_shorter lit v s j r :
  lit ≠ "" → scan_literal lit v s = Some (j, r) →
  (String.length r < String.length s)%nat.
Proof.
  intros Hlit. unfold scan_literal.
  destruct (strip_prefix lit s) as [r0|] eqn:Hs; [|done]. intros [= _ <-].
  apply strip_prefix_length in Hs. destruct lit; [done|]. simpl in Hs. lia.
Qed.

Lemma parse_key_shorter s k r :
  parse_key s = Some (k, r) → (String.length r < String.length s)%nat.
Proof.
  unfold parse_key. pose proof (skip_ws_length s) as Hs.
  destruct (skip_ws s) as [|c s1]; [done|]. cbn [String.length] in Hs.
  destruct (code c =? 34); [|done].
  destruct (scan_string s1) as [[k' r1]|] eqn:Hscan; [|done]. simpl.
  apply (scan_string_shorter (S (String.length s1))) in Hscan; [|lia].
  pose proof (skip_ws_length r1) as Hr1.
  destruct (skip_ws r1) as [|c' r2]; [done|]. cbn [String.length] in Hr1.
  destruct (code c' =? 58); [|done]. intros [= _ <-]. lia.
Qed.

(** Every successful step of the reader consumes input. *)
Lemma parse_shorter n :
  (∀ s j r, parse_value n s = Some (j, r) →
            (String.length r < String.length s)%nat)
  ∧ (∀ s acc j r, parse_elements n s acc = Some (j, r) →
                  (String.length r < String.length s)%nat)
  ∧ (∀ s acc j r, parse_members n s acc = Some (j, r) →
                  (String.length r < String.length s)%nat).
Proof.
  induction n as [|n (IHv & IHe & IHm)]; [done|].
  split; [|split].
  - intros s j r. rewrite parse_value_S.
    pose proof (skip_ws_length s) as Hs.
    destruct (skip_ws s) as [|c s1]; [done|]. cbn [String.length] in Hs.
    destruct (code c =? 91).
    { pose proof (skip_ws_length s1) as Hs1.
      destruct (skip_ws s1) as [|c' s2]; [done|]. cbn [String.length] in Hs1.
      destruct (code c' =? 93); [intros [= _ <-]; lia|].
      destruct (parse_value n s1) as [[v r1]|] eqn:Hv; [|done]. simpl.
      apply IHv in Hv. intros He%IHe. lia. }
    destruct (code c =? 123).
    { pose proof (skip_ws_length s1) as Hs1.
      destruct (skip_ws s1) as [|c' s2]; [done|]. cbn [String.length] in Hs1.
      destruct (code c' =? 125); [intros [= _ <-]; lia|].
      destruct (parse_key s1) as [[k r1]|] eqn:Hk; [|done]. simpl.
      apply parse_key_shorter in Hk.
      destruct (parse_value n r1) as [[v r2]|] eqn:Hv; [|done]. simpl.
      apply IHv in Hv. intros He%IHm. lia. }
    destruct (code c =? 34).
    { destruct (scan_string s1) as [[t r1]|] eqn:Hscan; [|done]. simpl.
      apply (scan_string_shorter (S (String.length s1))) in Hscan; [|lia].
      intros [= _ <-]. lia. }
    destruct (code c =? 116);
      [intros ?%scan_literal_shorter; [cbn [String.length] in *; lia|done]|].
    destruct (code c =? 102);
      [intros ?%scan_literal_shorter; [cbn [String.length] in *; lia|done]|].
    destruct (code c =? 110);
      [intros ?%scan_literal_shorter; [cbn [String.length] in *; lia|done]|].
    destruct ((code c =? 45) || is_digit c); [|done].
    intros ?%scan_number_shorter. cbn [String.length] in *. lia.
  - intros s acc j r. rewrite parse_elements_S.
    pose proof (skip_ws_length s) as Hs.
    destruct (skip_ws s) as [|c s1]; [done|]. cbn [String.length] in Hs.
    destruct (code c =? 44).
    { destruct (parse_value n s1) as [[v r1]|] eqn:Hv; [|done]. simpl.
      apply IHv in Hv. intros He%IHe. lia. }
    destruct (code c =? 93); [|done]. intros [= _ <-]. lia.
  - intros s acc j r. rewrite parse_members_S.
    pose proof (skip_ws_length s) as Hs.
    destruct (skip_ws s) as [|c s1]; [done|]. cbn [String.length] in Hs.
    destruct (code c =? 44).
    { destruct (parse_key s1) as [[k r1]|] eqn:Hk; [|done]. simpl.
      apply parse_key_shorter in Hk.
      destruct (parse_value n r1) as [[v r2]|] eqn:Hv; [|done]. simpl.
      apply IHv in Hv. intros He%IHm. lia. }
    destruct (code c =? 125); [|done]. intros [= _ <-]. lia.
Qed.

(** The bound of the reader is never reached when it exceeds the length of
    the input: a larger bound gives the same result. *)
Lemma parse_bound n :
  ∀ m,
    (∀ s, (String.length s < n)%nat → (String.length s < m)%nat →
          parse_value n s = parse_value m s)
    ∧ (∀ s acc, (String.length s < n)%nat → (String.length s < m)%nat →
                parse_elements n s acc = parse_elements m s acc)
    ∧ (∀ s acc, (String.length s < n)%nat → (String.length s < m)%nat →
                parse_members n s acc = parse_members m s acc).
Proof.
  induction n as [|n IH]; intros m; [repeat split; intros; lia|].
  destruct m as [|m]; [repeat split; intros; lia|].
  destruct (IH m) as (IHv & IHe & IHm).
  destruct (parse_shorter n) as (Sv & _ & _).
  split; [|split].
  - intros s Hn Hm. rewrite !parse_value_S.
    pose proof (skip_ws_length s) as Hs.
    destruct (skip_ws s) as [|c s1]; [done|]. cbn [String.length] in Hs.
    destruct (code c =? 91).
    { destruct (skip_ws s1) as [|c' s2]; [done|].
      destruct (code c' =? 93); [done|].
      rewrite <- IHv by lia.
      destruct (parse_value n s1) as [[v r1]|] eqn:Hv; [|done]. simpl.
      apply Sv in Hv. apply IHe; lia. }
    destruct (code c =? 123); [|done].
    destruct (skip_ws s1) as [|c' s2]; [done|].
    destruct (code c' =? 125); [done|].
    destruct (parse_key s1) as [[k r1]|] eqn:Hk; [|done]. simpl.
    apply parse_key_shorter in Hk.
    rewrite <- IHv by lia.
    destruct (parse_value n r1) as [[v r2]|] eqn:Hv; [|done]. simpl.
    apply Sv in Hv. apply IHm; lia.
  - intros s acc Hn Hm. rewrite !parse_elements_S.
    pose proof (skip_ws_length s) as Hs.
    destruct (skip_ws s) as [|c s1]; [done|]. cbn [String.length] in Hs.
    destruct (code c =? 44); [|done].
    rewrite <- IHv by lia.
    destruct (parse_value n s1) as [[v r1]|] eqn:Hv; [|done]. simpl.
    apply Sv in Hv. apply IHe; lia.
  - intros s acc Hn Hm. rewrite !parse_members_S.
    pose proof (skip_ws_length s) as Hs.
    destruct (skip_ws s) as [|c s1]; [done|]. cbn [String.length] in Hs.
    destruct (code c =? 44); [|done].
    destruct (parse_key s1) as [[k r1]|] eqn:Hk; [|done]. simpl.
    apply parse_key_shorter in Hk.
    rewrite <- IHv by lia.
    destruct (parse_value n r1) as [[v r2]|] eqn:Hv; [|done]. simpl.
    apply Sv in Hv. apply IHm; lia.
Qed.

End RoundTrip.

(** ** The notes file *)

(** C7, as the code has it. When the key, the text and the date of every
    note are well-formed UTF-8, [dump] succeeds on the object built from the
    notes, and reading the file it wrote gives the same mapping from keys to
    notes. *)
Theorem notes_round_trip c :
  map_Forall utf8_note (saved_notes c) →
  (∃ text, save_notes (saved_notes c) = Some text
           ∧ load_notes (Some text) ∅ = saved_notes c)
  ∧ saved_notes (main_startup (main_exit c)) = saved_notes c.
Proof.
  intros Hutf8.
  destruct (save_then_load_notes _ Hutf8) as (text & Hsave & Hload).
  split; [by exists text|].
  change (saved_notes (main_startup (main_exit c)))
    with (load_notes (Some (default "" (save_notes (saved_notes c)))) ∅).
  by rewrite Hsave.
Qed.

Lemma notes_round_trip_witness :
  let c := set_saved_notes
             {[ "/works/OL1W" := mkBookNote "great book" "2024-01-01" ]}
             CommonObjects_default in
  saved_notes (main_startup (main_exit c)) = saved_notes c.
Proof.
  intros c. apply (notes_round_trip c).
  apply map_Forall_singleton. repeat split.
Defined.

(** C7 as stated fails. A note whose text is the single byte 255 is not
    well-formed UTF-8: [dump] throws, after [notes.json] was truncated, and
    the next start finds no note. *)
Lemma notes_round_trip_fails :
  let saved : gmap string BookNote :=
    {[ "/works/OL1W" := mkBookNote (String "255" "") "2024-01-01" ]} in
  let c := set_saved_notes saved CommonObjects_default in
  save_notes saved = None
  ∧ notes_json (main_exit c) = Some ""
  ∧ saved_notes (main_startup (main_exit c)) = ∅
  ∧ saved_notes (main_startup (main_exit c)) ≠ saved_notes c.
Proof.
  intros saved c.
  assert (save_notes saved = None) as Hsave by (by vm_compute).
  assert (saved_notes (main_startup (main_exit c)) = ∅) as Hload.
  { change (saved_notes (main_startup (main_exit c)))
      with (load_notes (Some (default "" (save_notes saved))) ∅).
    by rewrite Hsave. }
  split; [done|]. split; [|split; [done|]].
  - change (notes_json (main_exit c))
      with (Some (default "" (save_notes saved))). by rewrite Hsave.
  - rewrite Hload. intros Hempty.
    assert ((∅ : gmap string BookNote) !! "/works/OL1W" = None) as Hnone
      by apply lookup_empty.
    rewrite Hempty in Hnone. simpl in Hnone. unfold saved in Hnone.
    by rewrite lookup_singleton_eq in Hnone.
Qed.

(** * Further properties of the code *)

(** ** [url_encode] *)

Lemma url_encode_cons c rest :
  url_encode (String c rest)
  = (if unreserved c then String c "" else "%00" +:+ String c "")
    +:+ url_encode rest.
Proof. done. Qed.

(** X1. Encoding works character by character: the encoding of two texts
    put together is the two encodings put together. *)
Theorem url_encode_append a b :
  url_encode (a +:+ b) = url_encode a +:+ url_encode b.
Proof.
  induction a as [|c a IH]; [done|].
  rewrite append_String, !url_encode_cons, IH.
  by destruct (unreserved c).
Qed.

Lemma unreserved_percent : unreserved "%" = false.
Proof. done. Qed.

Lemma url_encode_eq a b : url_encode a = url_encode b → a = b.
Proof.
  revert b. induction a as [|c a IH]; intros [|d b].
  - done.
  - rewrite url_encode_cons. by destruct (unreserved d).
  - rewrite url_encode_cons. by destruct (unreserved c).
  - rewrite !url_encode_cons.
    destruct (unreserved c) eqn:Hc, (unreserved d) eqn:Hd; simpl.
    + intros [= -> Hrest]. by rewrite (IH b Hrest).
    + intros [= -> _]. by rewrite unreserved_percent in Hc.
    + intros [= <- _]. by rewrite unreserved_percent in Hd.
    + intros [= -> Hrest]. by rewrite (IH b Hrest).
Qed.

(** X2. Two different search texts never get the same encoding. *)
Theorem url_encode_injective a b : a ≠ b → url_encode a ≠ url_encode b.
Proof. intros Hne Heq. by apply Hne, url_encode_eq. Qed.

Lemma url_encode_injective_witness : url_encode "a b" ≠ url_encode "a%00b".
Proof. apply (url_encode_injective "a b" "a%00b"). discriminate. Defined.

(** X3. Every character that is not unreserved makes the text three
    characters longer, and the encoding is the text itself exactly when all
    its characters are unreserved. *)
Theorem url_encode_length value :
  String.length (url_encode value)
  = (String.length value + 3 * count_reserved value)%nat
  ∧ (url_encode value = value ↔ all_chars unreserved value = true).
Proof.
  assert (String.length (url_encode value)
          = (String.length value + 3 * count_reserved value)%nat) as Hlen.
  { induction value as [|c r IH]; [done|].
    rewrite url_encode_cons, length_append. cbn [count_reserved String.length].
    rewrite IH. destruct (unreserved c); simpl; lia. }
  split; [done|]. split.
  - intros Heq. rewrite Heq in Hlen.
    assert (count_reserved value = 0%nat) as Hzero by lia.
    clear -Hzero. induction value as [|c r IH]; [done|]. simpl in *.
    destruct (unreserved c); simpl in *; [by apply IH|lia].
  - apply url_encode_unreserved.
Qed.

(** ** The books a fetch builds *)

(** The store enters the conversion of an element through the favorites
    list and the saved notes only. *)
Lemma convert_doc_ext c c' doc :
  favorite_books c' = favorite_books c → saved_notes c' = saved_notes c →
  convert_doc c' doc = convert_doc c doc.
Proof. intros Hf Hn. unfold convert_doc. by rewrite Hf, Hn. Qed.

Lemma push_docs_ext c c' docs pushed :
  favorite_books c' = favorite_books c → saved_notes c' = saved_notes c →
  push_docs c' docs pushed = push_docs c docs pushed.
Proof.
  intros Hf Hn. revert pushed. induction docs as [|d docs IH]; intros pushed.
  - done.
  - simpl. rewrite (convert_doc_ext c c' d Hf Hn).
    destruct (convert_doc c d); by rewrite ?IH.
Qed.

(** The fields of an accepted book, one by one. *)
Lemma convert_doc_fields c doc b :
  convert_doc c doc = Accepted b →
  Json.get_string (Json.subscript doc "key") = Some (key b)
  ∧ Json.get_string (Json.subscript doc "title") = Some (title b)
  ∧ (if Json.contains doc "author_name"
     then Json.get_string_vector (Json.subscript doc "author_name")
     else Some []) = Some (author_names b)
  ∧ optional_int doc "first_publish_year" = Some (first_publish_year b)
  ∧ optional_int doc "edition_count" = Some (edition_count b)
  ∧ optional_joined doc "language" = Some (language b)
  ∧ optional_joined doc "subject" = Some (subject b)
  ∧ optional_int doc "want_to_read_count" = Some (want_to_read_count b)
  ∧ optional_int doc "currently_reading_count"
    = Some (currently_reading_count b)
  ∧ optional_int doc "already_read_count" = Some (already_read_count b)
  ∧ is_favorite b = Std.contains (key b) (favorite_books c)
  ∧ notes b = match saved_notes c !! key b with
              | Some n => {[ key b := n ]}
              | None => ∅
              end.
Proof.
  unfold convert_doc.
  destruct (Json.contains doc "key" && Json.contains doc "title"); [|done].
  destruct (Json.get_string (Json.subscript doc "key")) as [k|]; [|done].
  destruct (Json.get_string (Json.subscript doc "title")) as [t|]; [|done].
  cbn [mbind option_bind].
  destruct (if Json.contains doc "author_name" then _ else _) as [a|]; [|done].
  destruct (optional_int doc "first_publish_year") as [y|]; [|done].
  destruct (optional_int doc "edition_count") as [e|]; [|done].
  destruct (optional_joined doc "language") as [l|]; [|done].
  destruct (optional_joined doc "subject") as [s|]; [|done].
  destruct (optional_int doc "want_to_read_count") as [w|]; [|done].
  destruct (optional_int doc "currently_reading_count") as [r|]; [|done].
  destruct (optional_int doc "already_read_count") as [d|]; [|done].
  cbn [mbind option_bind]. intros [= <-]. by repeat split.
Qed.

Lemma push_docs_true c docs pushed result :
  push_docs c docs pushed = (result, true) →
  result = pushed ++ omap (accepted_book c) docs.
Proof.
  revert pushed. induction docs as [|d docs IH]; intros pushed; simpl.
  - intros [= <-]. by rewrite app_nil_r.
  - unfold accepted_book. destruct (convert_doc c d); [| |done].
    + apply IH.
    + intros ->%IH. by rewrite <- app_assoc.
Qed.

(** What a successful fetch leaves in the store. *)
Lemma fetch_ok Get c :
  fetch_outcome Get c = FetchOk →
  ∃ body j,
    Get (request_path c) = Response 200 body ∧ Json.parse body = Some j
    ∧ fetch Get c
      = set_data_ready true
          (set_books (omap (accepted_book c) (response_docs j)) c).
Proof.
  unfold fetch_outcome, fetch.
  destruct (Get (request_path c)) as [|status body|]; try done.
  destruct (decide (status = 200)) as [->|]; [|done].
  destruct (Json.parse body) as [j|] eqn:Hparse; [|done].
  destruct (push_docs c (response_docs j) []) as [pushed ok] eqn:Hpush.
  destruct ok; [|done]. intros _. exists body, j. split; [done|]. split; [done|].
  by rewrite (push_docs_true _ _ _ _ Hpush).
Qed.

(** X4. An element that has a string key, a string title and none of the
    optional members gives a book with every optional field at its zero
    value, flagged by the favorites list and carrying the saved note of its
    key, if there is one. *)
Theorem optional_fields_default c m k t :
  Json.obj_find "key" m = Some (Json.JString k) →
  Json.obj_find "title" m = Some (Json.JString t) →
  Forall (λ name, Json.obj_find name m = None)
    ["author_name"; "first_publish_year"; "edition_count"; "language";
     "subject"; "want_to_read_count"; "currently_reading_count";
     "already_read_count"] →
  convert_doc c (Json.JObject m)
  = Accepted (mkBook k t [] 0 0 (Std.contains k (favorite_books c)) "" "" 0 0 0
                (match saved_notes c !! k with
                 | Some n => {[ k := n ]}
                 | None => ∅
                 end)).
Proof.
  intros Hk Ht Hnone.
  assert (∀ name, Json.obj_find name m = None →
                  Json.contains (Json.JObject m) name = false) as Habs.
  { intros name Hname. simpl. rewrite Hname.
    apply bool_decide_eq_false. by intros [? ?]. }
  repeat (apply Forall_cons in Hnone as [?%Habs Hnone]).
  unfold convert_doc, optional_int, optional_joined.
  repeat match goal with H : Json.contains _ _ = false |- _ =>
           rewrite H; clear H end.
  simpl. rewrite Hk, Ht. simpl. done.
Qed.

Lemma optional_fields_default_witness :
  convert_doc Scenario.dune_store Scenario.dune_doc = Accepted Scenario.dune_book.
Proof.
  apply (optional_fields_default Scenario.dune_store _ "/works/OL1W" "Dune");
    [reflexivity..|].
  repeat constructor.
Defined.

(** The flattening of a list of strings. *)
Lemma join_comma_cons a s l :
  join_comma ((a +:+ ", " +:+ s) :: l) = a +:+ ", " +:+ join_comma (s :: l).
Proof.
  destruct l as [|s' l]; [done|].
  cbn [join_comma]. by rewrite !append_assoc.
Qed.

Lemma join_strings_from acc l :
  acc ≠ "" →
  join_strings acc (Json.JString <$> l) = Some (join_comma (acc :: l)).
Proof.
  revert acc. induction l as [|s l IH]; intros acc Hacc; [done|].
  cbn [fmap list_fmap join_strings Json.get_string mbind option_bind].
  rewrite decide_False by done. rewrite !append_assoc.
  rewrite IH by (by destruct acc). by rewrite join_comma_cons.
Qed.

Lemma join_strings_flat l :
  join_strings "" (Json.JString <$> l) = Some (join_comma (skip_empty l)).
Proof.
  induction l as [|s l IH]; [done|].
  cbn [fmap list_fmap join_strings Json.get_string mbind option_bind skip_empty].
  rewrite decide_True by done.
  change ("" +:+ s) with s.
  destruct (decide (s = "")) as [->|Hs]; [exact IH|].
  by apply join_strings_from.
Qed.

(** X5. The language and subject arrays are flattened in their order,
    without removing repetitions, a comma and a space between two entries;
    empty entries at the head of the array leave no separator. *)
Theorem language_and_subject_are_joined c doc b :
  convert_doc c doc = Accepted b →
  (∀ l, Json.contains doc "language" = true →
        Json.subscript doc "language" = Json.JArray (Json.JString <$> l) →
        language b = join_comma (skip_empty l))
  ∧ (∀ l, Json.contains doc "subject" = true →
          Json.subscript doc "subject" = Json.JArray (Json.JString <$> l) →
          subject b = join_comma (skip_empty l))
  ∧ (Json.contains doc "language" = false → language b = "")
  ∧ (Json.contains doc "subject" = false → subject b = "").
Proof.
  intros Hacc.
  destruct (convert_doc_fields c doc b Hacc)
    as (_ & _ & _ & _ & _ & Hl & Hs & _).
  unfold optional_joined in Hl, Hs. repeat split.
  - intros l Hc Harr. rewrite Hc, Harr in Hl. simpl in Hl.
    rewrite join_strings_flat in Hl. congruence.
  - intros l Hc Harr. rewrite Hc, Harr in Hs. simpl in Hs.
    rewrite join_strings_flat in Hs. congruence.
  - intros Hc. rewrite Hc in Hl. simpl in Hl. congruence.
  - intros Hc. rewrite Hc in Hs. simpl in Hs. congruence.
Qed.

Lemma language_and_subject_witness :
  let doc := Json.JObject
               [("key", Json.JString "/works/OL1W");
                ("language", Json.JArray [Json.JString "eng";
                                          Json.JString "fre";
                                          Json.JString "eng"]);
                ("title", Json.JString "Dune")] in
  let b := mkBook "/works/OL1W" "Dune" [] 0 0 true "eng, fre, eng" ""
             0 0 0 ∅ in
  convert_doc Scenario.dune_store doc = Accepted b
  ∧ language b = "eng, fre, eng" ∧ subject b = "".
Proof.
  intros doc b.
  assert (convert_doc Scenario.dune_store doc = Accepted b) as Hacc
    by reflexivity.
  destruct (language_and_subject_are_joined Scenario.dune_store doc b Hacc)
    as (Hl & _ & _ & Hs).
  split; [done|]. split; [|by apply Hs].
  by apply (Hl ["eng"; "fre"; "eng"]).
Defined.

(** ** What a fetch does to the store *)

(** X6. After a successful fetch the note overlay of every book of the
    result list is the saved note of its key under that key, and is empty
    when no note is saved for the key. *)
Theorem fetch_attaches_saved_notes Get c b :
  fetch_outcome Get c = FetchOk →
  b ∈ books (download_attempt Get c) →
  notes b = match saved_notes c !! key b with
            | Some n => {[ key b := n ]}
            | None => ∅
            end.
Proof.
  intros Hok. rewrite books_download_attempt.
  destruct (fetch_ok Get c Hok) as (body & j & _ & _ & ->). simpl.
  intros (doc & _ & Hacc)%list_elem_of_omap. unfold accepted_book in Hacc.
  destruct (convert_doc c doc) as [|b'|] eqn:Hdoc; try done.
  injection Hacc as ->.
  by destruct (convert_doc_fields c doc b Hdoc)
    as (_ & _ & _ & _ & _ & _ & _ & _ & _ & _ & _ & ?).
Qed.

Lemma fetch_attaches_saved_notes_witness :
  let n := mkBookNote "great book" "2024-01-01" in
  let c := set_saved_notes {[ "/works/OL1W" := n ]} Scenario.dune_store in
  let b := set_notes {[ "/works/OL1W" := n ]} Scenario.dune_book in
  books (download_attempt Scenario.dune_catalog c) = [b]
  ∧ notes b = match saved_notes c !! key b with
              | Some n => {[ key b := n ]}
              | None => ∅
              end.
Proof.
  intros n c b.
  assert (books (download_attempt Scenario.dune_catalog c) = [b]) as Hbooks
    by (vm_compute; reflexivity).
  split; [done|].
  apply (fetch_attaches_saved_notes Scenario.dune_catalog c b);
    [reflexivity|].
  rewrite Hbooks. by apply list_elem_of_singleton.
Defined.

Lemma request_path_ext c c' :
  search_query c' = search_query c → search_type c' = search_type c →
  results_per_page c' = results_per_page c → current_page c' = current_page c →
  request_path c' = request_path c.
Proof. intros Hq Ht Hl Hp. unfold request_path. by rewrite Hq, Ht, Hl, Hp. Qed.

(** A fetch reads the search parameters, the favorites and the saved notes;
    it writes the result list and the data-ready flag. *)
Lemma fetch_ext Get c c' :
  search_query c' = search_query c → search_type c' = search_type c →
  results_per_page c' = results_per_page c → current_page c' = current_page c →
  favorite_books c' = favorite_books c → saved_notes c' = saved_notes c →
  fetch_outcome Get c' = fetch_outcome Get c
  ∧ (fetch_outcome Get c = FetchOk ∨ fetch_outcome Get c = FetchRecordError →
     books (fetch Get c') = books (fetch Get c)).
Proof.
  intros Hq Ht Hl Hp Hf Hn.
  unfold fetch_outcome, fetch.
  rewrite (request_path_ext c c' Hq Ht Hl Hp).
  destruct (Get (request_path c)) as [|status body|];
    [split; [done|by intros [|]]| |split; [done|by intros [|]]].
  destruct (decide (status = 200)); [|split; [done|by intros [|]]].
  destruct (Json.parse body) as [j|]; [|split; [done|by intros [|]]].
  rewrite (push_docs_ext c c' _ _ Hf Hn).
  by destruct (push_docs c (response_docs j) []) as [pushed []].
Qed.

(** X7. A successful fetch replaces the result list wholesale: the new
    list is made of the accepted elements of [docs], in their order, and
    does not depend on the list that was there. *)
Theorem successful_fetch_replaces_the_list Get c :
  fetch_outcome Get c = FetchOk →
  (∃ body j, Get (request_path c) = Response 200 body
             ∧ Json.parse body = Some j
             ∧ books (download_attempt Get c)
               = omap (accepted_book c) (response_docs j))
  ∧ ∀ previous,
      books (download_attempt Get (set_books previous c))
      = books (download_attempt Get c).
Proof.
  intros Hok. split.
  - destruct (fetch_ok Get c Hok) as (body & j & HGet & Hparse & Hfetch).
    exists body, j. split; [done|]. split; [done|].
    by rewrite books_download_attempt, Hfetch.
  - intros previous. rewrite !books_download_attempt.
    apply (fetch_ext Get c (set_books previous c)); try done. by left.
Qed.

Lemma successful_fetch_replaces_the_list_witness :
  books (download_attempt Scenario.dune_catalog Scenario.showing_old_book)
  = books (download_attempt Scenario.dune_catalog Scenario.dune_store).
Proof.
  destruct (successful_fetch_replaces_the_list Scenario.dune_catalog
              Scenario.dune_store) as [_ Hany]; [reflexivity|].
  rewrite <- (Hany [Scenario.old_book]). reflexivity.
Defined.

Lemma download_attempt_keeps Get c :
  let c' := download_attempt Get c in
  favorite_books c' = favorite_books c ∧ saved_notes c' = saved_notes c
  ∧ search_query c' = search_query c ∧ search_type c' = search_type c
  ∧ results_per_page c' = results_per_page c
  ∧ current_page c' = current_page c ∧ exit_flag c' = exit_flag c.
Proof.
  intros c'. subst c'. unfold download_attempt, fetch.
  destruct (Get (request_path c)) as [|status body|]; [done| |done].
  destruct (decide (status = 200)); [|done].
  destruct (Json.parse body) as [j|]; [|done].
  by destruct (push_docs c (response_docs j) []) as [pushed []].
Qed.

(** X8. A fetch writes the result list and two flags and nothing else: the
    favorites, the saved notes, the search parameters and the exit flag are
    as before, whatever the catalog answers. *)
Theorem fetch_writes_result_list_only Get c :
  let c' := poll Get c in
  favorite_books c' = favorite_books c ∧ saved_notes c' = saved_notes c
  ∧ search_query c' = search_query c ∧ search_type c' = search_type c
  ∧ results_per_page c' = results_per_page c
  ∧ current_page c' = current_page c ∧ exit_flag c' = exit_flag c.
Proof.
  intros c'. subst c'. unfold poll.
  destruct (exit_flag c) eqn:Hexit; [by rewrite Hexit|].
  destruct (start_download c); [|by rewrite Hexit].
  rewrite <- Hexit. apply download_attempt_keeps.
Qed.

(** X9. Asking again for the same search, with the catalog answering as
    before, leaves the store exactly as the first answer left it. *)
Theorem repeated_fetch_is_idempotent Get c :
  download_attempt Get
    (submit_search (search_query c) (download_attempt Get c))
  = download_attempt Get c.
Proof.
  set (c1 := download_attempt Get c).
  set (c2 := submit_search (search_query c) c1).
  assert (request_path c2 = request_path c) as Hpath.
  { unfold c2, c1, download_attempt, fetch, request_path.
    destruct (Get _) as [|status body|]; try done.
    destruct (decide (status = 200)); [|done].
    destruct (Json.parse body) as [j|]; [|done].
    by destruct (push_docs c (response_docs j) []) as [pushed []]. }
  assert (favorite_books c2 = favorite_books c
          ∧ saved_notes c2 = saved_notes c) as [Hf Hn].
  { unfold c2, c1, download_attempt, fetch.
    destruct (Get _) as [|status body|]; try done.
    destruct (decide (status = 200)); [|done].
    destruct (Json.parse body) as [j|]; [|done].
    by destruct (push_docs c (response_docs j) []) as [pushed []]. }
  unfold download_attempt at 1. unfold fetch at 1. rewrite Hpath.
  subst c2 c1. unfold download_attempt, fetch in *.
  destruct (Get (request_path c)) as [|status body|];
    [by destruct c| |by destruct c].
  destruct (decide (status = 200)); [|by destruct c].
  destruct (Json.parse body) as [j|]; [|by destruct c].
  rewrite (push_docs_ext c _ _ _ Hf Hn).
  destruct (push_docs c (response_docs j) []) as [pushed []]; by destruct c.
Qed.

(** X10. A response with status 200 whose body is valid JSON without a
    [docs] member (or is not an object at all) counts as an answer with no
    result: the result list becomes empty and the data-ready flag is set. *)
Theorem fetch_without_docs Get c body j :
  Get (request_path c) = Response 200 body →
  Json.parse body = Some j →
  Json.contains j "docs" = false →
  books (download_attempt Get c) = []
  ∧ data_ready (download_attempt Get c) = true
  ∧ fetch_outcome Get c = FetchOk.
Proof.
  intros HGet Hparse Hdocs.
  unfold download_attempt, fetch_outcome, fetch, response_docs.
  by rewrite HGet, Hparse, Hdocs.
Qed.

Lemma fetch_without_docs_witness :
  let Get := λ _, Response 200 "[1, 2]" in
  books (download_attempt Get Scenario.showing_old_book) = []
  ∧ data_ready (download_attempt Get Scenario.showing_old_book) = true
  ∧ fetch_outcome Get Scenario.showing_old_book = FetchOk.
Proof.
  intros Get.
  apply (fetch_without_docs Get Scenario.showing_old_book "[1, 2]"
           (Json.JArray [Json.JInt 1; Json.JInt 2])); reflexivity.
Defined.

(** ** The handlers of the presentation loop *)

Lemma erase_first_app_new k favs :
  k ∉ favs → Std.erase_first k (favs ++ [k]) = favs.
Proof.
  induction favs as [|y favs IH]; simpl.
  - intros _. by rewrite decide_True.
  - intros [Hne Hk]%not_elem_of_cons.
    rewrite decide_False by done. by rewrite IH.
Qed.

(** X11. Ticking a box and unticking it again leaves the store as it was:
    the key that the first click appended to the favorites list is the one
    the second click erases. *)
Theorem tick_then_untick i c book :
  data_ready c = true → books c !! i = Some book →
  is_favorite book = false → key book ∉ favorite_books c →
  toggle_favorite i (toggle_favorite i c) = c.
Proof.
  intros Hready Hi Hflag Hk.
  assert (i < length (books c))%nat as Hlt by (by eapply lookup_lt_Some).
  unfold toggle_favorite at 2. rewrite Hready, Hi, Hflag. simpl.
  unfold toggle_favorite. simpl. rewrite Hready.
  rewrite list_lookup_insert_eq by done. simpl.
  rewrite list_insert_insert_eq, (erase_first_app_new _ _ Hk).
  destruct book, c; simpl in *. subst.
  by rewrite list_insert_id.
Qed.

Lemma tick_then_untick_witness :
  let c := set_data_ready true
             (set_books [Scenario.old_book] CommonObjects_default) in
  toggle_favorite 0 (toggle_favorite 0 c) = c.
Proof.
  intros c. apply (tick_then_untick 0 c Scenario.old_book); try reflexivity.
  apply not_elem_of_nil.
Defined.


(** ** The note overlays *)









(** ** Who writes what *)

Lemma exit_flag_step s e :
  exit_flag (common s) = true → exit_flag (common (step s e)) = true.
Proof.
  intros Hexit. destruct e; simpl; try done.
  - unfold poll. by rewrite Hexit.
  - unfold refresh_favorites. by destruct (needs_refresh s).
  - unfold remove_favorite.
    destruct (favorite_books_list s !! i); [|done].
    by destruct (Std.contains _ _).
  - unfold toggle_favorite. destruct (data_ready (common s)); [|done].
    by destruct (books (common s) !! i).
  - unfold open_notes. destruct (data_ready (common s)); [|done].
    destruct (books (common s) !! i) as [book|]; [|done].
    destruct (note_buffers s !! key book); [done|].
    destruct (notes book !! key book); [done|].
    by destruct (saved_notes (common s) !! key book).
  - unfold edit_note. destruct (data_ready (common s)); [|done].
    by destruct (books (common s) !! i).
Qed.


Lemma as_fetched_clear_favorite k bs :
  as_fetched <$> clear_favorite k bs = as_fetched <$> bs.
Proof.
  induction bs as [|b bs IH]; [done|]. cbn [clear_favorite].
  destruct (decide (key b = k)); rewrite !fmap_cons; [done|]. by rewrite IH.
Qed.

Lemma as_fetched_insert (bs : list Book) i b b' :
  bs !! i = Some b → as_fetched b' = as_fetched b →
  as_fetched <$> <[i := b']> bs = as_fetched <$> bs.
Proof.
  intros Hi Heq. rewrite list_fmap_insert, Heq.
  apply list_insert_id. by rewrite list_lookup_fmap, Hi.
Qed.

(** X14. The presentation loop never changes which books are shown: apart
    from a poll, every step leaves the result list the same up to the
    favorite flags and the note overlays. *)
Theorem handlers_keep_the_books s e :
  is_poll e = false →
  as_fetched <$> books (common (step s e)) = as_fetched <$> books (common s).
Proof.
  intros Hpoll. destruct e; simpl; try done.
  - unfold refresh_favorites. by destruct (needs_refresh s).
  - unfold remove_favorite.
    destruct (favorite_books_list s !! i); [|done].
    destruct (Std.contains _ _); [|done]. simpl.
    apply as_fetched_clear_favorite.
  - unfold toggle_favorite. destruct (data_ready (common s)); [|done].
    destruct (books (common s) !! i) as [book|] eqn:Hi; [|done]. simpl.
    by apply (as_fetched_insert _ i book).
  - unfold open_notes. destruct (data_ready (common s)); [|done].
    destruct (books (common s) !! i) as [book|] eqn:Hi; [|done].
    destruct (note_buffers s !! key book); [done|].
    destruct (notes book !! key book); [done|].
    destruct (saved_notes (common s) !! key book); [|done]. simpl.
    by apply (as_fetched_insert _ i book).
  - unfold edit_note. destruct (data_ready (common s)); [|done].
    destruct (books (common s) !! i) as [book|] eqn:Hi; [|done]. simpl.
    by apply (as_fetched_insert _ i book).
Qed.

Lemma handlers_keep_the_books_witness :
  let s := mkState Scenario.showing_old_book [] true ∅ in
  as_fetched <$> books (common (step s (EvCheckbox 0)))
  = as_fetched <$> books (common s).
Proof. intros s. by apply (handlers_keep_the_books s (EvCheckbox 0)). Defined.

(** X15. Each signal has one writer: the start-download flag is raised by
    a search and by no other step, the data-ready flag changes in a poll
    and in no other step, and the search text changes in a search only. *)
Theorem signals_have_one_writer s e :
  ((∀ text, e ≠ EvSearch text) →
   start_download (common (step s e)) = true →
   start_download (common s) = true)
  ∧ ((∀ text, e ≠ EvSearch text) →
     search_query (common (step s e)) = search_query (common s))
  ∧ (is_poll e = false →
     data_ready (common (step s e)) = data_ready (common s)).
Proof.
  split; [|split].
  - intros Hsearch. destruct e; simpl; try done.
    + unfold poll. destruct (exit_flag (common s)); [done|].
      destruct (start_download (common s)) eqn:Hstart; [done|congruence].
    + by destruct (Hsearch search_buffer).
    + unfold refresh_favorites. by destruct (needs_refresh s).
    + unfold remove_favorite.
      destruct (favorite_books_list s !! i); [|done].
      by destruct (Std.contains _ _).
    + unfold toggle_favorite. destruct (data_ready (common s)); [|done].
      by destruct (books (common s) !! i).
    + unfold open_notes. destruct (data_ready (common s)); [|done].
      destruct (books (common s) !! i) as [book|]; [|done].
      destruct (note_buffers s !! key book); [done|].
      destruct (notes book !! key book); [done|].
      by destruct (saved_notes (common s) !! key book).
    + unfold edit_note. destruct (data_ready (common s)); [|done].
      by destruct (books (common s) !! i).
  - intros Hsearch. destruct e; simpl; try done.
    + unfold poll. destruct (exit_flag (common s)); [done|].
      destruct (start_download (common s)); [|done].
      by destruct (download_attempt_keeps Get (common s)) as (_ & _ & ? & _).
    + by destruct (Hsearch search_buffer).
    + unfold refresh_favorites. by destruct (needs_refresh s).
    + unfold remove_favorite.
      destruct (favorite_books_list s !! i); [|done].
      by destruct (Std.contains _ _).
    + unfold toggle_favorite. destruct (data_ready (common s)); [|done].
      by destruct (books (common s) !! i).
    + unfold open_notes. destruct (data_ready (common s)); [|done].
      destruct (books (common s) !! i) as [book|]; [|done].
      destruct (note_buffers s !! key book); [done|].
      destruct (notes book !! key book); [done|].
      by destruct (saved_notes (common s) !! key book).
    + unfold edit_note. destruct (data_ready (common s)); [|done].
      by destruct (books (common s) !! i).
  - intros Hpoll. destruct e; simpl; try done.
    + unfold refresh_favorites. by destruct (needs_refresh s).
    + unfold remove_favorite.
      destruct (favorite_books_list s !! i); [|done].
      by destruct (Std.contains _ _).
    + unfold toggle_favorite. destruct (data_ready (common s)) eqn:Hr; [|done].
      by destruct (books (common s) !! i).
    + unfold open_notes. destruct (data_ready (common s)) eqn:Hr; [|done].
      destruct (books (common s) !! i) as [book|]; [|done].
      destruct (note_buffers s !! key book); [done|].
      destruct (notes book !! key book); [done|].
      by destruct (saved_notes (common s) !! key book).
    + unfold edit_note. destruct (data_ready (common s)) eqn:Hr; [|done].
      by destruct (books (common s) !! i).
Qed.

Lemma request_parameters_step s e :
  current_page (common s) = 1 →
  search_type (common s) = "title" ∨ search_type (common s) = "author" →
  current_page (common (step s e)) = 1
  ∧ (search_type (common (step s e)) = "title"
     ∨ search_type (common (step s e)) = "author").
Proof.
  intros Hpage Htype. destruct e; simpl; try done.
  - unfold poll. destruct (exit_flag (common s)); [done|].
    destruct (start_download (common s)); [|done].
    destruct (download_attempt_keeps Get (common s))
      as (_ & _ & _ & -> & _ & -> & _). done.
  - split; [done|]. destruct (decide (selection = 0)); [by left|by right].
  - unfold refresh_favorites. by destruct (needs_refresh s).
  - unfold remove_favorite.
    destruct (favorite_books_list s !! i); [|done].
    by destruct (Std.contains _ _).
  - unfold toggle_favorite. destruct (data_ready (common s)); [|done].
    by destruct (books (common s) !! i).
  - unfold open_notes. destruct (data_ready (common s)); [|done].
    destruct (books (common s) !! i) as [book|]; [|done].
    destruct (note_buffers s !! key book); [done|].
    destruct (notes book !! key book); [done|].
    by destruct (saved_notes (common s) !! key book).
  - unfold edit_note. destruct (data_ready (common s)); [|done].
    by destruct (books (common s) !! i).
Qed.

(** X16. The program never asks for another page, and it searches by
    title or by author and by nothing else: whatever the files held and
    whatever the user did, the request that a search would send is for
    page 1 of the title or the author search. *)
Theorem every_request_is_for_page_one files events :
  let c := common (run (initial_state files) events) in
  current_page c = 1
  ∧ (search_type c = "title" ∨ search_type c = "author")
  ∧ request_path c
    = "/search.json?" +:+ search_type c +:+ "="
      +:+ url_encode (search_query c)
      +:+ "&limit=" +:+ Std.to_string (results_per_page c)
      +:+ "&page=1" +:+ fields_parameter.
Proof.
  intros c.
  assert (current_page c = 1
          ∧ (search_type c = "title" ∨ search_type c = "author"))
    as [Hpage Htype].
  { subst c. unfold run.
    induction events as [|e events IH] using rev_ind.
    - split; [done|by left].
    - rewrite foldl_app. simpl. destruct IH as [Hpage Htype].
      by apply request_parameters_step. }
  split; [done|]. split; [done|].
  unfold request_path. rewrite Hpage.
  by destruct Htype as [-> | ->].
Qed.

(** ** The favorites popup ([DrawThread.cpp]) *)

Lemma prefix_substr_from p s :
  String.prefix p s = true → p +:+ substr_from (String.length p) s = s.
Proof.
  revert s. induction p as [|a p IH]; intros s Hp; [done|].
  destruct s as [|b s]; [done|]. simpl in Hp.
  destruct (Ascii.ascii_dec a b) as [->|]; [|done].
  change (String b (p +:+ substr_from (String.length p) s) = String b s).
  by rewrite IH.
Qed.

(** X17. For a key as the catalog gives it, with its [/works/] in front,
    the detail request goes to the key followed by [.json]; any other key
    gets [/works/] put in front. *)
Theorem work_path_of_catalog_key k :
  (starts_with k "/works/" = true → work_path k = k +:+ ".json")
  ∧ (starts_with k "/works/" = false →
     work_path k = "/works/" +:+ k +:+ ".json").
Proof.
  unfold work_path. split; intros Hk; rewrite Hk; [|done].
  rewrite <- (prefix_substr_from "/works/" k Hk) at 2.
  change (String.length "/works/") with 7%nat.
  by generalize (substr_from 7 k).
Qed.

Lemma work_path_of_catalog_key_witness :
  work_path "/works/OL1W" = "/works/OL1W.json".
Proof. by apply (work_path_of_catalog_key "/works/OL1W"). Defined.

Lemma resolve_favorite_Done Get k log b log' :
  resolve_favorite Get k log = (Done b, log') →
  key b = k ∧ is_favorite b = true ∧ notes b = ∅.
Proof.
  unfold resolve_favorite.
  destruct (Get (work_path k)) as [|status body|]; [done| |done].
  destruct (decide (status = 200)); [|done].
  destruct (Json.parse body) as [j|]; [|done].
  destruct (Json.get_string _) as [t|]; [|done].
  destruct (resolve_authors _ _ _ _) as [[names| |] l]; [|done|done].
  by intros [= <- _].
Qed.

Lemma resolve_all_Done Get keys : ∀ entries log entries' log',
  resolve_all Get keys entries log = (Done entries', log') →
  ∃ fetched,
    entries' = entries ++ fetched
    ∧ Forall (λ b, is_favorite b = true ∧ notes b = ∅ ∧ key b ∈ keys
                   ∧ key b ∉ key <$> entries) fetched
    ∧ NoDup (key <$> fetched).
Proof.
  induction keys as [|k keys IH]; intros entries log entries' log' Hrun.
  - injection Hrun as <- _. exists []. rewrite app_nil_r.
    split; [done|]. split; [constructor|constructor].
  - cbn [resolve_all] in Hrun.
    destruct (bool_decide (k ∈ key <$> entries)) eqn:Hin.
    + destruct (IH _ _ _ _ Hrun) as (fetched & -> & Hall & Hnd).
      exists fetched. split; [done|]. split; [|done].
      eapply Forall_impl; [exact Hall|].
      intros b (? & ? & ? & ?). repeat split; try done. by right.
    + apply bool_decide_eq_false in Hin.
      destruct (resolve_favorite Get k log) as [[book| |] l] eqn:Hone;
        [| |done].
      * apply resolve_favorite_Done in Hone as (Hk & Hfav & Hnotes).
        destruct (IH _ _ _ _ Hrun) as (fetched & -> & Hall & Hnd).
        exists (book :: fetched). rewrite <- app_assoc. split; [done|].
        split.
        -- constructor.
           ++ repeat split; try done; rewrite Hk; [left|done].
           ++ eapply Forall_impl; [exact Hall|].
              intros b (? & ? & ? & Hnew). rewrite fmap_app in Hnew.
              repeat split; try done; [by right|].
              intros ?. apply Hnew, elem_of_app. by left.
        -- rewrite fmap_cons. constructor; [|done].
           intros Hdup. apply list_elem_of_fmap in Hdup as (b & Hb & Hbin).
           rewrite Forall_forall in Hall.
           destruct (Hall b Hbin) as (_ & _ & _ & Hnew).
           apply Hnew. rewrite fmap_app, elem_of_app. right.
           rewrite <- Hb. simpl. left.
      * destruct (IH _ _ _ _ Hrun) as (fetched & -> & Hall & Hnd).
        exists fetched. split; [done|]. split; [|done].
        eapply Forall_impl; [exact Hall|].
        intros b (? & ? & ? & ?). repeat split; try done. by right.
Qed.

(** X18. What the refresh of the favorites popup leaves in the list: the
    flagged books of the result list, followed by entries it fetched. Each
    fetched entry is flagged, has no note overlay, has one of the favorite
    keys that no flagged book has, and no two of them share a key; the
    store is untouched. When the flags agree with the favorites, every
    entry of the list is a favorite. *)
Theorem refresh_lists_the_favorites Get s s' log :
  needs_refresh s = true →
  refresh_view Get s = (Done s', log) →
  let shown := filter (λ b, is_favorite b = true) (books (common s)) in
  (∃ fetched,
      s' = refresh_favorites fetched s
      ∧ Forall (λ b, is_favorite b = true ∧ notes b = ∅
                     ∧ key b ∈ favorite_books (common s)
                     ∧ key b ∉ key <$> shown) fetched
      ∧ NoDup (key <$> fetched))
  ∧ Forall (λ b, is_favorite b = true) (favorite_books_list s')
  ∧ (favorites_in_sync (common s) →
     Forall (λ b, key b ∈ favorite_books (common s)) (favorite_books_list s')).
Proof.
  intros Hneeds Hrun shown. unfold refresh_view in Hrun.
  rewrite Hneeds in Hrun.
  destruct (resolve_all _ _ _ _) as [[entries| |] l] eqn:Hall; [|done|done].
  injection Hrun as <- <-.
  apply resolve_all_Done in Hall as (fetched & -> & Hfetched & Hnd).
  assert (Forall (λ b, is_favorite b = true) shown) as Hshown.
  { apply Forall_forall. intros b Hb.
    by apply list_elem_of_filter in Hb as [? _]. }
  split; [|split].
  - exists fetched. unfold refresh_favorites. by rewrite Hneeds.
  - simpl. apply Forall_app. split; [done|].
    eapply Forall_impl; [exact Hfetched|]. by intros b (? & _).
  - intros Hsync. simpl. apply Forall_app. split.
    + apply Forall_forall. intros b Hb.
      apply list_elem_of_filter in Hb as [Hflag Hb]. by apply Hsync.
    + eapply Forall_impl; [exact Hfetched|]. by intros b (_ & _ & ? & _).
Qed.

Lemma refresh_lists_the_favorites_witness :
  refresh_view Scenario.library Scenario.two_favorites
  = (Done (refresh_favorites [Scenario.emma_entry] Scenario.two_favorites),
     ["/works/OL2W.json"; "/authors/OL21594A.json"])
  ∧ Forall (λ b, is_favorite b = true)
      [Scenario.dune_book; Scenario.emma_entry].
Proof.
  split; [reflexivity|].
  apply (refresh_lists_the_favorites Scenario.library Scenario.two_favorites
           (refresh_favorites [Scenario.emma_entry] Scenario.two_favorites)
           ["/works/OL2W.json"; "/authors/OL21594A.json"]);
    reflexivity.
Defined.

Lemma resolve_all_shown Get keys entries log :
  (∀ k, k ∈ keys → k ∈ key <$> entries) →
  resolve_all Get keys entries log = (Done entries, log).
Proof.
  induction keys as [|k keys IH]; intros Hshown; [done|].
  cbn [resolve_all]. rewrite bool_decide_eq_true_2 by (apply Hshown; left).
  apply IH. intros k' Hk'. apply Hshown. by right.
Qed.

(** X19. When every favorite key belongs to a flagged book of the result
    list, the refresh sends no request at all: the popup shows exactly
    those books. *)
Theorem no_request_for_shown_favorites Get s :
  needs_refresh s = true →
  (∀ k, k ∈ favorite_books (common s) →
        ∃ b, b ∈ books (common s) ∧ key b = k ∧ is_favorite b = true) →
  refresh_view Get s = (Done (refresh_favorites [] s), []).
Proof.
  intros Hneeds Hshown. unfold refresh_view, refresh_favorites.
  rewrite Hneeds, app_nil_r, resolve_all_shown; [done|].
  intros k Hk. destruct (Hshown k Hk) as (b & Hb & <- & Hflag).
  apply list_elem_of_fmap. exists b. split; [done|].
  by apply list_elem_of_filter.
Qed.

Lemma no_request_for_shown_favorites_witness :
  let s := mkState (set_data_ready true
                      (set_books [Scenario.dune_book] Scenario.dune_store))
             [] true ∅ in
  refresh_view (λ _, TransportException) s
  = (Done (refresh_favorites [] s), []).
Proof.
  intros s. apply (no_request_for_shown_favorites (λ _, TransportException) s).
  - reflexivity.
  - intros k Hk. exists Scenario.dune_book.
    apply list_elem_of_singleton in Hk as ->.
    split; [apply list_elem_of_singleton|]; done.
Defined.

Lemma resolve_favorite_unusable Get k log :
  unusable (Get (work_path k)) →
  resolve_favorite Get k log = (Failed, log ++ [work_path k]).
Proof.
  unfold resolve_favorite.
  intros [->|(status & body & -> & Hstatus)]; [done|].
  by rewrite decide_False.
Qed.

Lemma resolve_all_unusable Get keys : ∀ entries log,
  (∀ k, k ∈ keys → unusable (Get (work_path k))) →
  resolve_all Get keys entries log
  = (Done entries,
     log ++ (work_path
               <$> filter (λ k, k ∉ key <$> entries) keys)).
Proof.
  induction keys as [|k keys IH]; intros entries log Hun.
  - by rewrite app_nil_r.
  - cbn [resolve_all]. rewrite filter_cons.
    destruct (decide (k ∉ key <$> entries)) as [Hnew|Hold].
    + rewrite bool_decide_eq_false_2 by done.
      rewrite resolve_favorite_unusable by (apply Hun; left).
      rewrite IH by (intros k' Hk'; apply Hun; by right).
      by rewrite <- app_assoc.
    + rewrite bool_decide_eq_true_2 by (by apply dec_stable).
      apply IH. intros k' Hk'. apply Hun. by right.
Qed.

(** X20. Without a usable catalog (no response, or a status other than
    200, for every work request) the refresh still ends: the popup shows
    the flagged books of the result list, and one work request was sent
    for each favorite key that no flagged book has, in the order of the
    favorites. *)
Theorem refresh_without_catalog Get s :
  needs_refresh s = true →
  (∀ k, k ∈ favorite_books (common s) → unusable (Get (work_path k))) →
  let shown := filter (λ b, is_favorite b = true) (books (common s)) in
  refresh_view Get s
  = (Done (refresh_favorites [] s),
     work_path
       <$> filter (λ k, k ∉ key <$> shown) (favorite_books (common s))).
Proof.
  intros Hneeds Hun shown. unfold refresh_view, refresh_favorites.
  by rewrite Hneeds, app_nil_r, resolve_all_unusable.
Qed.

Lemma refresh_without_catalog_witness :
  refresh_view (λ _, Response 503 "") Scenario.two_favorites
  = (Done (refresh_favorites [] Scenario.two_favorites),
     ["/works/OL2W.json"]).
Proof.
  apply (refresh_without_catalog (λ _, Response 503 "")
           Scenario.two_favorites).
  - reflexivity.
  - intros k _. right. by exists 503, "".
Defined.

Lemma resolve_authors_references Get authors aks :
  Forall2 author_reference authors aks →
  (∀ ak, ak ∈ aks → Get (ak +:+ ".json") ≠ TransportException) →
  ∀ names log,
    resolve_authors Get authors names log
    = (Done (names ++ omap (λ ak, answered_name (Get (ak +:+ ".json"))) aks),
       log ++ ((λ ak, ak +:+ ".json") <$> aks)).
Proof.
  induction 1 as [|author ak authors aks Href _ IH]; intros Hget names log.
  - by rewrite !app_nil_r.
  - destruct Href as (m & m' & -> & Hauthor & Hkey).
    cbn [resolve_authors]. unfold Json.contains, Json.subscript, author_key.
    rewrite Hauthor. simpl default.
    rewrite bool_decide_eq_true_2 by done. rewrite Hkey. simpl Json.get_string.
    cbv zeta. rewrite fmap_cons. cbn [omap list_omap].
    assert (∀ ak', ak' ∈ aks → Get (ak' +:+ ".json") ≠ TransportException)
      as Hget' by (intros ak' ?; apply Hget; by right).
    pose proof (Hget ak ltac:(left)) as Hak.
    destruct (Get (ak +:+ ".json")) as [|status body|]; [| |done].
    + rewrite IH by done. simpl. by rewrite <- app_assoc.
    + rewrite IH by done. simpl.
      destruct (decide (status = 200)); [|by rewrite <- app_assoc].
      destruct (author_name body); by rewrite <- !app_assoc.
Qed.

(** X21. A favorite whose work detail arrives with a title and an array of
    author references becomes an entry of the popup with that title, the
    flag set and nothing else filled in. One request goes out for the work
    and then one for each author reference, in their order; the authors
    are the names of the author responses that can be used, and an author
    whose response cannot be used is left out. *)
Theorem resolved_entry Get k log body m t authors aks :
  Get (work_path k) = Response 200 body →
  Json.parse body = Some (Json.JObject m) →
  Json.obj_find "title" m = Some (Json.JString t) →
  Json.obj_find "authors" m = Some (Json.JArray authors) →
  Forall2 author_reference authors aks →
  (∀ ak, ak ∈ aks → Get (ak +:+ ".json") ≠ TransportException) →
  resolve_favorite Get k log
  = (Done (mkBook k t
             (omap (λ ak, answered_name (Get (ak +:+ ".json"))) aks)
             0 0 true "" "" 0 0 0 ∅),
     log ++ work_path k :: ((λ ak, ak +:+ ".json") <$> aks)).
Proof.
  intros Hwork Hparse Htitle Hauthors Hrefs Hget.
  unfold resolve_favorite. rewrite Hwork. rewrite decide_True by done.
  rewrite Hparse. unfold Json.subscript, Json.contains.
  rewrite Htitle, Hauthors. simpl default. simpl Json.get_string.
  rewrite bool_decide_eq_true_2 by done. simpl Json.elements.
  rewrite (resolve_authors_references Get authors aks Hrefs Hget).
  by rewrite <- app_assoc.
Qed.

Lemma resolved_entry_witness :
  resolve_favorite Scenario.library "/works/OL2W" []
  = (Done Scenario.emma_entry,
     ["/works/OL2W.json"; "/authors/OL21594A.json"]).
Proof.
  apply (resolved_entry Scenario.library "/works/OL2W" []
           Scenario.emma_work_body
           [("authors",
             Json.JArray
               [Json.JObject
                  [("author",
                    Json.JObject [("key", Json.JString "/authors/OL21594A")])]]);
            ("title", Json.JString "Emma")]
           "Emma"
           [Json.JObject
              [("author",
                Json.JObject [("key", Json.JString "/authors/OL21594A")])]]
           ["/authors/OL21594A"]).
  - reflexivity.
  - reflexivity.
  - reflexivity.
  - reflexivity.
  - constructor; [|constructor].
    by exists [("author",
                Json.JObject [("key", Json.JString "/authors/OL21594A")])],
              [("key", Json.JString "/authors/OL21594A")].
  - intros ak Hak. apply list_elem_of_singleton in Hak as ->. done.
Defined.

(** ** Start and exit of the program ([ConnectedApp.cpp]) *)

Lemma until_newline_no_newline s :
  all_chars (λ c, negb (bool_decide (c = "010"%char))) (Std.until_newline s).1
  = true.
Proof.
  induction s as [|c s IH]; [done|]. simpl.
  destruct (decide (c = "010"%char)) as [->|Hc]; [done|].
  destruct (Std.until_newline s) as [l r]. simpl in *.
  by rewrite IH, bool_decide_eq_false_2.
Qed.

Lemma read_favorites_line_keys n : ∀ stream favs,
  Forall (λ k, line_key k = true) favs →
  Forall (λ k, line_key k = true) (read_favorites n stream favs).
Proof.
  induction n as [|n IH]; intros stream favs Hfavs; [done|].
  simpl. destruct (Std.getline stream) as [[line rest]|] eqn:Hline; [|done].
  apply IH. destruct (decide (line = "")) as [|Hne]; [done|].
  apply Forall_app. split; [done|]. constructor; [|constructor].
  unfold line_key. rewrite bool_decide_eq_false_2 by done. simpl.
  destruct stream as [|c s]; [done|].
  pose proof (until_newline_no_newline (String c s)) as Hnl.
  unfold Std.getline in Hline. injection Hline as Hline.
  change (Std.until_newline (String c s) = (line, rest)) in Hline.
  by rewrite Hline in Hnl.
Qed.

(** X22. Whatever [favorites.txt] holds, every key loaded from it is not
    empty and has no line feed, so the list that was loaded is written and
    read back as it is: loading normalises the file. *)
Theorem favorites_file_normalises text :
  let loaded := load_favorites (Some text) [] in
  Forall (λ k, line_key k = true) loaded
  ∧ load_favorites (Some (save_favorites loaded)) [] = loaded.
Proof.
  intros loaded.
  assert (Forall (λ k, line_key k = true) loaded) as Hkeys
    by (apply read_favorites_line_keys; constructor).
  split; [done|].
  change (read_favorites (S (String.length (save_favorites loaded)))
            (save_favorites loaded) [] = loaded).
  rewrite read_favorites_saved; [done|done|].
  pose proof (length_save_favorites loaded). lia.
Qed.

Section NotesFile.
Import Json.

Lemma parse_elements_array n : ∀ s acc j r,
  parse_elements n s acc = Some (j, r) → ∃ l, j = JArray l.
Proof.
  induction n as [|n IH]; intros s acc j r Hp; [done|].
  rewrite parse_elements_S in Hp.
  destruct (skip_ws s) as [|c s']; [done|].
  destruct (code c =? 44).
  - destruct (parse_value n s') as [[v r1]|]; [|done]. by eapply IH.
  - destruct (code c =? 93); [|done]. injection Hp as <- _. by eexists.
Qed.

Lemma parse_members_sorted n : ∀ s acc j r,
  StronglySorted name_lt acc →
  parse_members n s acc = Some (j, r) →
  ∃ m, j = JObject m ∧ StronglySorted name_lt m.
Proof.
  induction n as [|n IH]; intros s acc j r Hacc Hp; [done|].
  rewrite parse_members_S in Hp.
  destruct (skip_ws s) as [|c s']; [done|].
  destruct (code c =? 44).
  - destruct (parse_key s') as [[k r1]|]; [|done]. simpl in Hp.
    destruct (parse_value n r1) as [[v r2]|]; [|done]. simpl in Hp.
    eapply IH; [|exact Hp]. by apply obj_insert_sorted.
  - destruct (code c =? 125); [|done]. injection Hp as <- _. by eexists.
Qed.

Lemma scan_number_number s j r :
  scan_number s = Some (j, r) → (∃ z, j = JInt z) ∨ (∃ x, j = JFloat x).
Proof.
  assert (∀ neg v r0, finish_number neg v r0 = Some (j, r) →
                      (∃ z, j = JInt z) ∨ (∃ x, j = JFloat x)) as Hfinish.
  { intros neg v r0. unfold finish_number.
    destruct (scan_fraction v r0) as [[[[m count] fraction] r1]|]; [|done].
    cbn [mbind option_bind].
    destruct (scan_exponent r1) as [[[e exponent] r2]|]; [|done].
    cbn [mbind option_bind]. destruct (_ && _).
    - intros [= <- _]. left. by eexists.
    - destruct (Std.isfinite _); [|done]. intros [= <- _]. right. by eexists. }
  assert (∀ neg s0, scan_unsigned neg s0 = Some (j, r) →
                    (∃ z, j = JInt z) ∨ (∃ x, j = JFloat x)) as Hunsigned.
  { intros neg [|c s0]; [done|]. cbn [scan_unsigned].
    destruct (code c =? 48); [apply Hfinish|].
    destruct (is_digit c); [|done].
    destruct (scan_digits s0 (digit c)) as [v r0]. apply Hfinish. }
  destruct s as [|c s]; [done|]. cbn [scan_number].
  destruct (code c =? 45); apply Hunsigned.
Qed.

Lemma parse_value_object_sorted n s m r :
  parse_value n s = Some (JObject m, r) → StronglySorted name_lt m.
Proof.
  destruct n as [|n]; [done|]. rewrite parse_value_S.
  destruct (skip_ws s) as [|c s']; [done|].
  destruct (code c =? 91).
  { destruct (skip_ws s') as [|c' r']; [done|].
    destruct (code c' =? 93); [done|].
    destruct (parse_value n s') as [[v r1]|]; [|done]. simpl.
    intros Hp. by apply parse_elements_array in Hp as [l ?]. }
  destruct (code c =? 123).
  { destruct (skip_ws s') as [|c' r']; [done|].
    destruct (code c' =? 125).
    { intros [= <- _]. constructor. }
    destruct (parse_key s') as [[k r1]|]; [|done]. simpl.
    destruct (parse_value n r1) as [[v r2]|]; [|done]. simpl.
    intros Hp. apply parse_members_sorted in Hp as (m' & [= <-] & Hm); [done|].
    repeat constructor. }
  destruct (code c =? 34).
  { by destruct (scan_string s') as [[t r1]|]. }
  unfold scan_literal.
  destruct (code c =? 116).
  { by destruct (strip_prefix _ _). }
  destruct (code c =? 102).
  { by destruct (strip_prefix _ _). }
  destruct (code c =? 110).
  { by destruct (strip_prefix _ _). }
  destruct ((code c =? 45) || is_digit c); [|done].
  by intros [[z ?]|[x ?]]%scan_number_number.
Qed.

Lemma parse_stream_object_NoDup text m :
  parse_stream text = Some (JObject m) → NoDup m.*1.
Proof.
  unfold parse_stream, parse_prefix. intros Hp.
  destruct (skip_bom text) as [s0|]; [|done]. cbn [mbind option_bind] in Hp.
  destruct (parse_value (S (String.length s0)) s0) as [[j r]|] eqn:Hv;
    [|done].
  injection Hp as ->. by eapply sorted_NoDup, parse_value_object_sorted.
Qed.

Lemma obj_find_None k (m : list (string * json)) :
  k ∉ m.*1 → obj_find k m = None.
Proof.
  induction m as [|[k' v] m IH]; [done|]. simpl. intros Hk.
  rewrite decide_False by (intros ->; apply Hk; left).
  apply IH. intros ?. apply Hk. by right.
Qed.

Lemma note_entry_value v :
  note_entry v →
  value v "note" "" = Some (note (entry_note v))
  ∧ value v "date" "" = Some (date (entry_note v)).
Proof.
  intros (m & -> & Hnote & Hdate). unfold entry_note. simpl.
  destruct (obj_find "note" m) as [x|].
  - destruct (Hnote x eq_refl) as [t ->]. simpl.
    destruct (obj_find "date" m) as [y|]; [|done].
    by destruct (Hdate y eq_refl) as [t' ->].
  - destruct (obj_find "date" m) as [y|]; [|done].
    by destruct (Hdate y eq_refl) as [t' ->].
Qed.

Lemma read_notes_entries m : ∀ saved k,
  Forall (λ kv, note_entry kv.2) m → NoDup m.*1 →
  read_notes m saved !! k
  = match obj_find k m with
    | Some v => Some (entry_note v)
    | None => saved !! k
    end.
Proof.
  induction m as [|[k1 v1] m IH]; intros saved k Hm Hnd; [done|].
  apply Forall_cons in Hm as [Hv1 Hm]. apply NoDup_cons in Hnd as [Hk1 Hnd].
  destruct (note_entry_value v1 Hv1) as [Hnote Hdate].
  cbn [read_notes]. rewrite Hnote, Hdate. rewrite IH by done.
  cbn [obj_find]. destruct (decide (k1 = k)) as [->|Hne].
  - rewrite obj_find_None by done. rewrite lookup_insert_eq.
    by destruct (entry_note v1).
  - by rewrite lookup_insert_ne.
Qed.

End NotesFile.

(** X23. A notes file that holds an object whose members are all objects
    with string [note] and [date] members, or without them, is loaded in
    full: every member gives the note of its name, a member that lacks
    [note] or [date] gets the empty string there, and the other names keep
    what the store had. *)
Theorem notes_file_is_loaded_in_full text m saved k :
  Json.parse_stream text = Some (Json.JObject m) →
  Forall (λ kv, note_entry kv.2) m →
  load_notes (Some text) saved !! k
  = match Json.obj_find k m with
    | Some v => Some (entry_note v)
    | None => saved !! k
    end.
Proof.
  intros Hparse Hm. unfold load_notes. rewrite Hparse.
  apply read_notes_entries; [done|].
  by eapply parse_stream_object_NoDup.
Qed.

Lemma notes_file_is_loaded_in_full_witness :
  let text := "{" +:+ Scenario.quoted "/works/OL1W" +:+ ":{"
              +:+ Scenario.quoted "note" +:+ ":" +:+ Scenario.quoted "great"
              +:+ "}}" in
  load_notes (Some text) ∅ !! "/works/OL1W" = Some (mkBookNote "great" "").
Proof.
  intros text.
  apply (notes_file_is_loaded_in_full text
           [("/works/OL1W", Json.JObject [("note", Json.JString "great")])]
           ∅ "/works/OL1W").
  - reflexivity.
  - constructor; [|constructor].
    exists [("note", Json.JString "great")]. split; [done|].
    split; intros x [= <-]. by exists "great".
Defined.

Lemma not_note_entry_value bad :
  ¬ note_entry bad →
  Json.value bad "note" "" = None ∨ Json.value bad "date" "" = None.
Proof.
  intros Hbad. destruct bad as [| | | | |l|m]; try by left.
  assert (∀ name, (∀ x, Json.obj_find name m = Some x →
                        ∃ t, x = Json.JString t)
                  ∨ Json.value (Json.JObject m) name "" = None) as Hmember.
  { intros name. simpl. destruct (Json.obj_find name m) as [x|].
    - destruct x; try by right. left. intros x [= <-]. by eexists.
    - by left. }
  destruct (Hmember "note") as [Hnote|Hnote]; [|by left].
  destruct (Hmember "date") as [Hdate|Hdate]; [|by right].
  exfalso. apply Hbad. by exists m.
Qed.

Lemma read_notes_stops good k bad rest : ∀ saved,
  Forall (λ kv, note_entry kv.2) good → ¬ note_entry bad →
  read_notes (good ++ (k, bad) :: rest) saved = read_notes good saved.
Proof.
  induction good as [|[k1 v1] good IH]; intros saved Hgood Hbad.
  - simpl. destruct (not_note_entry_value bad Hbad) as [-> | ->]; [done|].
    by destruct (Json.value bad "note" "").
  - apply Forall_cons in Hgood as [Hv1 Hgood].
    destruct (note_entry_value v1 Hv1) as [Hnote Hdate].
    rewrite <- app_comm_cons. cbn [read_notes]. rewrite Hnote, Hdate.
    by apply IH.
Qed.

(** X24. One malformed member of the notes file ends the loading: the
    members before it, in the order of their names, are kept, and the
    members after it are lost, however well formed they are. *)
Theorem malformed_note_ends_loading text good k bad rest saved k' :
  Json.parse_stream text = Some (Json.JObject (good ++ (k, bad) :: rest)) →
  Forall (λ kv, note_entry kv.2) good →
  ¬ note_entry bad →
  load_notes (Some text) saved !! k'
  = match Json.obj_find k' good with
    | Some v => Some (entry_note v)
    | None => saved !! k'
    end.
Proof.
  intros Hparse Hgood Hbad. unfold load_notes. rewrite Hparse.
  cbn [Json.items]. rewrite read_notes_stops by done.
  apply read_notes_entries; [done|].
  apply parse_stream_object_NoDup in Hparse.
  rewrite fmap_app in Hparse. by apply NoDup_app in Hparse as [? _].
Qed.

Lemma malformed_note_ends_loading_witness :
  let text := "{" +:+ Scenario.quoted "a" +:+ ":{"
              +:+ Scenario.quoted "note" +:+ ":" +:+ Scenario.quoted "x"
              +:+ "}," +:+ Scenario.quoted "b" +:+ ":1,"
              +:+ Scenario.quoted "c" +:+ ":{"
              +:+ Scenario.quoted "note" +:+ ":" +:+ Scenario.quoted "y"
              +:+ "}}" in
  load_notes (Some text) ∅ !! "a" = Some (mkBookNote "x" "")
  ∧ load_notes (Some text) ∅ !! "c" = None.
Proof.
  intros text.
  assert (Forall (λ kv : string * Json.json, note_entry kv.2)
            [("a", Json.JObject [("note", Json.JString "x")])]) as Hgood.
  { constructor; [|constructor].
    exists [("note", Json.JString "x")]. split; [done|].
    split; intros z [= <-]. by exists "x". }
  assert (¬ note_entry (Json.JInt 1)) as Hbad by (by intros (m & ? & _)).
  split.
  - apply (malformed_note_ends_loading text
             [("a", Json.JObject [("note", Json.JString "x")])]
             "b" (Json.JInt 1)
             [("c", Json.JObject [("note", Json.JString "y")])] ∅ "a");
      [reflexivity|exact Hgood|exact Hbad].
  - rewrite (malformed_note_ends_loading text
               [("a", Json.JObject [("note", Json.JString "x")])]
               "b" (Json.JInt 1)
               [("c", Json.JObject [("note", Json.JString "y")])] ∅ "c");
      [apply lookup_empty|reflexivity|exact Hgood|exact Hbad].
Defined.

Section NotesSaved.
Import Json.

Lemma assign_in_order l :
  foldl (λ oj '(k, n), j ← oj; assign j k (note_object n)) (Some JNull) l
  = Some (if decide (l = []) then JNull
          else JObject (notes_members (reverse l))).
Proof.
  induction l as [|[k n] l IH] using rev_ind; [done|].
  rewrite foldl_app, IH, reverse_app. simpl.
  destruct (decide (l ++ [(k, n)] = [])) as [Hnil|_];
    [by destruct l|].
  by destruct (decide (l = [])) as [->|].
Qed.

Lemma dump_escaped_utf8 n s :
  (String.length s < n)%nat → is_Some (dump_escaped s) → utf8 s = true.
Proof.
  revert s. induction n as [|n IH]; intros s Hn; [lia|].
  destruct s as [|c r]; [done|]. simpl in Hn.
  cbn [dump_escaped utf8]. destruct (classify c r) eqn:Hclass.
  - intros [e He]. apply IH; [lia|].
    destruct (dump_escaped r); [by eexists|done].
  - destruct r as [|c1 r1]; [by intros [? ?]|]. simpl in Hn.
    intros [e He]. apply IH; [lia|].
    destruct (dump_escaped r1); [by eexists|done].
  - destruct r as [|c1 [|c2 r2]]; [by intros [? ?]..|]. simpl in Hn.
    intros [e He]. apply IH; [lia|].
    destruct (dump_escaped r2); [by eexists|done].
  - destruct r as [|c1 [|c2 [|c3 r3]]]; [by intros [? ?]..|]. simpl in Hn.
    intros [e He]. apply IH; [lia|].
    destruct (dump_escaped r3); [by eexists|done].
  - by intros [? ?].
Qed.

Lemma dump_members_member f new m k x :
  is_Some (dump_members f new m) → (k, x) ∈ m →
  is_Some (dump_escaped k) ∧ is_Some (f x).
Proof.
  induction m as [|[k1 x1] m IH]; [by intros _ ?%elem_of_nil|].
  cbn [dump_members]. fold (dump_members f new).
  intros [body Hbody] Hin.
  destruct (dump_escaped k1) as [e|] eqn:He; [|done].
  destruct (f x1) as [d|] eqn:Hd; [|done].
  destruct (dump_members f new m) as [r|]; [|done].
  apply elem_of_cons in Hin as [[= -> ->]|Hin].
  - rewrite He, Hd. split; by eexists.
  - apply IH; [by eexists|done].
Qed.

Lemma dump_object_member step cur m k x :
  is_Some (dump_aux step cur (JObject m)) → (k, x) ∈ m →
  is_Some (dump_escaped k) ∧ is_Some (dump_aux step (cur + step) x).
Proof.
  destruct m as [|kv m]; [by intros _ ?%elem_of_nil|].
  cbn [dump_aux]. intros [text Htext] Hin.
  apply (dump_members_member _ (cur + step)%nat (kv :: m)); [|done].
  destruct (dump_members _ _ (kv :: m)); [by eexists|done].
Qed.

Lemma dump_note_object_utf8 step cur n :
  is_Some (dump_aux step cur (note_object n)) →
  utf8 (note n) = true ∧ utf8 (date n) = true.
Proof.
  intros Hdump. rewrite note_object_members in Hdump.
  destruct (dump_object_member _ _ _ "note" (JString (note n)) Hdump)
    as [_ [t Ht]]; [set_solver|].
  destruct (dump_object_member _ _ _ "date" (JString (date n)) Hdump)
    as [_ [t' Ht']]; [set_solver|].
  cbn [dump_aux] in Ht, Ht'. split.
  - apply (dump_escaped_utf8 (S (String.length (note n)))); [lia|].
    destruct (dump_escaped (note n)); [by eexists|done].
  - apply (dump_escaped_utf8 (S (String.length (date n)))); [lia|].
    destruct (dump_escaped (date n)); [by eexists|done].
Qed.

Lemma save_notes_utf8 saved k n :
  is_Some (save_notes saved) → saved !! k = Some n → utf8_note k n.
Proof.
  unfold save_notes. rewrite notes_to_json_members. simpl.
  intros Hdump Hin. apply elem_of_map_to_list in Hin.
  destruct (decide (map_to_list saved = [])) as [Hnil|_];
    [by rewrite Hnil in Hin; apply elem_of_nil in Hin|].
  assert ((k, note_object n) ∈ notes_members (map_to_list saved)) as Hmem.
  { rewrite notes_members_Permutation by apply NoDup_fst_map_to_list.
    apply list_elem_of_fmap. by exists (k, n). }
  destruct (dump_object_member _ _ _ _ _ Hdump Hmem) as [Hkey Hobj].
  apply dump_note_object_utf8 in Hobj as [? ?].
  split; [|done].
  by apply (dump_escaped_utf8 (S (String.length k))); [lia|].
Qed.

End NotesSaved.

(** X25. The file written at exit does not depend on the order in which
    the unordered map of the saved notes is walked: the assignments
    [notes_json[key] = ...], made in any order, build the same value. *)
Theorem notes_file_ignores_iteration_order saved l :
  l ≡ₚ map_to_list saved →
  foldl (λ oj '(k, n), j ← oj; Json.assign j k (note_object n))
    (Some Json.JNull) l
  = notes_to_json saved.
Proof.
  intros Hperm. rewrite assign_in_order, notes_to_json_members.
  destruct (decide (l = [])) as [->|Hl].
  - apply Permutation_nil_l in Hperm. by rewrite <- Hperm.
  - rewrite decide_False
      by (intros Hnil; rewrite Hnil in Hperm;
          by apply Permutation_nil_r in Hperm).
    do 2 f_equal. apply notes_members_order.
    + rewrite fmap_reverse, reverse_Permutation, Hperm.
      apply NoDup_fst_map_to_list.
    + by rewrite reverse_Permutation.
Qed.

Lemma notes_file_ignores_iteration_order_witness :
  let a := ("/works/OL1W", mkBookNote "great" "2024-01-01") in
  let b := ("/works/OL2W", mkBookNote "dull" "2024-01-02") in
  foldl (λ oj '(k, n), j ← oj; Json.assign j k (note_object n))
    (Some Json.JNull) [b; a]
  = notes_to_json (list_to_map [a; b]).
Proof.
  intros a b.
  apply (notes_file_ignores_iteration_order (list_to_map [a; b]) [b; a]).
  rewrite map_to_list_to_map; [apply Permutation_swap|].
  apply (bool_decide_unpack _). reflexivity.
Defined.

(** X26. One saved note whose key, text or date is not well-formed
    UTF-8 costs all the notes: the serializer throws after the file was
    truncated, so [notes.json] is left empty and the next start finds no
    note at all. *)
Theorem ill_formed_note_loses_all_notes c k n :
  saved_notes c !! k = Some n → ¬ utf8_note k n →
  save_notes (saved_notes c) = None
  ∧ notes_json (main_exit c) = Some ""
  ∧ saved_notes (main_startup (main_exit c)) = ∅.
Proof.
  intros Hk Hill.
  assert (save_notes (saved_notes c) = None) as Hsave.
  { destruct (save_notes (saved_notes c)) as [text|] eqn:Hsave; [|done].
    exfalso. apply Hill. apply (save_notes_utf8 (saved_notes c)); [|done].
    rewrite Hsave. by eexists. }
  split; [done|]. unfold main_startup, main_exit. simpl.
  by rewrite Hsave.
Qed.

Lemma ill_formed_note_loses_all_notes_witness :
  let c := set_saved_notes
             {[ "/works/OL1W" := mkBookNote "great" "2024-01-01";
                "/works/OL2W" := mkBookNote (String "192" "") "2024-01-02" ]}
             CommonObjects_default in
  saved_notes (main_startup (main_exit c)) = ∅.
Proof.
  intros c.
  apply (ill_formed_note_loses_all_notes c "/works/OL2W"
           (mkBookNote (String "192" "") "2024-01-02")).
  - reflexivity.
  - by intros (_ & ? & _).
Defined.

(** * The three threads *)

(** ** The uninterrupted runs *)

Lemma convert_doc_convert_fields c doc :
  convert_doc c doc
  = match convert_fields doc with
    | Skipped => Skipped
    | Accepted book =>
        Accepted
          (set_notes
             (match saved_notes c !! key book with
              | Some n => {[ key book := n ]}
              | None => ∅
              end)
             (set_is_favorite (Std.contains (key book) (favorite_books c))
                book))
    | Thrown => Thrown
    end.
Proof.
  unfold convert_doc, convert_fields.
  destruct (Json.contains doc "key" && Json.contains doc "title"); [|done].
  repeat (match goal with
          | |- context [mbind _ ?o] => destruct o; simpl; [|done]
          end).
  done.
Qed.

Lemma download_alone_add Get n n' c d :
  download_alone Get (n + n') c d
  = let '(c', d') := download_alone Get n' c d in download_alone Get n c' d'.
Proof.
  unfold download_alone. rewrite Nat.iter_add.
  by destruct (Nat.iter n' _ (c, d)).
Qed.

Lemma download_alone_S Get n c d :
  download_alone Get (S n) c d
  = let '(c', d') := download_step Get c d in download_alone Get n c' d'.
Proof.
  replace (S n) with (n + 1)%nat by lia. rewrite download_alone_add.
  unfold download_alone at 1. simpl. by destruct (download_step Get c d).
Qed.

(** The loop over [docs], when nothing else writes the store: it ends at
    line 139 with the books [push_docs] gives, and with the data-ready
    flag raised when no element throws. *)
Lemma download_alone_docs Get docs : ∀ c,
  ∃ n, download_alone Get n c (AtDocs docs)
       = (match push_docs c docs (books c) with
          | (pushed, true) => set_data_ready true (set_books pushed c)
          | (pushed, false) => set_books pushed c
          end, AtClear).
Proof.
  induction docs as [|doc docs IH]; intros c.
  - exists 1%nat. by destruct c.
  - cbn [push_docs]. rewrite convert_doc_convert_fields.
    destruct (convert_fields doc) as [|book|] eqn:Hfields.
    + destruct (IH c) as [n Hn]. exists (S n).
      by rewrite download_alone_S; cbn [download_step]; rewrite Hfields.
    + set (flagged := set_is_favorite
                        (Std.contains (key book) (favorite_books c)) book).
      set (c' := λ b : Book, set_books (books c ++ [b]) c).
      assert (∀ b, push_docs (c' b) docs (books (c' b))
                   = push_docs c docs (books c ++ [b])) as Hext
        by (intros b; by apply push_docs_ext).
      destruct (saved_notes c !! key book) as [note|] eqn:Hnote.
      * destruct (IH (c' (set_notes {[ key book := note ]} flagged)))
          as [n Hn].
        exists (S (S (S (S n)))).
        rewrite download_alone_S. cbn [download_step]. rewrite Hfields.
        rewrite download_alone_S. cbn [download_step]. fold flagged.
        change (key flagged) with (key book). rewrite Hnote.
        rewrite download_alone_S. cbn [download_step].
        change (key flagged) with (key book). rewrite Hnote.
        rewrite download_alone_S. cbn [download_step].
        change (notes flagged) with (notes book).
        assert (notes book = ∅) as ->.
        { unfold convert_fields in Hfields.
          destruct (_ && _); [|done].
          destruct (mbind _ _) as [b|] eqn:Hb; [|done].
          injection Hfields as <-.
          repeat (apply bind_Some in Hb as (? & _ & Hb)).
          by injection Hb as <-. }
        rewrite insert_empty. fold (c' (set_notes {[key book := note]} flagged)).
        rewrite Hn, Hext.
        by destruct (push_docs c docs _) as [pushed []].
      * destruct (IH (c' flagged)) as [n Hn].
        exists (S (S (S n))).
        rewrite download_alone_S. cbn [download_step]. rewrite Hfields.
        rewrite download_alone_S. cbn [download_step]. fold flagged.
        change (key flagged) with (key book). rewrite Hnote.
        rewrite download_alone_S. cbn [download_step].
        fold (c' flagged). rewrite Hn, Hext.
        assert (notes book = ∅) as Hempty.
        { unfold convert_fields in Hfields.
          destruct (_ && _); [|done].
          destruct (mbind _ _) as [b|] eqn:Hb; [|done].
          injection Hfields as <-.
          repeat (apply bind_Some in Hb as (? & _ & Hb)).
          by injection Hb as <-. }
        assert (set_notes ∅ flagged = flagged) as ->
          by (destruct book; simpl in *; by subst).
        by destruct (push_docs c docs _) as [pushed []].
    + exists 1%nat. rewrite download_alone_S. cbn [download_step].
      rewrite Hfields. by destruct c.
Qed.

Lemma set_books_books c : set_books (books c) c = c.
Proof. by destruct c. Qed.

(** A fetch attempt that nothing interrupts is [download_attempt]. *)
Lemma download_alone_attempt Get c :
  ∃ n, download_alone Get n c AtQuery = (download_attempt Get c, AtLoopHead).
Proof.
  assert (download_alone Get 4 c AtQuery = (c, AtGet (request_path c)))
    as Hpath.
  { unfold download_alone. simpl. do 2 f_equal. unfold request_path.
    by rewrite !append_assoc. }
  assert (∃ n, download_alone Get n c (AtGet (request_path c))
               = (fetch Get c, AtClear)) as [n Hn].
  { unfold fetch.
    destruct (Get (request_path c)) as [|status body|] eqn:HGet;
      [exists 1%nat; unfold download_alone; simpl; by rewrite HGet|
      |exists 1%nat; unfold download_alone; simpl; by rewrite HGet].
    destruct (decide (status = 200)) as [->|Hstatus];
      [|exists 1%nat; unfold download_alone; simpl;
        by rewrite HGet, decide_False].
    destruct (Json.parse body) as [j|] eqn:Hparse;
      [|exists 1%nat; unfold download_alone; simpl; by rewrite HGet, Hparse].
    destruct (download_alone_docs Get (response_docs j) (set_books [] c))
      as [n Hn].
    exists (S n). rewrite download_alone_S. cbn [download_step].
    rewrite HGet, Hparse. simpl. rewrite Hn.
    rewrite (push_docs_ext c (set_books [] c)) by done. simpl.
    by destruct (push_docs c (response_docs j) []) as [pushed []]. }
  exists (1 + n + 4)%nat. rewrite download_alone_add, Hpath.
  rewrite download_alone_add, Hn. done.
Qed.

(** A turn of the loop that nothing interrupts is [poll]. *)
Lemma download_alone_poll Get c :
  ∃ n, download_alone Get n c AtLoopHead
       = (poll Get c, if exit_flag c then Stopped else AtLoopHead).
Proof.
  unfold poll. destruct (exit_flag c) eqn:Hexit.
  - exists 1%nat. unfold download_alone. simpl. by rewrite Hexit.
  - destruct (start_download c) eqn:Hstart.
    + destruct (download_alone_attempt Get c) as [n Hn].
      assert (download_alone Get 2 c AtLoopHead = (c, AtQuery)) as Hhead
        by (rewrite download_alone_S; cbn [download_step]; rewrite Hexit;
            rewrite download_alone_S; cbn [download_step];
            by rewrite Hstart).
      exists (n + 2)%nat. by rewrite download_alone_add, Hhead.
    + exists 2%nat.
      rewrite download_alone_S; cbn [download_step]; rewrite Hexit.
      rewrite download_alone_S; cbn [download_step]. by rewrite Hstart.
Qed.

(** ** [main] on its own *)




Lemma threads_run_cons files t a actions :
  threads_run files t (a :: actions)
  = threads_run files (thread_step files t a) actions.
Proof. done. Qed.



(** ** Flags and favorites list, whatever the interleaving *)







(** Why the last proviso is there. The key [/works/OL1W] is a favorite
    and has a row in the favorites view. A search for [dune] is under way,
    and the download thread has read the favorites list for the one
    element of the answer when the Remove button of the row is handled:
    the book is then pushed with its flag set, its key no longer a
    favorite. No key occurs twice anywhere. *)
Example remove_between_flag_and_push :
  let files := Scenario.dune_files in
  let t := threads_run files threads_start (replicate 6 MainThread) in
  let actions :=
    [Draw (EvRefreshFavorites [Scenario.dune_book]); Draw (EvSearch "dune")]
    ++ replicate 8 (Downloader Scenario.dune_catalog)
    ++ [Draw (EvRemoveFavorite 0)]
    ++ replicate 2 (Downloader Scenario.dune_catalog) in
  let t' := threads_run files t actions in
  in_flight
    (download (threads_run files t
                 ([Draw (EvRefreshFavorites [Scenario.dune_book]);
                   Draw (EvSearch "dune")]
                  ++ replicate 8 (Downloader Scenario.dune_catalog))))
  = Some Scenario.dune_book
  ∧ NoDup (favorite_books (main_startup files))
  ∧ keys_unique_along files t actions
  ∧ books (common (draw t')) = [Scenario.dune_book]
  ∧ favorite_books (common (draw t')) = []
  ∧ ¬ favorites_in_sync (common (draw t')).
Proof.
  intros files t actions t'.
  split; [reflexivity|]. split; [apply NoDup_singleton|].
  split.
  { repeat split; vm_compute; repeat constructor;
      (apply not_elem_of_nil || by intros ?%elem_of_nil). }
  split; [reflexivity|]. split; [reflexivity|].
  intros Hsync. specialize (Hsync Scenario.dune_book).
  assert (key Scenario.dune_book ∈ favorite_books (common (draw t'))) as Hin.
  { apply Hsync; [|reflexivity]. vm_compute. apply list_elem_of_singleton.
    reflexivity. }
  vm_compute in Hin. by apply elem_of_nil in Hin.
Qed.

(** ** The exit flag *)

Lemma exit_flag_download_step Get c d :
  exit_flag (download_step Get c d).1 = exit_flag c.
Proof.
  destruct d as [| | | | | |path|[|doc docs]|book docs|book docs| | |];
    simpl; try done.
  - destruct (Get path) as [|status body|]; try done.
    destruct (decide (status = 200)); [|done].
    by destruct (Json.parse body).
  - by destruct (convert_fields doc).
  - by destruct (saved_notes c !! key book).
Qed.

Lemma exit_flag_main_step files c m :
  exit_flag (main_step files c m).1 = exit_flag c.
Proof.
  destruct m as [| | |stream| |[|[k n] items]|]; simpl; try done.
  - destruct (Std.getline stream) as [[line rest]|]; [|done].
    simpl. by destruct (decide (line = "")).
  - destruct (Json.value n "note" "") as [a|]; [|done].
    by destruct (Json.value n "date" "").
Qed.

Lemma exit_flag_thread_step files t a :
  exit_flag (common (draw t)) = true →
  exit_flag (common (draw (thread_step files t a))) = true
  ∧ (at_rest (download t) → at_rest (download (thread_step files t a))).
Proof.
  intros Hexit. destruct a as [e|Get|]; cbn [thread_step].
  - destruct (is_poll e); [done|]. split; [|done].
    by apply exit_flag_step.
  - pose proof (exit_flag_download_step Get (common (draw t)) (download t))
      as Hsame.
    destruct (download_step Get (common (draw t)) (download t)) as [c d]
      eqn:Hstep.
    simpl in *. split; [congruence|].
    intros [Hd|Hd]; rewrite Hd in Hstep; simpl in Hstep;
      rewrite ?Hexit in Hstep; injection Hstep as _ <-; by right.
  - pose proof (exit_flag_main_step files (common (draw t)) (main t))
      as Hsame.
    destruct (main_step files (common (draw t)) (main t)) as [c m].
    simpl in *. split; [congruence|done].
Qed.

(** A fetch attempt that is under way when the window is closed is not
    stopped by the exit flag: it still replaces the result list and writes
    the two flags. *)
Example attempt_in_flight_outlives_exit :
  let files := Scenario.dune_files in
  let t := threads_run files threads_start
             ([Draw (EvSearch "dune")]
              ++ replicate 6 (Downloader Scenario.dune_catalog)
              ++ [Draw EvWindowClosed]) in
  let t' := threads_run files t
              (replicate 6 (Downloader Scenario.dune_catalog)) in
  exit_flag (common (draw t)) = true
  ∧ download t = AtGet Scenario.dune_path
  ∧ books (common (draw t)) = [] ∧ data_ready (common (draw t)) = false
  ∧ is_favorite <$> books (common (draw t')) = [false]
  ∧ data_ready (common (draw t')) = true
  ∧ start_download (common (draw t')) = false
  ∧ download t' = AtLoopHead.
Proof. repeat split; reflexivity. Qed.

(** X13. The exit flag is never reset, however the three threads are
    interleaved; and once it is set, a download thread that is at the head
    of its loop, or has left the loop, starts no other fetch attempt. *)
Theorem exit_flag_is_final files t actions :
  exit_flag (common (draw t)) = true →
  exit_flag (common (draw (threads_run files t actions))) = true
  ∧ (at_rest (download t) →
     at_rest (download (threads_run files t actions))).
Proof.
  revert t. induction actions as [|a actions IH]; intros t Hexit; [done|].
  rewrite threads_run_cons.
  destruct (exit_flag_thread_step files t a Hexit) as [Hexit' Hrest].
  destruct (IH _ Hexit') as [Hflag Hrest']. split; [done|].
  intros Hd. by apply Hrest', Hrest.
Qed.

Lemma exit_flag_is_final_witness :
  let files := Scenario.dune_files in
  let t := threads_run files threads_start
             [MainThread; Draw EvWindowClosed] in
  let actions := [Draw (EvSearch "dune"); Downloader Scenario.dune_catalog;
                  MainThread; Downloader Scenario.dune_catalog] in
  exit_flag (common (draw (threads_run files t actions))) = true
  ∧ download (threads_run files t actions) = Stopped.
Proof.
  intros files t actions.
  destruct (exit_flag_is_final files t actions) as [Hflag Hrest];
    [reflexivity|].
  split; [exact Hflag|]. reflexivity.
Defined.
